(** * Arka solar-flare monitor: the agent pipeline of [solar_flare_monitor.py]

    A shallow embedding of the four agents (Monitor, Analyst, Report Writer,
    Notifier) and of the orchestrator's [run_cycle], followed by the
    properties of the pipeline that the specification states.

    The summary, the configuration from the environment, the Cloud Run
    handler and the routes of the dashboard server [app.py] are embedded
    as well, with further properties of the code after those of the
    specification.

    Conventions of the embedding.
    - A Python [str] is a [string] (a sequence of bytes; the feed's
      identifiers and classification codes are ASCII).
    - A value read from the feed's JSON is a [pyval]: [None], an integer or a
      string.  The value under ['linkedEvents'] may also be a list of
      objects.
    - A Python exception is a value of [exn]; code that can raise lives in
      the monad [M], which threads the mutable state of the system and keeps
      the mutations made before the exception was raised.
    - Everything outside the process (the clock, the DONKI feed, Gemini,
      Serper, the console, the file system, SMTP, and the interpreter's
      [datetime] formatting) is a field of [World].
    - [BaseAgent.log] prints a line stamped with [datetime.now()] and
      appends it to [execution_history], which no agent reads; it is left
      out, and so are the banners [run_cycle] prints: a console on which
      even these lines cannot be printed is outside the model.  The clock
      of a [World] therefore lists the readings of the code that is
      embedded, in their order; the readings [log] makes in between are
      not among them, and no property states the position of a reading
      among those of the program. *)

From Stdlib Require Import ZArith Ascii DecimalString.
From stdpp Require Import base option list strings gmap sorting.

Local Open Scope Z_scope.

(* ====================================================================== *)
(** ** Python values and strings *)
(* ====================================================================== *)

Module Py.

Inductive pyval : Type :=
| PNone
| PInt (z : Z)
| PStr (s : string).

#[global] Instance pyval_eq_dec : EqDecision pyval.
Proof. solve_decision. Defined.

Definition pyval_to_sum (v : pyval) : unit + Z + string :=
  match v with
  | PNone => inl (inl tt)
  | PInt z => inl (inr z)
  | PStr s => inr s
  end.

Definition pyval_of_sum (x : unit + Z + string) : pyval :=
  match x with
  | inl (inl _) => PNone
  | inl (inr z) => PInt z
  | inr s => PStr s
  end.

#[global] Instance pyval_countable : Countable pyval.
Proof.
  apply (inj_countable' pyval_to_sum pyval_of_sum).
  intros []; reflexivity.
Defined.

Inductive exn : Type :=
| TypeError
| AttributeError
| ValueError
| KeyError
| RequestException
| OtherException.

#[global] Instance exn_eq_dec : EqDecision exn.
Proof. solve_decision. Defined.

(** [bool(v)]: [None], [0] and the empty string are falsy. *)
Definition truthy (v : pyval) : bool :=
  match v with
  | PNone => false
  | PInt z => negb (z =? 0)
  | PStr s => negb (String.eqb s "")
  end.

(** [a or b] on values. *)
Definition py_or (a b : pyval) : pyval := if truthy a then a else b.

Definition str_of_Z (z : Z) : string := NilZero.string_of_int (Z.to_int z).
Definition str_of_nat (n : nat) : string := NilZero.string_of_uint (Nat.to_uint n).

(** [str(v)], what an f-string prints for [{v}]. *)
Definition py_str (v : pyval) : string :=
  match v with
  | PNone => "None"
  | PInt z => str_of_Z z
  | PStr s => s
  end.

(** [s.startswith(p)] *)
Definition startswith (s p : string) : bool := String.prefix p s.

(** [s[1:]] *)
Definition tail_from_1 (s : string) : string :=
  match s with
  | EmptyString => ""
  | String _ t => t
  end.

(** [s[0]], defined when [s] is not empty. *)
Definition first_char (s : string) : option ascii :=
  match s with
  | EmptyString => None
  | String c _ => Some c
  end.

(** [s[:n]] *)
Definition take_str (n : nat) (s : string) : string := String.substring 0 n s.

(** [c * n] for a one-character string [c]. *)
Fixpoint repeat_char (c : ascii) (n : nat) : string :=
  match n with
  | O => ""
  | S n' => String c (repeat_char c n')
  end.

(** [s.replace('Z', t)] *)
Fixpoint replace_Z (t s : string) : string :=
  match s with
  | EmptyString => ""
  | String c s' =>
      if Ascii.eqb c "Z" then t +:+ replace_Z t s' else String c (replace_Z t s')
  end.

(** [sep.join(l)] *)
Fixpoint join (sep : string) (l : list string) : string :=
  match l with
  | [] => ""
  | [x] => x
  | x :: l' => x +:+ sep +:+ join sep l'
  end.

End Py.
Export Py.

(* ====================================================================== *)
(** ** [float(s)] and the comparison with [5.0] *)
(* ====================================================================== *)

Module PyFloat.

(** The result of [float(s)], for an ASCII [s].  A finite result is kept as
    the exact decimal [m * 10^e] that was read; the rounding to a double is
    accounted for where the value is compared. *)
Inductive pyfloat : Type :=
| FNan
| FInf (negative : bool)
| FDec (m e : Z).

(** Whitespace that [float] strips from an ASCII [str]: 0x09-0x0d and the
    blank (0x1c-0x1f count as blanks only in a [str] that is not ASCII). *)
Definition is_space (c : ascii) : bool :=
  let n := nat_of_ascii c in
  ((9 <=? n) && (n <=? 13) || (n =? 32))%nat.

Definition digit (c : ascii) : option Z :=
  let n := nat_of_ascii c in
  if ((48 <=? n) && (n <=? 57))%nat then Some (Z.of_nat n - 48) else None.

Definition lower (c : ascii) : ascii :=
  let n := nat_of_ascii c in
  if ((65 <=? n) && (n <=? 90))%nat then ascii_of_nat (n + 32) else c.

Fixpoint lstrip (s : list ascii) : list ascii :=
  match s with
  | c :: s' => if is_space c then lstrip s' else s
  | [] => []
  end.

Definition strip (s : list ascii) : list ascii :=
  rev (lstrip (rev (lstrip s))).

(** The tail [(["_"] digit)*] of a digit part: the value read so far, the
    number of digits read, and the rest of the input. *)
Fixpoint more_digits (acc : Z) (n : nat) (s : list ascii) : Z * nat * list ascii :=
  match s with
  | c :: s' =>
      match digit c with
      | Some d => more_digits (10 * acc + d) (S n) s'
      | None =>
          if Ascii.eqb c "_" then
            match s' with
            | c' :: s'' =>
                match digit c' with
                | Some d => more_digits (10 * acc + d) (S n) s''
                | None => (acc, n, s)
                end
            | [] => (acc, n, s)
            end
          else (acc, n, s)
      end
  | [] => (acc, n, s)
  end.

(** [digitpart ::= digit (["_"] digit)*], continuing the number [acc]. *)
Definition digitpart (acc : Z) (s : list ascii) : option (Z * nat * list ascii) :=
  match s with
  | c :: s' =>
      match digit c with
      | Some d => Some (more_digits (10 * acc + d) 1 s')
      | None => None
      end
  | [] => None
  end.

(** [number ::= [digitpart] "." digitpart | digitpart ["."]]: the digits
    read as one integer, and how many of them follow the point. *)
Definition number (s : list ascii) : option (Z * nat * list ascii) :=
  match digitpart 0 s with
  | Some (i, _, rest) =>
      match rest with
      | c :: rest' =>
          if Ascii.eqb c "." then
            match digitpart i rest' with
            | Some (m, k, rest'') => Some (m, k, rest'')
            | None => Some (i, O, rest')
            end
          else Some (i, O, rest)
      | [] => Some (i, O, [])
      end
  | None =>
      match s with
      | c :: rest' =>
          if Ascii.eqb c "." then digitpart 0 rest' else None
      | [] => None
      end
  end.

Definition sign (s : list ascii) : bool * list ascii :=
  match s with
  | c :: s' =>
      if Ascii.eqb c "-" then (true, s')
      else if Ascii.eqb c "+" then (false, s')
      else (false, s)
  | [] => (false, [])
  end.

(** [exponent ::= ("e" | "E") [sign] digitpart], or nothing. *)
Definition exponent (s : list ascii) : option Z :=
  match s with
  | [] => Some 0
  | c :: s' =>
      if Ascii.eqb (lower c) "e" then
        let '(neg, s'') := sign s' in
        match digitpart 0 s'' with
        | Some (x, _, []) => Some (if neg then - x else x)
        | _ => None
        end
      else None
  end.

(** [float(s)]: [None] stands for the [ValueError] it raises. *)
Definition float (s : string) : option pyfloat :=
  let '(neg, body) := sign (strip (String.list_ascii_of_string s)) in
  let word := String.string_of_list_ascii (map lower body) in
  if String.eqb word "inf" || String.eqb word "infinity" then Some (FInf neg)
  else if String.eqb word "nan" then Some FNan
  else
    match number body with
    | Some (m, k, rest) =>
        match exponent rest with
        | Some x => Some (FDec (if neg then - m else m) (x - Z.of_nat k))
        | None => None
        end
    | None => None
    end.

(** [x >= 5.0].  [float] rounds the decimal it read to the nearest double,
    ties to even; the doubles next to [5.0] are [5 - 2^-50] and [5.0], and
    the tie [5 - 2^-51] goes to [5.0], so the rounded value is at least
    [5.0] exactly when [m * 10^e >= 5 - 2^-51].  A NaN compares false. *)
Definition ge_5 (x : pyfloat) : bool :=
  match x with
  | FNan => false
  | FInf negative => negb negative
  | FDec m e =>
      if 0 <=? e then 5 * 2 ^ 51 - 1 <=? m * 10 ^ e * 2 ^ 51
      else (5 * 2 ^ 51 - 1) * 10 ^ (- e) <=? m * 2 ^ 51
  end.

End PyFloat.
Export PyFloat.

(* ====================================================================== *)
(** ** Data structures *)
(* ====================================================================== *)

(** [class SolarFlare].  [class_type] is a string in every [SolarFlare] the
    Monitor builds (it has answered [startswith]); the other fields hold
    whatever the feed had under their keys. *)
Record SolarFlare : Type := mkSolarFlare {
  flare_id : pyval;
  class_type : string;
  source_location : pyval;
  begin_time : pyval;
  peak_time : pyval;
  end_time : pyval;
  linked_events : list pyval;
  active_region_num : pyval
}.

(** [SolarFlare.severity_level] *)
Definition severity_level (self : SolarFlare) : Z :=
  if startswith (class_type self) "X" then 3
  else if startswith (class_type self) "M" then 2
  else if startswith (class_type self) "C" then 1
  else 0.

(** The dictionary [_assess_severity] returns. *)
Record Severity : Type := mkSeverity {
  level : string;
  icon : string;
  description : string
}.

(** The dictionary [_search_flare_context] returns: the body of Serper's
    answer, or the fallback [{'organic': [], 'query': query}]. *)
Inductive SearchResults : Type :=
| SearchResponse (body : string)
| SearchFallback (query : string).

(** The dictionary [Agent2Analyst.execute] stores in [analysis_data]. *)
Record Analysis : Type := mkAnalysis {
  search_results : SearchResults;
  gemini_analysis : string;
  severity_assessment : Severity;
  potential_impacts : list string;
  affected_regions : list string;
  analysis_timestamp : string
}.

(** [class AgentContext] *)
Record AgentContext : Type := mkAgentContext {
  flare : SolarFlare;
  analysis_data : option Analysis;
  report : option string;
  notification_results : option (gmap string bool);
  timestamp : string
}.

(** An entry of [SolarFlareMonitoringSystem.execution_log]. *)
Record LogEntry : Type := mkLogEntry {
  log_timestamp : string;
  log_flare_id : pyval;
  log_class : string;
  log_notifications : option (gmap string bool)
}.

(** One record of the feed: a dictionary whose value under ['linkedEvents']
    may be a list of dictionaries. *)
Inductive linkedval : Type :=
| LScalar (v : pyval)
| LEvents (l : list (gmap string pyval)).

Record FlareData : Type := mkFlareData {
  fields : gmap string pyval;
  linkedEvents : option linkedval
}.

(** [d.get(key)] and [d.get(key, default)] *)
Definition dict_get (d : gmap string pyval) (key : string) : pyval :=
  default PNone (d !! key).
Definition dict_get_default (d : gmap string pyval) (key : string) (dflt : pyval) : pyval :=
  default dflt (d !! key).

(* ====================================================================== *)
(** ** The world outside, the state inside *)
(* ====================================================================== *)

(** Seconds since the epoch. *)
Definition datetime : Type := Z.

(** [d - timedelta(days=n)] *)
Definition minus_days (d : datetime) (n : Z) : datetime := d - n * 86400.

Inductive fetch_outcome : Type :=
| Fetched (data : list FlareData)
| FetchRaises (e : exn).

Record World : Type := mkWorld {
  (** the successive readings of [datetime.now()] that the code below
      makes *)
  clock : nat -> datetime;
  (** [d.strftime(fmt)], [d.isoformat()], [datetime.fromisoformat(s)]
      ([None] when it raises) *)
  strftime : string -> datetime -> string;
  isoformat : datetime -> string;
  fromisoformat : string -> option datetime;
  (** [requests.get(base_url, params)], [raise_for_status()] and [json()],
      from [startDate], [endDate] and [api_key] *)
  donki_get : string -> string -> string -> fetch_outcome;
  (** the body of [call_gemini]'s [try], from the key, the prompt and the
      temperature: the text, or [None] when anything in it raises *)
  gemini_post : string -> string -> pyfloat -> option string;
  (** the body of [_search_flare_context]'s [try], from the key and the
      query *)
  serper_post : string -> string -> option string;
  (** whether [print] of the text returns *)
  stdout_write : string -> bool;
  (** whether [os.makedirs], [open] and [write] return, from the file name
      and the text *)
  file_write : string -> string -> bool;
  (** whether the SMTP session returns, from the configuration, the
      subject and the text *)
  smtp_send : gmap string pyval -> string -> string -> bool
}.

(** The arguments of [SolarFlareMonitoringSystem.__init__]. *)
Record Config : Type := mkConfig {
  nasa_api_key : string;
  gemini_api_key : option string;
  serper_api_key : option string;
  email_config : option (gmap string pyval)
}.

(** [bool(key)] for an [Optional[str]]. *)
Definition key_set (k : option string) : bool :=
  match k with
  | Some s => negb (String.eqb s "")
  | None => false
  end.

(** [bool(d)] for an [Optional[Dict]]. *)
Definition dict_set (d : option (gmap string pyval)) : bool :=
  match d with
  | Some m => negb (bool_decide (m = ∅))
  | None => false
  end.

(** The mutable state: the Monitor's [seen_flares] and [last_check_time],
    the orchestrator's [execution_log], and how many times the clock has
    been read. *)
Record State : Type := mkState {
  seen_flares : gset pyval;
  last_check_time : option datetime;
  execution_log : list LogEntry;
  ticks : nat
}.

(** The state after [SolarFlareMonitoringSystem.__init__]. *)
Definition init_state : State :=
  {| seen_flares := ∅; last_check_time := None; execution_log := []; ticks := O |}.

(** *** The monad of Python code: state and exceptions *)

Inductive result (A : Type) : Type :=
| Ok (a : A)
| Raise (e : exn).
Arguments Ok {A} a.
Arguments Raise {A} e.

Definition M (A : Type) : Type := State -> result A * State.

Definition ret {A} (a : A) : M A := fun s => (Ok a, s).
Definition raise {A} (e : exn) : M A := fun s => (Raise e, s).
Definition bind {A B} (m : M A) (k : A -> M B) : M B :=
  fun s =>
    match m s with
    | (Ok a, s') => k a s'
    | (Raise e, s') => (Raise e, s')
    end.

Notation "'let*' x ':=' m 'in' k" := (bind m (fun x => k))
  (at level 10, x name, m at level 100, k at level 200).

(** [try: m  except ...: h e] *)
Definition try_except {A} (m : M A) (h : exn -> M A) : M A :=
  fun s =>
    match m s with
    | (Ok a, s') => (Ok a, s')
    | (Raise e, s') => h e s'
    end.

(** A computation that only returns or raises. *)
Definition lift {A} (r : result A) : M A :=
  match r with
  | Ok a => ret a
  | Raise e => raise e
  end.

Definition get_state : M State := fun s => (Ok s, s).

(** The state after one reading of the clock. *)
Definition tick (s : State) : State :=
  {| seen_flares := seen_flares s; last_check_time := last_check_time s;
     execution_log := execution_log s; ticks := S (ticks s) |}.

(** [datetime.now()] *)
Definition datetime_now (w : World) : M datetime :=
  fun s => (Ok (clock w (ticks s)), tick s).

(** [for x in l: body x] *)
Fixpoint for_each {A} (l : list A) (body : A -> M unit) : M unit :=
  match l with
  | [] => ret tt
  | x :: l' => let* _ := body x in for_each l' body
  end.

(** [[f x for x in l]] *)
Fixpoint map_M {A B} (f : A -> M B) (l : list A) : M (list B) :=
  match l with
  | [] => ret []
  | x :: l' => let* y := f x in let* ys := map_M f l' in ret (y :: ys)
  end.

(** [AgentContext(flare=flare)], with [__post_init__]. *)
Definition new_context (w : World) (fl : SolarFlare) : M AgentContext :=
  let* t := datetime_now w in
  ret {| flare := fl; analysis_data := None; report := None;
         notification_results := None; timestamp := isoformat w t |}.

(* ====================================================================== *)
(** ** Agent 1: the Monitor *)
(* ====================================================================== *)

Module Agent1Monitor.

(** [_fetch_recent_flares] *)
Definition _fetch_recent_flares (cfg : Config) (w : World) (days_back : Z)
  : M (list FlareData) :=
  let* end_date := datetime_now w in
  let start_date := minus_days end_date days_back in
  try_except
    (match donki_get w (strftime w "%Y-%m-%d" start_date)
                       (strftime w "%Y-%m-%d" end_date) (nasa_api_key cfg) with
     | Fetched data => ret data
     | FetchRaises e => raise e
     end)
    (fun e => if decide (e = RequestException) then ret [] else raise e).

(** The receiver of a [str] method: a value that is not a string has no
    [startswith]. *)
Definition str_receiver (v : pyval) : result string :=
  match v with
  | PStr c => Ok c
  | _ => Raise AttributeError
  end.

(** [[event.get('activityID', '') for event in
      flare_data.get('linkedEvents', [])]] *)
Definition linked_event_ids (fd : FlareData) : result (list pyval) :=
  match linkedEvents fd with
  | None => Ok []
  | Some (LEvents l) => Ok (map (fun event => dict_get_default event "activityID" (PStr "")) l)
  | Some (LScalar (PStr s)) =>
      (* the characters of a string are strings, which have no [get] *)
      if String.eqb s "" then Ok [] else Raise AttributeError
  | Some (LScalar _) => Raise TypeError
  end.

Definition add_seen (flare_id : pyval) : M unit :=
  fun s =>
    (Ok tt,
     {| seen_flares := {[flare_id]} ∪ seen_flares s;
        last_check_time := last_check_time s;
        execution_log := execution_log s; ticks := ticks s |}).

Definition set_last_check_time (t : datetime) : M unit :=
  fun s =>
    (Ok tt,
     {| seen_flares := seen_flares s; last_check_time := Some t;
        execution_log := execution_log s; ticks := ticks s |}).

(** The body of the loop of [_detect_new_flares], on one record:
    [new_flares] after it. *)
Definition detect_one (new_flares : list SolarFlare) (flare_data : FlareData)
  : M (list SolarFlare) :=
  let flare_id := dict_get (fields flare_data) "flrID" in
  let* s := get_state in
  if bool_decide (flare_id ∈ seen_flares s) then ret new_flares
  else
    let class_type := dict_get_default (fields flare_data) "classType" (PStr "") in
    let* class_type := lift (str_receiver class_type) in
    if startswith class_type "M" || startswith class_type "X" then
      let* links := lift (linked_event_ids flare_data) in
      let flare :=
        {| flare_id := flare_id;
           class_type := class_type;
           source_location := dict_get_default (fields flare_data) "sourceLocation" (PStr "Unknown");
           begin_time := dict_get_default (fields flare_data) "beginTime" (PStr "");
           peak_time := dict_get_default (fields flare_data) "peakTime" (PStr "");
           end_time := dict_get_default (fields flare_data) "endTime" (PStr "");
           linked_events := links;
           active_region_num := dict_get (fields flare_data) "activeRegionNum" |} in
      let* _ := add_seen flare_id in
      ret (new_flares ++ [flare])
    else ret new_flares.

Fixpoint detect_loop (new_flares : list SolarFlare) (flares_data : list FlareData)
  : M (list SolarFlare) :=
  match flares_data with
  | [] => ret new_flares
  | flare_data :: rest =>
      let* new_flares' := detect_one new_flares flare_data in
      detect_loop new_flares' rest
  end.

(** [_detect_new_flares] *)
Definition _detect_new_flares (w : World) (flares_data : list FlareData)
  : M (list SolarFlare) :=
  let* new_flares := detect_loop [] flares_data in
  let* t := datetime_now w in
  let* _ := set_last_check_time t in
  ret new_flares.

(** [execute] *)
Definition execute (cfg : Config) (w : World) : M (list AgentContext) :=
  let* flares_data := _fetch_recent_flares cfg w 7 in
  let* new_flares := _detect_new_flares w flares_data in
  match new_flares with
  | [] => ret []
  | _ => map_M (new_context w) new_flares
  end.

End Agent1Monitor.

(* ====================================================================== *)
(** ** Text helpers and [BaseAgent] *)
(* ====================================================================== *)

Definition nl : string := String "010" "".

(** The lines of a triple-quoted literal, each closed by a newline. *)
Fixpoint unlines (l : list string) : string :=
  match l with
  | [] => ""
  | x :: l' => x +:+ nl +:+ unlines l'
  end.

Definition rule_eq : string := repeat_char "=" 70.
Definition rule_bar : string :=
  "━━━━━━━━━━━━━━━━━━━━━━━━━━━━━━━━━━━━━━━━━━━━━━━━━━━━━━━━━━━━━━━━━━━━━━".

Definition set_analysis_data (ctx : AgentContext) (a : Analysis) : AgentContext :=
  {| flare := flare ctx; analysis_data := Some a; report := report ctx;
     notification_results := notification_results ctx; timestamp := timestamp ctx |}.

Definition set_report (ctx : AgentContext) (r : string) : AgentContext :=
  {| flare := flare ctx; analysis_data := analysis_data ctx; report := Some r;
     notification_results := notification_results ctx; timestamp := timestamp ctx |}.

Definition set_notification_results (ctx : AgentContext) (m : gmap string bool)
  : AgentContext :=
  {| flare := flare ctx; analysis_data := analysis_data ctx; report := report ctx;
     notification_results := Some m; timestamp := timestamp ctx |}.

Module BaseAgent.

(** [call_gemini]: the empty string without a key and when the call
    raises. *)
Definition call_gemini (cfg : Config) (w : World) (prompt : string)
    (temperature : pyfloat) : string :=
  match gemini_api_key cfg with
  | Some key =>
      if negb (String.eqb key "") then default "" (gemini_post w key prompt temperature)
      else ""
  | None => ""
  end.

End BaseAgent.

(* ====================================================================== *)
(** ** Agent 2: the Analyst *)
(* ====================================================================== *)

Module Agent2Analyst.

(** [peak_time[:10]]: only a string can be sliced. *)
Definition slice_10 (v : pyval) : result string :=
  match v with
  | PStr s => Ok (take_str 10 s)
  | _ => Raise TypeError
  end.

(** [_search_flare_context] *)
Definition _search_flare_context (cfg : Config) (w : World) (flare : SolarFlare)
  : M SearchResults :=
  let* day := lift (slice_10 (peak_time flare)) in
  let query := "solar flare " +:+ class_type flare +:+ " " +:+ day in
  match serper_api_key cfg with
  | Some key =>
      if negb (String.eqb key "") then
        match serper_post w key query with
        | Some body => ret (SearchResponse body)
        | None => ret (SearchFallback query)
        end
      else ret (SearchFallback query)
  | None => ret (SearchFallback query)
  end.

(** [_fallback_analysis] *)
Definition _fallback_analysis (flare : SolarFlare) : string :=
  let severity := if startswith (class_type flare) "X" then "severe" else "moderate" in
  "A " +:+ class_type flare +:+ " class solar flare represents " +:+ severity +:+ " "
  +:+ "space weather activity with potential impacts on radio "
  +:+ "communications and satellite operations.".

Definition analysis_prompt (flare : SolarFlare) : string :=
  Py.join nl [
    "You are a space weather analyst. Analyze this solar flare event:";
    "";
    "FLARE DATA:";
    "- Classification: " +:+ class_type flare;
    "- Peak Time: " +:+ py_str (peak_time flare);
    "- Source Location: " +:+ py_str (source_location flare);
    "- Active Region: " +:+ py_str (py_or (active_region_num flare) (PStr "Unknown"));
    "- Linked Events: " +:+ str_of_nat (length (linked_events flare));
    "";
    "CONTEXT:";
    "Search results indicate related space weather activity.";
    "";
    "TASK:";
    "Provide a concise analysis (2-3 sentences) covering:";
    "1. The significance of this flare class";
    "2. Likely impacts on Earth systems (communications, satellites, power grids)";
    "3. Any notable aspects based on timing or location";
    "";
    "Keep response factual and suitable for emergency alerts." ].

(** [_analyze_with_gemini] *)
Definition _analyze_with_gemini (cfg : Config) (w : World) (flare : SolarFlare)
    (search_results : SearchResults) : string :=
  if negb (key_set (gemini_api_key cfg)) then _fallback_analysis flare
  else BaseAgent.call_gemini cfg w (analysis_prompt flare) (FDec 3 (-1)).

(** [_assess_severity] *)
Definition _assess_severity (flare : SolarFlare) : Severity :=
  let level := severity_level flare in
  if level =? 3 then {| level := "SEVERE"; icon := "🔴"; description := "Major event" |}
  else if level =? 2 then {| level := "MODERATE"; icon := "🟠"; description := "Significant event" |}
  else if level =? 1 then {| level := "MINOR"; icon := "🟡"; description := "Minor event" |}
  else {| level := "INFO"; icon := "⚪"; description := "Informational" |}.

(** [_determine_impacts] *)
Definition _determine_impacts (flare : SolarFlare) : list string :=
  let class_letter := default "C"%char (first_char (class_type flare)) in
  if Ascii.eqb class_letter "X" then
    [ "High risk of widespread radio blackouts";
      "Potential GPS and navigation disruptions";
      "Possible power grid fluctuations at high latitudes";
      "Elevated radiation risk for polar flight routes" ]
  else if Ascii.eqb class_letter "M" then
    [ "Moderate radio interference on sunlit side";
      "Minor satellite operation disruptions";
      "Limited impact on high-frequency communications";
      "Possible auroral activity at high latitudes" ]
  else [ "Minimal impact expected" ].

(** The [try] of [_determine_regions]: [float(class_type[1:])], and [1.0]
    when it raises. *)
Definition class_magnitude (flare : SolarFlare) : pyfloat :=
  default (FDec 1 0) (float (tail_from_1 (class_type flare))).

Definition global_regions : list string :=
  [ "Global (all longitudes)";
    "Particularly: High-latitude regions";
    "Polar flight routes";
    "HF radio communication zones" ].

Definition sunlit_regions : list string :=
  [ "Sunlit hemisphere at time of peak";
    "High-frequency radio users";
    "Satellite operators" ].

(** [_determine_regions] *)
Definition _determine_regions (flare : SolarFlare) : list string :=
  if startswith (class_type flare) "X" || ge_5 (class_magnitude flare)
  then global_regions
  else sunlit_regions.

(** [execute] *)
Definition execute (cfg : Config) (w : World) (context : AgentContext)
  : M AgentContext :=
  let* search_results := _search_flare_context cfg w (flare context) in
  let gemini_analysis := _analyze_with_gemini cfg w (flare context) search_results in
  let severity := _assess_severity (flare context) in
  let impacts := _determine_impacts (flare context) in
  let regions := _determine_regions (flare context) in
  let* t := datetime_now w in
  ret (set_analysis_data context
         {| search_results := search_results;
            gemini_analysis := gemini_analysis;
            severity_assessment := severity;
            potential_impacts := impacts;
            affected_regions := regions;
            analysis_timestamp := isoformat w t |}).

End Agent2Analyst.

(* ====================================================================== *)
(** ** Agent 3: the Report Writer *)
(* ====================================================================== *)

Module Agent3ReportWriter.

(** [_format_time]: the bare [except] returns the argument as it came, also
    when it is not a string. *)
Definition _format_time (w : World) (iso_time : pyval) : pyval :=
  match iso_time with
  | PStr s =>
      match fromisoformat w (replace_Z "+00:00" s) with
      | Some dt => PStr (strftime w "%Y-%m-%d %H:%M UTC" dt)
      | None => iso_time
      end
  | _ => iso_time
  end.

Fixpoint bullets (l : list string) : string :=
  match l with
  | [] => ""
  | x :: l' => "  • " +:+ x +:+ nl +:+ bullets l'
  end.

(** [_generate_template_report] *)
Definition _generate_template_report (w : World) (context : AgentContext)
  : M string :=
  let flare := flare context in
  let analysis := analysis_data context in
  let level := from_option (fun a => level (severity_assessment a)) "INFO" analysis in
  let icon := from_option (fun a => icon (severity_assessment a)) "⚪" analysis in
  let report :=
    nl +:+ unlines [
      rule_eq;
      icon +:+ " SOLAR FLARE ALERT - " +:+ level +:+ " " +:+ icon;
      rule_eq;
      "";
      "FLARE CLASSIFICATION: " +:+ class_type flare;
      "EVENT ID: " +:+ py_str (flare_id flare);
      "SEVERITY: " +:+ level;
      "";
      rule_bar;
      "";
      "TIMING INFORMATION:";
      "  • Begin Time:  " +:+ py_str (_format_time w (begin_time flare));
      "  • Peak Time:   " +:+ py_str (_format_time w (peak_time flare));
      "  • End Time:    " +:+ py_str (_format_time w (end_time flare));
      "";
      "SOURCE INFORMATION:";
      "  • Location: " +:+ py_str (source_location flare);
      "  • Active Region: "
        +:+ py_str (py_or (active_region_num flare) (PStr "Not specified"));
      "";
      rule_bar;
      "";
      "ANALYSIS:";
      from_option gemini_analysis
        "AI analysis unavailable - using standard assessment" analysis;
      "";
      rule_bar;
      "";
      "POTENTIAL IMPACTS:" ] in
  let report :=
    report +:+ bullets (from_option potential_impacts ["Impact assessment pending"] analysis) in
  let report := report +:+ nl +:+ "AFFECTED REGIONS:" +:+ nl in
  let report :=
    report +:+ bullets (from_option affected_regions ["Global assessment pending"] analysis) in
  let report :=
    match linked_events flare with
    | [] => report
    | _ => report +:+ nl +:+ "LINKED EVENTS: "
             +:+ str_of_nat (length (linked_events flare))
             +:+ " associated space weather event(s)" +:+ nl
    end in
  let* t := datetime_now w in
  ret (report +:+ nl +:+ unlines [
      rule_bar;
      "";
      "RECOMMENDATIONS:";
      "  • Monitor space weather updates from NOAA SWPC";
      "  • Review communication backup procedures if in affected regions";
      "  • Satellite operators should verify system status";
      "  • Aircraft on polar routes should stay informed";
      "";
      "REPORT METADATA:";
      "  • Generated: " +:+ strftime w "%Y-%m-%d %H:%M:%S UTC" t;
      "  • Source: NASA DONKI API";
      "  • Event ID: " +:+ py_str (flare_id flare);
      "";
      rule_eq ]).

Definition report_prompt (flare : SolarFlare) (analysis : Analysis) : string :=
  Py.join nl [
    "You are writing an emergency alert report for a solar flare event. ";
    "";
    "FLARE DATA:";
    "- ID: " +:+ py_str (flare_id flare);
    "- Class: " +:+ class_type flare;
    "- Peak Time: " +:+ py_str (peak_time flare);
    "- Location: " +:+ py_str (source_location flare);
    "- Duration: " +:+ py_str (begin_time flare) +:+ " to " +:+ py_str (end_time flare);
    "";
    "ANALYSIS:";
    gemini_analysis analysis;
    "";
    "IMPACTS:";
    Py.join ", " (potential_impacts analysis);
    "";
    "AFFECTED REGIONS:";
    Py.join ", " (affected_regions analysis);
    "";
    "Generate a professional alert report with these sections:";
    "1. HEADER: Title with severity indicator";
    "2. EXECUTIVE SUMMARY: 2-3 sentence overview";
    "3. EVENT DETAILS: Technical specifications";
    "4. IMPACT ASSESSMENT: Expected effects";
    "5. AFFECTED AREAS: Geographic scope";
    "6. RECOMMENDATIONS: Brief guidance for affected parties";
    "";
    "Use clear, professional language. Include the emoji indicator for severity.";
    "Keep total length under 500 words." ].

(** [_generate_gemini_report], called with [analysis_data] present. *)
Definition _generate_gemini_report (cfg : Config) (w : World)
    (context : AgentContext) (analysis : Analysis) : M string :=
  let flare := flare context in
  let gemini_report :=
    BaseAgent.call_gemini cfg w (report_prompt flare analysis) (FDec 4 (-1)) in
  if negb (String.eqb gemini_report "") then
    let* t := datetime_now w in
    let footer :=
      nl +:+ nl +:+ rule_eq +:+ nl
      +:+ "Report ID: " +:+ py_str (flare_id flare) +:+ nl
      +:+ "Generated: " +:+ strftime w "%Y-%m-%d %H:%M:%S UTC" t +:+ nl
      +:+ "Powered by Gemini AI" +:+ nl +:+ rule_eq in
    ret (gemini_report +:+ footer)
  else _generate_template_report w context.

(** [execute] *)
Definition execute (cfg : Config) (w : World) (context : AgentContext)
  : M AgentContext :=
  let* report :=
    match analysis_data context with
    | Some analysis =>
        if key_set (gemini_api_key cfg)
        then _generate_gemini_report cfg w context analysis
        else _generate_template_report w context
    | None => _generate_template_report w context
    end in
  ret (set_report context report).

End Agent3ReportWriter.

(* ====================================================================== *)
(** ** Agent 4: the Notifier *)
(* ====================================================================== *)

Module Agent4Notifier.

(** [_notify_console] *)
Definition _notify_console (w : World) (report : string) : bool :=
  stdout_write w (nl +:+ report).

(** [_save_to_file] *)
Definition _save_to_file (w : World) (report : string) (flare : SolarFlare) : M bool :=
  let* t := datetime_now w in
  let timestamp := strftime w "%Y%m%d_%H%M%S" t in
  let filename :=
    "reports/solar_flare_" +:+ class_type flare +:+ "_" +:+ timestamp +:+ ".txt" in
  ret (file_write w filename report).

(** [_send_email]: a key missing from [email_config] raises inside the
    [try], like a failed session. *)
Definition _send_email (w : World) (email_config : gmap string pyval)
    (report : string) (flare : SolarFlare) : bool :=
  match email_config !! "sender", email_config !! "recipient",
        email_config !! "smtp_server", email_config !! "smtp_port",
        email_config !! "password" with
  | Some _, Some _, Some _, Some _, Some _ =>
      smtp_send w email_config
        ("🌞 SOLAR FLARE ALERT - " +:+ class_type flare +:+ " Class Event") report
  | _, _, _, _, _ => false
  end.

(** [execute] *)
Definition execute (cfg : Config) (w : World) (context : AgentContext)
  : M AgentContext :=
  match report context with
  | None => ret context
  | Some report =>
      if String.eqb report "" then ret context
      else
        let results : gmap string bool := ∅ in
        let results := <["console" := _notify_console w report]> results in
        let* saved := _save_to_file w report (flare context) in
        let results := <["file" := saved]> results in
        let results :=
          match email_config cfg with
          | Some ec =>
              if dict_set (Some ec)
              then <["email" := _send_email w ec report (flare context)]> results
              else results
          | None => results
          end in
        ret (set_notification_results context results)
  end.

End Agent4Notifier.

(* ====================================================================== *)
(** ** The orchestrator *)
(* ====================================================================== *)

Module SolarFlareMonitoringSystem.

Definition append_log (e : LogEntry) : M unit :=
  fun s =>
    (Ok tt,
     {| seen_flares := seen_flares s; last_check_time := last_check_time s;
        execution_log := execution_log s ++ [e]; ticks := ticks s |}).

Definition log_entry (context : AgentContext) : LogEntry :=
  {| log_timestamp := timestamp context;
     log_flare_id := flare_id (flare context);
     log_class := class_type (flare context);
     log_notifications := notification_results context |}.

(** The body of the loop of [run_cycle]. *)
Definition process (cfg : Config) (w : World) (context : AgentContext) : M unit :=
  let* context := Agent2Analyst.execute cfg w context in
  let* context := Agent3ReportWriter.execute cfg w context in
  let* context := Agent4Notifier.execute cfg w context in
  append_log (log_entry context).

(** [run_cycle] *)
Definition run_cycle (cfg : Config) (w : World) : M nat :=
  let* cycle_start := datetime_now w in
  try_except
    (let* contexts := Agent1Monitor.execute cfg w in
     match contexts with
     | [] => ret O
     | _ =>
         let* _ := for_each contexts (process cfg w) in
         let* cycle_end := datetime_now w in
         ret (length contexts)
     end)
    (fun e => ret O).

End SolarFlareMonitoringSystem.

(* ====================================================================== *)
(** ** Vocabulary of the properties *)
(* ====================================================================== *)

(** The identifier and the classification code the Monitor reads from a
    record. *)
Definition rec_id (r : FlareData) : pyval := dict_get (fields r) "flrID".
Definition rec_class (r : FlareData) : pyval :=
  dict_get_default (fields r) "classType" (PStr "").

(** The leading letter of a classification code is [M] or [X]. *)
Definition leading_MX (c : string) : bool :=
  match first_char c with
  | Some l => Ascii.eqb l "M" || Ascii.eqb l "X"
  | None => false
  end.

(** The rank the specification gives to a leading letter. *)
Definition letter_rank (l : option ascii) : Z :=
  match l with
  | Some c =>
      if Ascii.eqb c "X" then 3
      else if Ascii.eqb c "M" then 2
      else if Ascii.eqb c "C" then 1
      else 0
  | None => 0
  end.

(** The event record [f] with the classification code [c]. *)
Definition with_class (f : SolarFlare) (c : string) : SolarFlare :=
  {| flare_id := flare_id f; class_type := c;
     source_location := source_location f; begin_time := begin_time f;
     peak_time := peak_time f; end_time := end_time f;
     linked_events := linked_events f; active_region_num := active_region_num f |}.

(** A record the Monitor can read: the classification code is a string,
    the linked events are absent or a list. *)
Definition readable (r : FlareData) : Prop :=
  (exists c, rec_class r = PStr c) /\
  (linkedEvents r = None \/ exists l, linkedEvents r = Some (LEvents l)).

(** A record typed as the feed documents it: readable, and with a string
    for its peak time when it has one. *)
Definition well_typed (r : FlareData) : Prop :=
  readable r /\
  exists p, dict_get_default (fields r) "peakTime" (PStr "") = PStr p.

(** The classification code of a record starts with the letter [l]. *)
Definition class_is (l : string) (r : FlareData) : bool :=
  match rec_class r with
  | PStr c => startswith c l
  | _ => false
  end.

(** An event record typed as [class SolarFlare] annotates it. *)
Definition is_str (v : pyval) : Prop := exists s, v = PStr s.
Definition valid_event_record (f : SolarFlare) : Prop :=
  is_str (flare_id f) /\ is_str (source_location f) /\
  is_str (begin_time f) /\ is_str (peak_time f) /\ is_str (end_time f) /\
  Forall is_str (linked_events f) /\
  (active_region_num f = PNone \/ is_str (active_region_num f)).

(** The feed answers every request with [data]; the feed fails every
    request with a transport error. *)
Definition feed_returns (w : World) (data : list FlareData) : Prop :=
  forall startDate endDate api_key,
    donki_get w startDate endDate api_key = Fetched data.
Definition feed_fails (w : World) : Prop :=
  forall startDate endDate api_key,
    donki_get w startDate endDate api_key = FetchRaises RequestException.

(** Two states that differ in the clock readings only. *)
Definition same_memory (s s' : State) : Prop :=
  seen_flares s' = seen_flares s /\
  last_check_time s' = last_check_time s /\
  execution_log s' = execution_log s.

(** What a log entry takes from the context it summarises. *)
Definition summarises (e : LogEntry) (c : AgentContext) : Prop :=
  log_timestamp e = timestamp c /\
  log_flare_id e = flare_id (flare c) /\
  log_class e = class_type (flare c).

(** The three channels of the Notifier and their keys in the outcome map. *)
Inductive channel : Type := Console | File | Email.

#[global] Instance channel_eq_dec : EqDecision channel.
Proof. solve_decision. Defined.

Definition channel_key (ch : channel) : string :=
  match ch with
  | Console => "console"
  | File => "file"
  | Email => "email"
  end.

(** Channel [ch] returns [b] whatever it is given. *)
Definition channel_always (w : World) (ec : gmap string pyval) (ch : channel)
    (b : bool) : Prop :=
  match ch with
  | Console => forall report, Agent4Notifier._notify_console w report = b
  | File => forall report flare s, (Agent4Notifier._save_to_file w report flare s).1 = Ok b
  | Email => forall report flare, Agent4Notifier._send_email w ec report flare = b
  end.

(** The number of [false] entries of an outcome map. *)
Definition count_false (m : gmap string bool) : nat :=
  length (filter (fun kv => kv.2 = false) (map_to_list m)).

Import SolarFlareMonitoringSystem.

(** What [_save_to_file] answers in state [s]: the file is named after the
    reading of the clock made there. *)
Definition file_outcome (w : World) (report : string) (fl : SolarFlare) (s : State) : bool :=
  file_write w
    ("reports/solar_flare_" +:+ class_type fl +:+ "_"
       +:+ strftime w "%Y%m%d_%H%M%S" (clock w (ticks s)) +:+ ".txt") report.

(** The event record the Monitor builds from a readable record. *)
Definition flare_of (r : FlareData) : SolarFlare :=
  {| flare_id := rec_id r;
     class_type := py_str (rec_class r);
     source_location := dict_get_default (fields r) "sourceLocation" (PStr "Unknown");
     begin_time := dict_get_default (fields r) "beginTime" (PStr "");
     peak_time := dict_get_default (fields r) "peakTime" (PStr "");
     end_time := dict_get_default (fields r) "endTime" (PStr "");
     linked_events :=
       match Agent1Monitor.linked_event_ids r with Ok l => l | Raise _ => [] end;
     active_region_num := dict_get (fields r) "activeRegionNum" |}.

(** The record is significant and its identifier is not in [seen]. *)
Definition emits (seen : gset pyval) (r : FlareData) : Prop :=
  (class_is "M" r || class_is "X" r = true) /\ rec_id r ∉ seen.

#[global] Instance emits_dec seen r : Decision (emits seen r).
Proof. unfold emits. apply _. Defined.

(** The state [s] with the seen-set [seen]. *)
Definition with_seen (s : State) (seen : gset pyval) : State :=
  {| seen_flares := seen; last_check_time := last_check_time s;
     execution_log := execution_log s; ticks := ticks s |}.

(** The identifier of the event a context carries. *)
Definition ctx_id (c : AgentContext) : pyval := flare_id (flare c).

(** The identifiers a call of the Monitor emitted. *)
Definition emitted_ids (out : result (list AgentContext)) : list pyval :=
  match out with
  | Ok ctxs => map ctx_id ctxs
  | Raise _ => []
  end.

(** Successive calls of [Agent1Monitor.execute], one world per call: what
    each call returned and the state it left. *)
Fixpoint detect_calls (cfg : Config) (ws : list World) (s : State)
  : list (result (list AgentContext) * State) :=
  match ws with
  | [] => []
  | w :: ws' =>
      let call := Agent1Monitor.execute cfg w s in
      call :: detect_calls cfg ws' call.2
  end.

(** The state [_detect_new_flares] leaves when its loop ended in [s1]. *)
Definition after_detect (w : World) (s1 : State) : State :=
  {| seen_flares := seen_flares s1;
     last_check_time := Some (clock w (ticks s1));
     execution_log := execution_log s1; ticks := S (ticks s1) |}.

(** Every stage of the pipeline returns for this context; a stage raises
    for this context. *)
Definition stages_return (cfg : Config) (w : World) (c : AgentContext) : Prop :=
  forall s, exists s', process cfg w c s = (Ok tt, s').
Definition stage_raises (cfg : Config) (w : World) (c : AgentContext) : Prop :=
  forall s, exists e s', process cfg w c s = (Raise e, s').

(** The number of records whose classification code starts with [l]. *)
Definition count_class (l : string) (data : list FlareData) : nat :=
  length (filter (fun r => class_is l r = true) data).

(* ====================================================================== *)
(** ** Concrete inputs *)
(* ====================================================================== *)

(** A record as DONKI sends it. *)
Definition donki_record (id cls : string) (peak : pyval) : FlareData :=
  {| fields :=
       list_to_map
         [ ("flrID", PStr id); ("classType", PStr cls);
           ("sourceLocation", PStr "N17W38");
           ("beginTime", PStr "2024-05-10T06:27Z"); ("peakTime", peak);
           ("endTime", PStr "2024-05-10T07:06Z");
           ("activeRegionNum", PInt 13664) ];
     linkedEvents :=
       Some (LEvents [ {[ "activityID" := PStr "2024-05-10T07:12:00-CME-001" ]} ]) |}.

(** A world whose feed answers [feed], with no Gemini, no Serper, and the
    three channels answering [console], [file] and [smtp]. *)
Definition world_of (feed : fetch_outcome) (console file smtp : bool) : World :=
  {| clock := fun n => 1715324400 + Z.of_nat n;
     strftime := fun _ t => str_of_Z t;
     isoformat := str_of_Z;
     fromisoformat := fun _ => None;
     donki_get := fun _ _ _ => feed;
     gemini_post := fun _ _ _ => None;
     serper_post := fun _ _ => None;
     stdout_write := fun _ => console;
     file_write := fun _ _ => file;
     smtp_send := fun _ _ _ => smtp |}.

(** No optional capability; e-mail configured. *)
Definition plain_config : Config :=
  {| nasa_api_key := "DEMO_KEY"; gemini_api_key := None;
     serper_api_key := None; email_config := None |}.

Definition mail_settings : gmap string pyval :=
  list_to_map
    [ ("sender", PStr "alerts@example.com"); ("password", PStr "app_password");
      ("recipient", PStr "team@example.com"); ("smtp_server", PStr "smtp.gmail.com");
      ("smtp_port", PInt 587) ].

Definition mail_config : Config :=
  {| nasa_api_key := "DEMO_KEY"; gemini_api_key := None;
     serper_api_key := None; email_config := Some mail_settings |}.

(** Two M-class records around a C-class one. *)
Definition example_feed : list FlareData :=
  [ donki_record "FLR-001" "M1.0" (PStr "2024-05-10T06:54Z");
    donki_record "FLR-002" "C3.2" (PStr "2024-05-10T09:12Z");
    donki_record "FLR-003" "M5.3" (PStr "2024-05-10T11:40Z") ].

(** Three significant records, the second with a null peak time. *)
Definition fault_feed : list FlareData :=
  [ donki_record "FLR-001" "M1.0" (PStr "2024-05-10T06:54Z");
    donki_record "FLR-002" "M2.4" PNone;
    donki_record "FLR-003" "X1.1" (PStr "2024-05-10T11:40Z") ].

(** The worlds of these feeds, and one whose feed is unreachable. *)
Definition example_world : World := world_of (Fetched example_feed) true true true.
Definition fault_world : World := world_of (Fetched fault_feed) true true true.
Definition offline_world : World := world_of (FetchRaises RequestException) true true true.

(** A significant record as DONKI sends it when it has no linked event:
    the key is there and its value is null.  A feed of that record. *)
Definition null_links_record : FlareData :=
  {| fields := list_to_map [ ("flrID", PStr "R3"); ("classType", PStr "M1.0") ];
     linkedEvents := Some (LScalar PNone) |}.

Definition null_links_world : World :=
  world_of (Fetched [null_links_record]) true true true.

(** An X-class event whose code has no magnitude, and a context that
    carries it with a report. *)
Definition example_flare : SolarFlare :=
  {| flare_id := PStr "FLR-009"; class_type := "X";
     source_location := PStr "N17W38"; begin_time := PStr "2024-05-10T06:27Z";
     peak_time := PStr "2024-05-10T06:54Z"; end_time := PStr "2024-05-10T07:06Z";
     linked_events := []; active_region_num := PNone |}.

Definition example_context : AgentContext :=
  {| flare := example_flare; analysis_data := None; report := Some "ALERT";
     notification_results := None; timestamp := "2024-05-10T12:00:00" |}.

(* ====================================================================== *)
(** ** [run_cycle] as the specification words it *)
(* ====================================================================== *)

(** The specification puts a boundary around each context and counts the
    contexts that went through; [run_cycle_as_specified] is [run_cycle] with
    that boundary, to be compared with the [run_cycle] of the source. *)

(** One context inside its own boundary: 1 when its stages returned. *)
Definition guarded_process (cfg : Config) (w : World) (context : AgentContext) : M nat :=
  try_except (let* _ := process cfg w context in ret 1%nat) (fun _ => ret O).

Fixpoint guarded_loop (cfg : Config) (w : World) (contexts : list AgentContext) : M nat :=
  match contexts with
  | [] => ret O
  | context :: rest =>
      let* a := guarded_process cfg w context in
      let* b := guarded_loop cfg w rest in
      ret (a + b)%nat
  end.

Definition run_cycle_as_specified (cfg : Config) (w : World) : M nat :=
  let* cycle_start := datetime_now w in
  try_except
    (let* contexts := Agent1Monitor.execute cfg w in
     match contexts with
     | [] => ret O
     | _ =>
         let* processed := guarded_loop cfg w contexts in
         let* cycle_end := datetime_now w in
         ret processed
     end)
    (fun e => ret O).

(** The count and the logged identifiers of the code's cycle are those of
    the specified one. *)
Definition isolates_faults (cfg : Config) (w : World) (s : State) : Prop :=
  (run_cycle cfg w s).1 = (run_cycle_as_specified cfg w s).1 /\
  map log_flare_id (execution_log (run_cycle cfg w s).2)
  = map log_flare_id (execution_log (run_cycle_as_specified cfg w s).2).

(** The cycle example as the specification states it. *)
Definition cycle_example_as_specified (cfg : Config) (w : World) (s : State)
    (filtered_id : pyval) : Prop :=
  let cycle := run_cycle cfg w s in
  cycle.1 = Ok 2%nat /\
  length (execution_log cycle.2) = (length (execution_log s) + 2)%nat /\
  size (seen_flares cycle.2) = (size (seen_flares s) + 3)%nat /\
  filtered_id ∈ seen_flares cycle.2.

(** The call of the Monitor that [run_cycle] makes on [fault_world], and two
    successive calls of the Monitor on [example_world]. *)
Definition fault_monitor_call : result (list AgentContext) * State :=
  Agent1Monitor.execute plain_config fault_world (tick init_state).

Definition first_call : result (list AgentContext) * State :=
  Agent1Monitor.execute plain_config example_world init_state.
Definition second_call : result (list AgentContext) * State :=
  Agent1Monitor.execute plain_config example_world first_call.2.

(* ====================================================================== *)
(** ** The rest of [solar_flare_monitor.py] *)
(* ====================================================================== *)

(** The start-up banner's channel list, the summary, the configuration
    from the environment and the Cloud Run handler.  [run_continuous] runs
    cycles until a [KeyboardInterrupt] arrives from outside and is left
    out; its cycles are those of [cycles] below. *)

(** [int(s)] in base 10, for an ASCII [s]: [None] stands for the
    [ValueError] it raises.  The grammar is that of [float]'s digit parts:
    blanks around, a sign, digits with single underscores between them.
    [max_str_digits] is [sys.get_int_max_str_digits()]: a string with more
    digits than that is refused, and [0] means no limit (as in the
    interpreters before 3.11, which have none). *)
Definition py_int (max_str_digits : nat) (s : string) : option Z :=
  let '(neg, body) := sign (strip (String.list_ascii_of_string s)) in
  match digitpart 0 body with
  | Some (v, digits, []) =>
      if ((0 <? max_str_digits) && (max_str_digits <? digits))%nat then None
      else Some (if neg then - v else v)
  | _ => None
  end.

(** The process the code runs in: [os.environ] and the interpreter's limit
    on the digits of an [int] read from a string. *)
Record Environ : Type := mkEnviron {
  variables : gmap string string;
  int_max_str_digits : nat
}.

Module Reporting.

(** [SolarFlareMonitoringSystem._notification_channels] *)
Definition _notification_channels (cfg : Config) : string :=
  let channels := ["Console"; "File"] in
  let channels := if dict_set (email_config cfg) then channels ++ ["Email"] else channels in
  Py.join ", " channels.

(** The loop of [_print_summary]:
    [by_class[class_type] = by_class.get(class_type, 0) + 1]. *)
Fixpoint count_classes (log : list LogEntry) (by_class : gmap string nat)
  : gmap string nat :=
  match log with
  | [] => by_class
  | entry :: rest =>
      let class_type := log_class entry in
      count_classes rest
        (<[class_type := (default O (by_class !! class_type) + 1)%nat]> by_class)
  end.

(** The order of [sorted(..., reverse=True)] on strings. *)
Definition str_ge (a b : string) : Prop := String.le b a.

#[global] Instance str_ge_dec : RelDecision str_ge.
Proof. intros a b. unfold str_ge. apply _. Defined.

#[global] Instance str_ge_trans : Transitive str_ge.
Proof. intros a b c Hab Hbc. unfold str_ge in *. etrans; eassumption. Qed.

#[global] Instance str_ge_total : Total str_ge.
Proof. intros a b. unfold str_ge. destruct (total String.le a b); auto. Qed.

(** [sorted(by_class.keys(), reverse=True)] *)
Definition sorted_classes (by_class : gmap string nat) : list string :=
  merge_sort str_ge (elements (dom by_class)).

(** The line [_print_summary] prints for a class. *)
Definition class_line (by_class : gmap string nat) (class_type : string) : string :=
  "  " +:+ class_type +:+ ": " +:+ str_of_nat (default O (by_class !! class_type)).

(** [_print_summary]: the lines it prints, one per [print]. *)
Definition _print_summary (s : State) : list string :=
  let log := execution_log s in
  [ nl +:+ rule_eq; "EXECUTION SUMMARY"; rule_eq;
    "Total flares processed: " +:+ str_of_nat (length log) ]
  ++ match log with
     | [] => []
     | _ =>
         let by_class := count_classes log ∅ in
         (nl +:+ "Flares by classification:")
           :: map (class_line by_class) (sorted_classes by_class)
     end
  ++ [ rule_eq +:+ nl ].

End Reporting.

Module DeploymentConfig.

(** [os.getenv(key)] as a Python value. *)
Definition getenv (env : Environ) (key : string) : pyval :=
  match variables env !! key with
  | Some v => PStr v
  | None => PNone
  end.

(** The dictionary under ['email_config'] when [EMAIL_SENDER] is set; the
    [int] of the port can raise. *)
Definition email_from_environment (env : Environ)
  : result (gmap string pyval) :=
  match py_int (int_max_str_digits env) (default "587" (variables env !! "SMTP_PORT")) with
  | Some port =>
      Ok (<["smtp_port" := PInt port]>
            (<["smtp_server" := PStr (default "smtp.gmail.com" (variables env !! "SMTP_SERVER"))]>
               (<["recipient" := getenv env "EMAIL_RECIPIENT"]>
                  (<["password" := getenv env "EMAIL_PASSWORD"]>
                     (<["sender" := getenv env "EMAIL_SENDER"]> ∅)))))
  | None => Raise ValueError
  end.

(** [from_environment] *)
Definition from_environment (env : Environ) : result Config :=
  let nasa := default "DEMO_KEY" (variables env !! "NASA_API_KEY") in
  let gemini := variables env !! "GEMINI_API_KEY" in
  let serper := variables env !! "SERPER_API_KEY" in
  if truthy (getenv env "EMAIL_SENDER") then
    match email_from_environment env with
    | Ok ec =>
        Ok {| nasa_api_key := nasa; gemini_api_key := gemini;
              serper_api_key := serper; email_config := Some ec |}
    | Raise e => Raise e
    end
  else
    Ok {| nasa_api_key := nasa; gemini_api_key := gemini;
          serper_api_key := serper; email_config := None |}.

(** [create_system]: the configuration of the new system; its state is
    [init_state]. *)
Definition create_system (env : Environ) : result Config :=
  from_environment env.

(** What [cloud_run_handler] returns. *)
Record Reply : Type := mkReply {
  status : string;
  flares_processed : nat;
  reply_timestamp : string
}.

(** A new system at the clock of [s]. *)
Definition fresh_system (s : State) : State :=
  {| seen_flares := ∅; last_check_time := None; execution_log := [];
     ticks := ticks s |}.

(** [cloud_run_handler]: it builds a system, runs one cycle on it and
    drops it; the state returned is the one the system ended in. *)
Definition cloud_run_handler (env : Environ) (w : World) : M Reply :=
  fun s =>
    match create_system env with
    | Raise e => (Raise e, s)
    | Ok cfg =>
        (let* flares_processed := SolarFlareMonitoringSystem.run_cycle cfg w in
         let* t := datetime_now w in
         ret {| status := "success"; flares_processed := flares_processed;
                reply_timestamp := isoformat w t |}) (fresh_system s)
    end.

End DeploymentConfig.

(* ====================================================================== *)
(** ** The dashboard server, [app.py] *)
(* ====================================================================== *)

(** The globals of the module are a record that each route takes and
    returns.  The routes that only read or send files and
    [background_monitoring], which only logs, are left out.  Requests are
    taken one at a time. *)

Module App.

(** [system_stats] *)
Record Stats : Type := mkStats {
  agent1_calls : nat;
  agent1_events : nat;
  agent2_analyses : nat;
  agent3_reports : nat;
  agent4_sent : nat;
  total_flares : nat;
  active_alerts : nat;
  last_check : option string;
  status : string
}.

(** An entry of [system_logs]. *)
Record LogLine : Type := mkLogLine {
  line_timestamp : string;
  line_level : string;
  line_message : string
}.

(** An entry of [recent_alerts]. *)
Record Alert : Type := mkAlert {
  alert_id : nat;
  alert_severity : string;
  alert_class : string;
  alert_title : string;
  alert_message : string;
  alert_timestamp : string;
  alert_channels : list string;
  alert_status : string
}.

(** What the interpreter adds to the world: the environment, the text of
    an exception, and the index [random.choice] draws at each call. *)
Record Runtime : Type := mkRuntime {
  environ : Environ;
  str_exn : exn -> string;
  randbelow : nat -> nat -> nat
}.

(** The globals of the module; [system] is the state of
    [monitoring_system] and carries the clock. *)
Record Server : Type := mkServer {
  monitoring_system : option Config;
  system : State;
  system_stats : Stats;
  recent_alerts : list Alert;
  system_logs : list LogLine;
  random_calls : nat
}.

(** The globals when the module is loaded. *)
Definition init_server : Server :=
  {| monitoring_system := None; system := init_state;
     system_stats :=
       {| agent1_calls := 0; agent1_events := 0; agent2_analyses := 0;
          agent3_reports := 0; agent4_sent := 0; total_flares := 0;
          active_alerts := 0; last_check := None; status := "initialized" |};
     recent_alerts := []; system_logs := []; random_calls := 0 |}.

Definition with_system (a : Server) (s : State) : Server :=
  {| monitoring_system := monitoring_system a; system := s;
     system_stats := system_stats a; recent_alerts := recent_alerts a;
     system_logs := system_logs a; random_calls := random_calls a |}.

Definition with_stats (a : Server) (st : Stats) : Server :=
  {| monitoring_system := monitoring_system a; system := system a;
     system_stats := st; recent_alerts := recent_alerts a;
     system_logs := system_logs a; random_calls := random_calls a |}.

(** [system_stats['status'] = v] *)
Definition set_status (v : string) (a : Server) : Server :=
  let st := system_stats a in
  with_stats a
    {| agent1_calls := agent1_calls st; agent1_events := agent1_events st;
       agent2_analyses := agent2_analyses st; agent3_reports := agent3_reports st;
       agent4_sent := agent4_sent st; total_flares := total_flares st;
       active_alerts := active_alerts st; last_check := last_check st;
       status := v |}.

(** [l.insert(0, x)] followed by [if len(l) > cap: l.pop()]. *)
Definition push_capped {A} (cap : nat) (x : A) (l : list A) : list A :=
  let l := x :: l in
  if (cap <? length l)%nat then removelast l else l.

(** [log_message] *)
Definition log_message (w : World) (message level : string) (a : Server) : Server :=
  let s := system a in
  let log_entry :=
    {| line_timestamp := isoformat w (clock w (ticks s));
       line_level := level; line_message := message |} in
  {| monitoring_system := monitoring_system a; system := tick s;
     system_stats := system_stats a; recent_alerts := recent_alerts a;
     system_logs := push_capped 100 log_entry (system_logs a);
     random_calls := random_calls a |}.

(** [init_system] *)
Definition init_system (w : World) (rt : Runtime) (a : Server) : bool * Server :=
  match DeploymentConfig.create_system (environ rt) with
  | Ok cfg =>
      let a :=
        {| monitoring_system := Some cfg;
           system := DeploymentConfig.fresh_system (system a);
           system_stats := system_stats a; recent_alerts := recent_alerts a;
           system_logs := system_logs a; random_calls := random_calls a |} in
      let a := log_message w "System initialized successfully" "success" a in
      (true, set_status "active" a)
  | Raise e =>
      let a := log_message w ("Failed to initialize system: " +:+ str_exn rt e) "error" a in
      (false, set_status "error" a)
  end.

Definition classes : list string := ["M1.5"; "M2.3"; "M4.7"; "X1.2"].

(** [random.choice(classes)] *)
Definition random_choice (rt : Runtime) (a : Server) : string :=
  default "" (classes !! (randbelow rt (random_calls a) (length classes) mod length classes)%nat).

(** [add_alert]; its argument is not used. *)
Definition add_alert (w : World) (rt : Runtime) (flare_num : nat) (a : Server) : Server :=
  let flare_class := random_choice rt a in
  let severity := if startswith flare_class "X" then "critical" else "warning" in
  let s := system a in
  let alert :=
    {| alert_id := length (recent_alerts a) + 1;
       alert_severity := severity;
       alert_class := flare_class;
       alert_title := flare_class +:+ " Solar Flare Detected";
       alert_message :=
         "A " +:+ flare_class +:+ " class solar flare was detected. "
         +:+ "AI analysis indicates "
         +:+ (if String.eqb severity "critical" then "severe" else "moderate") +:+ " "
         +:+ "space weather activity with potential impacts on radio "
         +:+ "communications and satellite operations.";
       alert_timestamp := isoformat w (clock w (ticks s));
       alert_channels := ["console"; "file"; "email"];
       alert_status := "processed" |} in
  {| monitoring_system := monitoring_system a; system := tick s;
     system_stats := system_stats a;
     recent_alerts := push_capped 50 alert (recent_alerts a);
     system_logs := system_logs a;
     random_calls := S (random_calls a) |}.

(** [for i in range(flares_detected): add_alert(i + 1)] *)
Fixpoint add_alerts (w : World) (rt : Runtime) (i n : nat) (a : Server) : Server :=
  match n with
  | O => a
  | S n' => add_alerts w rt (S i) n' (add_alert w rt (i + 1) a)
  end.

(** What a route answers: the body and the status code. *)
Inductive Response : Type :=
| StatusBody (stats : Stats) (time : string)
| AlertsBody (alerts : list Alert) (count : nat)
| LogsBody (logs : list LogLine) (count : nat)
| RunCycleBody (flares_detected : nat) (stats : Stats)
| FetchBody (total significant : nat) (data : list FlareData)
| ErrorBody (error : string) (code : nat).

(** [system_stats['agent1_calls'] += 1] *)
Definition count_call (a : Server) : Server :=
  let st := system_stats a in
  with_stats a
    {| agent1_calls := agent1_calls st + 1; agent1_events := agent1_events st;
       agent2_analyses := agent2_analyses st; agent3_reports := agent3_reports st;
       agent4_sent := agent4_sent st; total_flares := total_flares st;
       active_alerts := active_alerts st; last_check := last_check st;
       status := status st |}.

(** [system_stats['last_check'] = datetime.now().isoformat()] *)
Definition set_last_check (w : World) (a : Server) : Server :=
  let st := system_stats a in
  let s := system a in
  with_system
    (with_stats a
       {| agent1_calls := agent1_calls st; agent1_events := agent1_events st;
          agent2_analyses := agent2_analyses st; agent3_reports := agent3_reports st;
          agent4_sent := agent4_sent st; total_flares := total_flares st;
          active_alerts := active_alerts st;
          last_check := Some (isoformat w (clock w (ticks s)));
          status := status st |})
    (tick s).

(** The six [+= flares_detected] of the route. *)
Definition count_flares (n : nat) (a : Server) : Server :=
  let st := system_stats a in
  with_stats a
    {| agent1_calls := agent1_calls st;
       agent1_events := agent1_events st + n;
       agent2_analyses := agent2_analyses st + n;
       agent3_reports := agent3_reports st + n;
       agent4_sent := agent4_sent st + n;
       total_flares := total_flares st + n;
       active_alerts := active_alerts st + n;
       last_check := last_check st; status := status st |}.

(** [run_cycle], the route. *)
Definition run_cycle (w : World) (rt : Runtime) (a : Server) : Response * Server :=
  match monitoring_system a with
  | None =>
      let a := log_message w "System not initialized" "error" a in
      (ErrorBody "System not initialized" 500, a)
  | Some cfg =>
      let a := log_message w "Starting manual monitoring cycle" "info" a in
      let a := set_status "running" a in
      match SolarFlareMonitoringSystem.run_cycle cfg w (system a) with
      | (Ok flares_detected, s) =>
          let a := with_system a s in
          let a := count_call a in
          let a := set_last_check w a in
          let a :=
            if (0 <? flares_detected)%nat then
              let a := count_flares flares_detected a in
              let a := add_alerts w rt 0 flares_detected a in
              log_message w
                ("Cycle complete: " +:+ str_of_nat flares_detected +:+ " flare(s) processed")
                "success" a
            else log_message w "Cycle complete: No new flares detected" "info" a in
          let a := set_status "active" a in
          (RunCycleBody flares_detected (system_stats a), a)
      | (Raise e, s) =>
          let a := with_system a s in
          let a := log_message w ("Error in monitoring cycle: " +:+ str_exn rt e) "error" a in
          let a := set_status "error" a in
          (ErrorBody (str_exn rt e) 500, a)
      end
  end.

(** [monitor.fetch_recent_flares]: [Agent1Monitor] and [BaseAgent] define
    [_fetch_recent_flares] and no [fetch_recent_flares], so looking the
    attribute up raises before anything is fetched. *)
Definition fetch_recent_flares (monitor : Config) : result (list FlareData) :=
  Raise AttributeError.

(** [f.get('classType', '').startswith(('M', 'X'))] *)
Definition is_significant (f : FlareData) : result bool :=
  match Agent1Monitor.str_receiver (dict_get_default (fields f) "classType" (PStr "")) with
  | Ok c => Ok (startswith c "M" || startswith c "X")
  | Raise e => Raise e
  end.

(** [[f for f in flares if ...]] *)
Fixpoint significant_flares (flares : list FlareData) : result (list FlareData) :=
  match flares with
  | [] => Ok []
  | f :: rest =>
      match is_significant f with
      | Raise e => Raise e
      | Ok b =>
          match significant_flares rest with
          | Raise e => Raise e
          | Ok l => Ok (if b then f :: l else l)
          end
      end
  end.

(** [system_stats['total_flares'] = n] *)
Definition set_total_flares (n : nat) (a : Server) : Server :=
  let st := system_stats a in
  with_stats a
    {| agent1_calls := agent1_calls st; agent1_events := agent1_events st;
       agent2_analyses := agent2_analyses st; agent3_reports := agent3_reports st;
       agent4_sent := agent4_sent st; total_flares := n;
       active_alerts := active_alerts st; last_check := last_check st;
       status := status st |}.

(** [fetch_data] *)
Definition fetch_data (w : World) (rt : Runtime) (a : Server) : Response * Server :=
  let a := log_message w "Fetching recent data from NASA DONKI" "info" a in
  let monitor :=
    {| nasa_api_key := default "DEMO_KEY" (variables (environ rt) !! "NASA_API_KEY");
       gemini_api_key := None; serper_api_key := None; email_config := None |} in
  let failed e (a : Server) :=
    let a := log_message w ("Error fetching data: " +:+ str_exn rt e) "error" a in
    (ErrorBody (str_exn rt e) 500, a) in
  match fetch_recent_flares monitor with
  | Raise e => failed e a
  | Ok flares =>
      match significant_flares flares with
      | Raise e => failed e a
      | Ok significant =>
          let a := set_total_flares (length flares) a in
          let a :=
            log_message w
              ("Retrieved " +:+ str_of_nat (length flares) +:+ " total flares, "
               +:+ str_of_nat (length significant) +:+ " significant") "success" a in
          (FetchBody (length flares) (length significant) (take 10 flares), a)
      end
  end.

(** [get_status], [get_alerts], [get_logs] *)
Definition get_status (w : World) (a : Server) : Response * Server :=
  (StatusBody (system_stats a) (isoformat w (clock w (ticks (system a)))),
   with_system a (tick (system a))).
Definition get_alerts (a : Server) : Response * Server :=
  (AlertsBody (take 20 (recent_alerts a)) (length (recent_alerts a)), a).
Definition get_logs (a : Server) : Response * Server :=
  (LogsBody (take 50 (system_logs a)) (length (system_logs a)), a).

(** A request to one of these routes, and the server answering it. *)
Inductive Request : Type :=
| GetStatus | GetAlerts | GetLogs | PostRunCycle | PostFetchData.

Definition handle (w : World) (rt : Runtime) (req : Request) (a : Server)
  : Response * Server :=
  match req with
  | GetStatus => get_status w a
  | GetAlerts => get_alerts a
  | GetLogs => get_logs a
  | PostRunCycle => run_cycle w rt a
  | PostFetchData => fetch_data w rt a
  end.

(** The server after a sequence of requests, each in its own world. *)
Fixpoint serve (rt : Runtime) (reqs : list (World * Request)) (a : Server) : Server :=
  match reqs with
  | [] => a
  | (w, req) :: rest => serve rt rest (handle w rt req a).2
  end.

End App.

(* ====================================================================== *)
(** ** Vocabulary of the further properties *)
(* ====================================================================== *)

(** A context as the Monitor hands it over: nothing filled in yet. *)
Definition blank (c : AgentContext) : Prop :=
  analysis_data c = None /\ report c = None /\ notification_results c = None.

(** The state after successive cycles, one world per cycle. *)
Fixpoint cycles (cfg : Config) (ws : list World) (s : State) : State :=
  match ws with
  | [] => s
  | w :: ws => cycles cfg ws (run_cycle cfg w s).2
  end.

(** The identifiers of the events in the log. *)
Definition logged_ids (s : State) : list pyval := map log_flare_id (execution_log s).

(** A record the Monitor cannot read: its classification code is not a
    string, or the code is significant and the linked events cannot be
    listed. *)
Definition unreadable (r : FlareData) : Prop :=
  (forall c, rec_class r <> PStr c) \/
  (exists c e, rec_class r = PStr c /\ leading_MX c = true /\
               Agent1Monitor.linked_event_ids r = Raise e).

(** The log holds no identifier twice, and only events that are in the
    seen-set and have a significant code. *)
Definition log_consistent (s : State) : Prop :=
  NoDup (logged_ids s) /\
  Forall (fun e => log_flare_id e ∈ seen_flares s /\ leading_MX (log_class e) = true)
    (execution_log s).

(** The keys of the outcome map the Notifier builds under [cfg]. *)
Definition configured_channels (cfg : Config) : gset string :=
  if dict_set (email_config cfg) then {[ "console"; "file"; "email" ]}
  else {[ "console"; "file" ]}.

(** Every pipeline entry of the log carries the outcomes of the configured
    channels. *)
Definition log_notified (cfg : Config) (s : State) : Prop :=
  Forall (fun e => exists m, log_notifications e = Some m /\
                             dom m = configured_channels cfg) (execution_log s).

(** A number written digit by digit: the character of a digit, the text of
    a list of digits, and its value read after [acc]. *)
Definition digit_char (d : nat) : ascii := ascii_of_nat (48 + d).
Definition digits_text (ds : list nat) : list ascii := map digit_char ds.
Definition digits_value (acc : Z) (ds : list nat) : Z :=
  fold_left (fun acc d => 10 * acc + Z.of_nat d) ds acc.
Definition are_digits (ds : list nat) : Prop := Forall (fun d => (d < 10)%nat) ds.

(** The classification code [l a.b]: a letter, an integer part and a
    fraction, as in [M5.3]. *)
Definition decimal_class (l : ascii) (a b : list nat) : string :=
  String l (String.string_of_list_ascii (digits_text a ++ "."%char :: digits_text b)).

(** The number of log entries with classification code [c]. *)
Definition class_count (c : string) (log : list LogEntry) : nat :=
  length (filter (fun e => log_class e = c) log).

(** The dashboard as it starts: [init_system] has run in world [w0] when
    the module is run as a program, and has not when it is only imported. *)
Definition boot (rt : App.Runtime) (main : option World) : App.Server :=
  match main with
  | Some w0 => (App.init_system w0 rt App.init_server).2
  | None => App.init_server
  end.

(** The answers to a sequence of requests. *)
Fixpoint answers (rt : App.Runtime) (reqs : list (World * App.Request))
    (a : App.Server) : list App.Response :=
  match reqs with
  | [] => []
  | (w, req) :: rest =>
      (App.handle w rt req a).1 :: answers rt rest (App.handle w rt req a).2
  end.

(** The six counters the route [run_cycle] adds the same number to. *)
Definition flare_counters (st : App.Stats) : list nat :=
  [ App.agent1_events st; App.agent2_analyses st; App.agent3_reports st;
    App.agent4_sent st; App.total_flares st; App.active_alerts st ].

(** An alert as [add_alert] builds it. *)
Definition simulated (al : App.Alert) : Prop :=
  App.alert_class al ∈ App.classes /\
  App.alert_severity al
  = (if decide (App.alert_class al = "X1.2") then "critical" else "warning") /\
  App.alert_channels al = ["console"; "file"; "email"] /\
  App.alert_status al = "processed" /\
  (1 <= App.alert_id al <= 51)%nat.

(** What the dashboard keeps between requests: the bounds of its two
    lists, the six counters equal, every alert simulated, and no cycle
    counted while there is no system. *)
Record server_invariant (a : App.Server) : Prop := mk_server_invariant {
  inv_logs : (length (App.system_logs a) <= 100)%nat;
  inv_alerts : length (App.recent_alerts a)
               = Nat.min 50 (App.total_flares (App.system_stats a));
  inv_counters : Forall (fun n => n = App.total_flares (App.system_stats a))
                   (flare_counters (App.system_stats a));
  inv_simulated : Forall simulated (App.recent_alerts a);
  inv_idle : App.monitoring_system a = None ->
             App.total_flares (App.system_stats a) = O /\
             App.agent1_calls (App.system_stats a) = O
}.

(* ====================================================================== *)
(** ** Further concrete inputs *)
(* ====================================================================== *)

(** A record whose classification code is null, and a feed that has it
    between two significant records. *)
Definition null_class_record : FlareData :=
  {| fields := list_to_map [ ("flrID", PStr "FLR-002"); ("classType", PNone) ];
     linkedEvents := None |}.

Definition unreadable_feed : list FlareData :=
  [ donki_record "FLR-001" "M1.0" (PStr "2024-05-10T06:54Z");
    null_class_record;
    donki_record "FLR-003" "X1.1" (PStr "2024-05-10T11:40Z") ].

Definition unreadable_world : World := world_of (Fetched unreadable_feed) true true true.

(** A Gemini key with which every call fails in the worlds above. *)
Definition gemini_config : Config :=
  {| nasa_api_key := "DEMO_KEY"; gemini_api_key := Some "key";
     serper_api_key := None; email_config := None |}.

(** The event of [example_flare] with the code [M5.3]. *)
Definition m53_flare : SolarFlare :=
  with_class example_flare (decimal_class "M" [5%nat] [3%nat]).

(** Environments: nothing set; e-mail set with a port; e-mail set with a
    port that is no number. *)
Definition plain_environ : Environ :=
  {| variables := ∅; int_max_str_digits := 4300 |}.

Definition mail_environ : Environ :=
  {| variables :=
       list_to_map
         [ ("EMAIL_SENDER", "alerts@example.com"); ("EMAIL_PASSWORD", "app_password");
           ("EMAIL_RECIPIENT", "team@example.com"); ("SMTP_PORT", "2525") ];
     int_max_str_digits := 4300 |}.

Definition broken_environ : Environ :=
  {| variables :=
       list_to_map [ ("EMAIL_SENDER", "alerts@example.com"); ("SMTP_PORT", "smtp") ];
     int_max_str_digits := 4300 |}.

(** An interpreter in environment [env] whose [random.choice] goes round
    the list. *)
Definition runtime_of (env : Environ) : App.Runtime :=
  {| App.environ := env;
     App.str_exn := fun e =>
       match e with
       | AttributeError => "'Agent1Monitor' object has no attribute 'fetch_recent_flares'"
       | ValueError => "invalid literal for int() with base 10: 'smtp'"
       | _ => ""
       end;
     App.randbelow := fun i _ => i |}.

(** The configuration [mail_environ] gives. *)
Definition environ_mail_config : Config :=
  match DeploymentConfig.from_environment mail_environ with
  | Ok cfg => cfg
  | Raise _ => plain_config
  end.

(* ====================================================================== *)
(** ** Properties *)
(* ====================================================================== *)

#[local] Set Warnings "-clear-no-such-hyp".

(* ---------------------------------------------------------------------- *)
(** *** Leading letters and the severity level *)

Lemma startswith_char (c : string) (l : ascii) :
  startswith c (String l "") = match first_char c with Some x => Ascii.eqb l x | None => false end.
Proof.
  destruct c as [|x c]; simpl; [reflexivity|].
  unfold startswith. simpl.
  destruct (ascii_dec l x) as [->|Hne].
  - rewrite Ascii.eqb_refl. destruct c; reflexivity.
  - apply Ascii.eqb_neq in Hne. rewrite Hne. reflexivity.
Qed.

Lemma leading_MX_startswith (c : string) :
  leading_MX c = startswith c "M" || startswith c "X".
Proof.
  unfold leading_MX. rewrite !startswith_char.
  destruct (first_char c) as [x|]; [|reflexivity].
  rewrite (Ascii.eqb_sym x "M"), (Ascii.eqb_sym x "X"). reflexivity.
Qed.

Lemma startswith_first (c : string) (l : ascii) :
  startswith c (String l "") = true <-> first_char c = Some l.
Proof.
  rewrite startswith_char. destruct (first_char c) as [x|]; [|split; discriminate].
  rewrite Ascii.eqb_eq. split; congruence.
Qed.

(** C5.  The severity level of an event record is the rank of the leading
    letter of its classification code and of nothing else: 3 for [X], 2 for
    [M], 1 for [C], 0 for any other letter and for the empty code; so it
    increases strictly from a C-class to an M-class to an X-class code. *)
Theorem severity_level_by_leading_letter :
  (forall f : SolarFlare,
     severity_level f = letter_rank (first_char (class_type f))) /\
  (forall (f : SolarFlare) (c : ascii) (rest : string),
     severity_level (with_class f (String c rest))
     = if decide (c = "X"%char) then 3
       else if decide (c = "M"%char) then 2
       else if decide (c = "C"%char) then 1
       else 0) /\
  (forall f : SolarFlare, severity_level (with_class f "") = 0) /\
  (forall (f : SolarFlare) (restC restM restX : string),
     severity_level (with_class f (String "C" restC))
     < severity_level (with_class f (String "M" restM))
     < severity_level (with_class f (String "X" restX))).
Proof.
  assert (H : forall f, severity_level f = letter_rank (first_char (class_type f))).
  { intros f. unfold severity_level, letter_rank.
    rewrite !startswith_char.
    destruct (first_char (class_type f)) as [x|]; [|reflexivity].
    rewrite !(Ascii.eqb_sym x). reflexivity. }
  split; [exact H|]. split; [|split].
  - intros f c rest. rewrite H. cbn.
    destruct (Ascii.eqb_spec c "X") as [->|HX]; [reflexivity|].
    destruct (decide (c = "X"%char)); [contradiction|].
    destruct (Ascii.eqb_spec c "M") as [->|HM]; [reflexivity|].
    destruct (decide (c = "M"%char)); [contradiction|].
    destruct (Ascii.eqb_spec c "C") as [->|HC]; [reflexivity|].
    destruct (decide (c = "C"%char)); [contradiction|]. reflexivity.
  - intros f. rewrite H. reflexivity.
  - intros f restC restM restX. rewrite !H. cbn. lia.
Qed.

(* ---------------------------------------------------------------------- *)
(** *** States and strings *)

Lemma same_memory_refl s : same_memory s s.
Proof. repeat split. Qed.

Lemma same_memory_trans s1 s2 s3 :
  same_memory s1 s2 -> same_memory s2 s3 -> same_memory s1 s3.
Proof. unfold same_memory. intros (-> & -> & ->) (-> & -> & ->). repeat split. Qed.

Lemma same_memory_tick s : same_memory s (tick s).
Proof. repeat split. Qed.

Lemma datetime_now_eq w s : datetime_now w s = (Ok (clock w (ticks s)), tick s).
Proof. reflexivity. Qed.

Lemma append_nonempty_l (a b : string) : a <> "" -> a +:+ b <> "".
Proof. destruct a; [congruence|]. intros _. discriminate. Qed.

(* ---------------------------------------------------------------------- *)
(** *** The three stages and the loop of [run_cycle] *)

Section Pipeline.

Variable cfg : Config.
Variable w : World.

(** The Analysis stage returns when the peak time can be sliced, and
    raises [TypeError] when it cannot. *)
Lemma analyst_execute_ok ctx s p :
  peak_time (flare ctx) = PStr p ->
  exists a,
    Agent2Analyst.execute cfg w ctx s = (Ok (set_analysis_data ctx a), tick s) /\
    gemini_analysis a = Agent2Analyst._analyze_with_gemini cfg w (flare ctx) (search_results a) /\
    severity_assessment a = Agent2Analyst._assess_severity (flare ctx) /\
    potential_impacts a = Agent2Analyst._determine_impacts (flare ctx) /\
    affected_regions a = Agent2Analyst._determine_regions (flare ctx) /\
    (key_set (serper_api_key cfg) = false ->
     search_results a
     = SearchFallback ("solar flare " +:+ class_type (flare ctx) +:+ " " +:+ take_str 10 p)).
Proof.
  intros Hp. unfold Agent2Analyst.execute, Agent2Analyst._search_flare_context.
  rewrite Hp. cbn [Agent2Analyst.slice_10 lift].
  unfold bind, ret, key_set.
  destruct (serper_api_key cfg) as [key|]; cbn.
  - destruct (negb (String.eqb key "")); [destruct (serper_post w key _)|];
      eexists; (split; [reflexivity|]); cbn; repeat split; auto; discriminate.
  - eexists; (split; [reflexivity|]); cbn; auto.
Qed.

Lemma analyst_execute_raise ctx s :
  (forall p, peak_time (flare ctx) <> PStr p) ->
  Agent2Analyst.execute cfg w ctx s = (Raise TypeError, s).
Proof.
  intros Hp. unfold Agent2Analyst.execute, Agent2Analyst._search_flare_context.
  destruct (peak_time (flare ctx)) as [| |p]; try reflexivity.
  exfalso. apply (Hp p). reflexivity.
Qed.

Lemma analyst_execute_cases ctx s :
  (exists a, Agent2Analyst.execute cfg w ctx s = (Ok (set_analysis_data ctx a), tick s))
  \/ Agent2Analyst.execute cfg w ctx s = (Raise TypeError, s).
Proof.
  destruct (peak_time (flare ctx)) as [| |p] eqn:E.
  - right. apply analyst_execute_raise. congruence.
  - right. apply analyst_execute_raise. congruence.
  - left. destruct (analyst_execute_ok ctx s p E) as (a & H & _). eauto.
Qed.

(** The Report stage always returns, with a text that is not empty. *)
Lemma template_report_ok ctx s :
  exists r, Agent3ReportWriter._generate_template_report w ctx s = (Ok r, tick s) /\ r <> "".
Proof.
  unfold Agent3ReportWriter._generate_template_report, bind, ret.
  rewrite datetime_now_eq. eexists. split; [reflexivity|].
  destruct (linked_events (flare ctx)); discriminate.
Qed.

Lemma writer_execute_ok ctx s :
  exists r, Agent3ReportWriter.execute cfg w ctx s = (Ok (set_report ctx r), tick s) /\ r <> "".
Proof.
  unfold Agent3ReportWriter.execute, bind.
  assert (Ht := template_report_ok ctx s).
  destruct Ht as (r & Hr & Hne).
  destruct (analysis_data ctx) as [a|]; [destruct (key_set (gemini_api_key cfg))|].
  - unfold Agent3ReportWriter._generate_gemini_report.
    destruct (String.eqb_spec (BaseAgent.call_gemini cfg w (Agent3ReportWriter.report_prompt (flare ctx) a) (FDec 4 (-1))) "") as [E|E];
      cbn [negb].
    + rewrite Hr. eauto.
    + unfold bind, ret. rewrite datetime_now_eq. eexists. split; [reflexivity|].
      apply append_nonempty_l. exact E.
  - rewrite Hr. eauto.
  - rewrite Hr. eauto.
Qed.

(** The Distribution stage always returns; with a report and e-mail
    configured it records the three channels. *)
Lemma save_to_file_eq report fl s :
  Agent4Notifier._save_to_file w report fl s = (Ok (file_outcome w report fl s), tick s).
Proof. reflexivity. Qed.

Lemma notifier_execute_cases ctx s :
  Agent4Notifier.execute cfg w ctx s = (Ok ctx, s)
  \/ exists m, Agent4Notifier.execute cfg w ctx s
               = (Ok (set_notification_results ctx m), tick s).
Proof.
  unfold Agent4Notifier.execute.
  destruct (report ctx) as [r|]; [|left; reflexivity].
  destruct (String.eqb r ""); [left; reflexivity|].
  right. unfold bind. rewrite save_to_file_eq. eexists. reflexivity.
Qed.

Lemma notifier_execute_three ctx s r ec :
  report ctx = Some r -> r <> "" ->
  email_config cfg = Some ec -> ec <> ∅ ->
  Agent4Notifier.execute cfg w ctx s
  = (Ok (set_notification_results ctx
           (<["email" := Agent4Notifier._send_email w ec r (flare ctx)]>
              (<["file" := file_outcome w r (flare ctx) s]>
                 (<["console" := Agent4Notifier._notify_console w r]> ∅)))),
     tick s).
Proof.
  intros Hr Hne Hec Hnempty. unfold Agent4Notifier.execute.
  rewrite Hr. apply String.eqb_neq in Hne. rewrite Hne.
  unfold bind. rewrite save_to_file_eq. rewrite Hec.
  unfold dict_set. rewrite bool_decide_eq_false_2 by exact Hnempty.
  reflexivity.
Qed.

Lemma count_false_three (c f e : bool) :
  count_false (<["email" := e]> (<["file" := f]> (<["console" := c]> ∅)))
  = length (filter (fun b => b = false) [c; f; e]).
Proof. destruct c, f, e; vm_compute; reflexivity. Qed.

(** One context through the three stages: either they all return and the
    log gains its summary, or the Analysis stage raises and nothing
    changes. *)
Lemma process_cases ctx s :
  (exists e s', process cfg w ctx s = (Ok tt, s') /\
      seen_flares s' = seen_flares s /\ last_check_time s' = last_check_time s /\
      execution_log s' = execution_log s ++ [e] /\ summarises e ctx)
  \/ (process cfg w ctx s = (Raise TypeError, s)
      /\ forall p, peak_time (flare ctx) <> PStr p).
Proof.
  unfold process, bind.
  destruct (peak_time (flare ctx)) as [| |p] eqn:Ep.
  1,2: right; rewrite analyst_execute_raise by (rewrite Ep; congruence);
       split; [reflexivity | congruence].
  left. destruct (analyst_execute_ok ctx s p Ep) as (a & -> & _).
  destruct (writer_execute_ok (set_analysis_data ctx a) (tick s)) as (r & -> & _).
  destruct (notifier_execute_cases (set_report (set_analysis_data ctx a) r)
              (tick (tick s))) as [-> | [m ->]];
    eexists; eexists; (split; [reflexivity|]); repeat split.
Qed.

Lemma process_ok_iff ctx s :
  (exists s', process cfg w ctx s = (Ok tt, s')) <-> exists p, peak_time (flare ctx) = PStr p.
Proof.
  destruct (process_cases ctx s) as [(e & s' & H & _) | [H Hp]].
  - split; [|eauto]. intros _.
    destruct (peak_time (flare ctx)) as [| |p] eqn:Ep; eauto;
      unfold process, bind in H; rewrite analyst_execute_raise in H
        by (rewrite Ep; congruence); discriminate.
  - split.
    + intros [s' H']. congruence.
    + intros [p Hp']. exfalso. exact (Hp p Hp').
Qed.

Lemma for_each_app {A} (l1 l2 : list A) (body : A -> M unit) s :
  for_each (l1 ++ l2) body s
  = match for_each l1 body s with
    | (Ok _, s') => for_each l2 body s'
    | (Raise e, s') => (Raise e, s')
    end.
Proof.
  revert s. induction l1 as [|x l1 IH]; intros s; [reflexivity|].
  cbn [for_each app]. unfold bind.
  destruct (body x s) as [[[]|e] s1]; [apply IH | reflexivity].
Qed.

(** Contexts whose stages all return are processed in order, one log
    entry each. *)
Lemma for_each_process_ok (ctxs : list AgentContext) s :
  Forall (fun c => exists p, peak_time (flare c) = PStr p) ctxs ->
  exists new s',
    for_each ctxs (process cfg w) s = (Ok tt, s') /\
    seen_flares s' = seen_flares s /\ last_check_time s' = last_check_time s /\
    execution_log s' = execution_log s ++ new /\
    Forall2 summarises new ctxs.
Proof.
  intros H. revert s. induction H as [|c ctxs [p Hp] _ IH]; intros s.
  - exists [], s. rewrite app_nil_r. repeat split. constructor.
  - cbn [for_each]. unfold bind.
    destruct (process_cases c s) as [(e & s1 & -> & Hs & Hl & Hlog & Hsum) | [_ Hbad]];
      [|exfalso; exact (Hbad p Hp)].
    destruct (IH s1) as (new & s' & -> & Hs' & Hl' & Hlog' & Hall).
    exists (e :: new), s'. split; [reflexivity|].
    rewrite Hs', Hl', Hlog', Hs, Hl, Hlog, <- app_assoc. repeat split.
    constructor; assumption.
Qed.

(** The loop stops at the first context whose stage raises. *)
Lemma for_each_process_stop (pre post : list AgentContext) bad s :
  Forall (fun c => exists p, peak_time (flare c) = PStr p) pre ->
  (forall p, peak_time (flare bad) <> PStr p) ->
  exists new s',
    for_each (pre ++ bad :: post) (process cfg w) s = (Raise TypeError, s') /\
    seen_flares s' = seen_flares s /\ last_check_time s' = last_check_time s /\
    execution_log s' = execution_log s ++ new /\
    Forall2 summarises new pre.
Proof.
  intros Hpre Hbad.
  destruct (for_each_process_ok pre s Hpre) as (new & s' & Hrun & Hs & Hl & Hlog & Hall).
  exists new, s'. rewrite for_each_app, Hrun. cbn [for_each]. unfold bind.
  destruct (process_cases bad s') as [(e & s1 & H & _) | [-> _]].
  - exfalso.
    assert (Hex : exists s1, process cfg w bad s' = (Ok tt, s1)) by (exists s1; exact H).
    apply process_ok_iff in Hex. destruct Hex as [p Hp]. exact (Hbad p Hp).
  - repeat split; assumption.
Qed.

End Pipeline.

(* ---------------------------------------------------------------------- *)
(** *** The Monitor *)

Lemma detect_one_eq acc r s :
  Agent1Monitor.detect_one acc r s =
  if bool_decide (rec_id r ∈ seen_flares s) then (Ok acc, s)
  else
    match rec_class r with
    | PStr c =>
        if leading_MX c then
          match Agent1Monitor.linked_event_ids r with
          | Ok _ => (Ok (acc ++ [flare_of r]), with_seen s ({[rec_id r]} ∪ seen_flares s))
          | Raise e => (Raise e, s)
          end
        else (Ok acc, s)
    | _ => (Raise AttributeError, s)
    end.
Proof.
  unfold Agent1Monitor.detect_one, bind, get_state, ret.
  fold (rec_id r). fold (rec_class r).
  destruct (bool_decide (rec_id r ∈ seen_flares s)); [reflexivity|].
  unfold flare_of.
  destruct (rec_class r) as [| |c]; try reflexivity.
  cbn [Agent1Monitor.str_receiver lift ret]. rewrite leading_MX_startswith.
  destruct (startswith c "M" || startswith c "X"); [|reflexivity].
  destruct (Agent1Monitor.linked_event_ids r); reflexivity.
Qed.

(** What one record can do to the state and to the list of new flares. *)
Lemma detect_one_inv acc r s out s' :
  Agent1Monitor.detect_one acc r s = (out, s') ->
  seen_flares s ⊆ seen_flares s' /\
  last_check_time s' = last_check_time s /\
  execution_log s' = execution_log s /\ ticks s' = ticks s /\
  (forall I, I ∈ seen_flares s' ->
     I ∈ seen_flares s \/
     (rec_id r = I /\ exists c, rec_class r = PStr c /\ leading_MX c = true)) /\
  (forall fl, out = Ok fl ->
     fl = acc \/
     (exists f, fl = acc ++ [f] /\ (flare_id f ∉ seen_flares s) /\
                (flare_id f ∈ seen_flares s') /\ leading_MX (class_type f) = true)).
Proof.
  rewrite detect_one_eq.
  destruct (bool_decide (rec_id r ∈ seen_flares s)) eqn:Hseen.
  { intros [= <- <-]. repeat split; auto. intros fl [= <-]. auto. }
  apply bool_decide_eq_false in Hseen.
  destruct (rec_class r) as [| |c] eqn:Hc.
  1,2: intros [= <- <-]; repeat split; auto; intros fl [=].
  destruct (leading_MX c) eqn:HMX.
  2: { intros [= <- <-]. repeat split; auto. intros fl [= <-]. auto. }
  destruct (Agent1Monitor.linked_event_ids r) as [links|e].
  2: { intros [= <- <-]. repeat split; auto. intros fl [=]. }
  intros [= <- <-]. cbn. repeat split.
  - set_solver.
  - intros I HI. apply elem_of_union in HI as [HI|HI]; [|auto].
    apply elem_of_singleton in HI. right. split; [auto|]. exists c. auto.
  - intros fl [= <-]. right. exists (flare_of r). cbn. rewrite Hc. cbn.
    repeat split; [exact Hseen | set_solver | exact HMX].
Qed.

Lemma detect_loop_inv data : forall acc s out s',
  Agent1Monitor.detect_loop acc data s = (out, s') ->
  seen_flares s ⊆ seen_flares s' /\
  last_check_time s' = last_check_time s /\
  execution_log s' = execution_log s /\ ticks s' = ticks s /\
  (forall I, I ∈ seen_flares s' ->
     I ∈ seen_flares s \/
     exists r c, r ∈ data /\ rec_id r = I /\ rec_class r = PStr c /\ leading_MX c = true) /\
  (forall fl, out = Ok fl ->
     exists new, fl = acc ++ new /\
       Forall (fun f => (flare_id f ∉ seen_flares s) /\ (flare_id f ∈ seen_flares s') /\
                        leading_MX (class_type f) = true) new).
Proof.
  induction data as [|r data IH]; intros acc s out s'.
  - intros [= <- <-]. repeat split; auto.
    intros fl [= <-]. exists []. rewrite app_nil_r. split; [reflexivity | constructor].
  - cbn [Agent1Monitor.detect_loop]. unfold bind.
    destruct (Agent1Monitor.detect_one acc r s) as [[acc1|e] s1] eqn:H1.
    + intros H2.
      apply detect_one_inv in H1 as (Hsub1 & Hl1 & Hlog1 & Ht1 & Hnew1 & Hout1).
      apply IH in H2 as (Hsub2 & Hl2 & Hlog2 & Ht2 & Hnew2 & Hout2).
      repeat split; try congruence.
      * set_solver.
      * intros I HI. destruct (Hnew2 I HI) as [HI1 | (r' & c & Hin & ? & ? & ?)].
        -- destruct (Hnew1 I HI1) as [? | (? & c & ? & ?)]; [auto|].
           right. exists r, c. repeat split; auto. left.
        -- right. exists r', c. repeat split; auto. right. exact Hin.
      * intros fl ->. destruct (Hout2 fl eq_refl) as (new2 & -> & Hall2).
        destruct (Hout1 acc1 eq_refl) as [-> | (f & -> & Hf1 & Hf2 & Hf3)].
        -- exists new2. split; [reflexivity|].
           eapply Forall_impl; [exact Hall2|]. cbn. intros f (? & ? & ?).
           repeat split; auto; set_solver.
        -- exists (f :: new2). rewrite <- app_assoc. split; [reflexivity|].
           constructor; [repeat split; auto|].
           eapply Forall_impl; [exact Hall2|]. cbn. intros f' (? & ? & ?).
           repeat split; auto; set_solver.
    + intros [= <- <-].
      apply detect_one_inv in H1 as (Hsub1 & Hl1 & Hlog1 & Ht1 & Hnew1 & Hout1).
      repeat split; auto; [|intros fl [=]].
      intros I HI. destruct (Hnew1 I HI) as [? | (? & c & ? & ?)]; [auto|].
      right. exists r, c. repeat split; auto. left.
Qed.

Lemma filter_ext_elem {A} (P Q : A -> Prop) `{!forall x, Decision (P x)}
    `{!forall x, Decision (Q x)} (l : list A) :
  (forall x, x ∈ l -> P x <-> Q x) -> filter P l = filter Q l.
Proof.
  induction l as [|x l IH]; intros Hext; [reflexivity|].
  rewrite !filter_cons.
  assert (Hx : P x <-> Q x) by (apply Hext; left).
  rewrite IH by (intros y Hy; apply Hext; right; exact Hy).
  destruct (decide (P x)), (decide (Q x)); tauto.
Qed.

Lemma with_seen_id s : with_seen s (seen_flares s) = s.
Proof. destruct s; reflexivity. Qed.

Lemma readable_class r : readable r -> exists c, rec_class r = PStr c.
Proof. intros [H _]. exact H. Qed.

Lemma readable_links r : readable r -> exists l, Agent1Monitor.linked_event_ids r = Ok l.
Proof.
  intros [_ [H | [l H]]]; unfold Agent1Monitor.linked_event_ids; rewrite H; eauto.
Qed.

Lemma emits_iff seen r c :
  rec_class r = PStr c ->
  emits seen r <-> leading_MX c = true /\ rec_id r ∉ seen.
Proof.
  intros Hc. unfold emits, class_is. rewrite Hc, leading_MX_startswith. tauto.
Qed.

(** On readable records with distinct identifiers the loop is a filter. *)
Lemma detect_loop_exact data : forall acc s,
  Forall readable data -> NoDup (map rec_id data) ->
  Agent1Monitor.detect_loop acc data s
  = (Ok (acc ++ map flare_of (filter (emits (seen_flares s)) data)),
     with_seen s (list_to_set (map rec_id (filter (emits (seen_flares s)) data))
                  ∪ seen_flares s)).
Proof.
  induction data as [|r data IH]; intros acc s Hread Hnd.
  - cbn. rewrite app_nil_r, (left_id_L ∅ (∪)), with_seen_id. reflexivity.
  - apply Forall_cons in Hread as [Hr Hread].
    cbn [map] in Hnd. apply NoDup_cons in Hnd as [Hfresh Hnd].
    destruct (readable_class r Hr) as [c Hc].
    destruct (readable_links r Hr) as [links Hlinks].
    cbn [Agent1Monitor.detect_loop]. unfold bind. rewrite detect_one_eq, Hc, Hlinks.
    rewrite filter_cons.
    destruct (bool_decide (rec_id r ∈ seen_flares s)) eqn:Hseen.
    { apply bool_decide_eq_true in Hseen.
      destruct (decide (emits (seen_flares s) r)) as [[_ Hn]|_]; [contradiction|].
      apply IH; assumption. }
    apply bool_decide_eq_false in Hseen.
    destruct (leading_MX c) eqn:HMX.
    2: { destruct (decide (emits (seen_flares s) r)) as [He|_].
         - apply (emits_iff _ _ _ Hc) in He as [He _]. congruence.
         - apply IH; assumption. }
    destruct (decide (emits (seen_flares s) r)) as [_|Hn].
    2: { exfalso. apply Hn. apply (emits_iff _ _ _ Hc). auto. }
    rewrite IH by assumption. cbn [seen_flares with_seen].
    assert (Hf : filter (emits ({[rec_id r]} ∪ seen_flares s)) data
                 = filter (emits (seen_flares s)) data).
    { apply filter_ext_elem. intros x Hx. unfold emits.
      assert (rec_id x <> rec_id r).
      { intros E. apply Hfresh. rewrite <- E. apply list_elem_of_fmap_2. exact Hx. }
      set_solver. }
    rewrite Hf. cbn [map list_to_set]. rewrite <- app_assoc. cbn [app].
    f_equal. unfold with_seen. cbn. f_equal. set_solver.
Qed.

Lemma map_M_new_context w (fls : list SolarFlare) : forall s,
  exists ctxs s',
    map_M (new_context w) fls s = (Ok ctxs, s') /\ same_memory s s' /\
    map flare ctxs = fls /\
    Forall (fun c => analysis_data c = None /\ report c = None /\
                     notification_results c = None) ctxs.
Proof.
  induction fls as [|f fls IH]; intros s.
  - exists [], s. repeat split; constructor.
  - cbn [map_M]. unfold bind at 1. unfold new_context at 1. unfold bind at 1.
    rewrite datetime_now_eq. cbn [ret].
    destruct (IH (tick s)) as (ctxs & s' & H & Hmem & Hfl & Hall).
    unfold bind. rewrite H. eexists _, s'. split; [reflexivity|].
    split; [exact (same_memory_trans _ _ _ (same_memory_tick s) Hmem)|].
    split; [cbn; rewrite Hfl; reflexivity|].
    constructor; [repeat split | exact Hall].
Qed.

Lemma fetch_feed_returns cfg w data s :
  feed_returns w data ->
  Agent1Monitor._fetch_recent_flares cfg w 7 s = (Ok data, tick s).
Proof.
  intros H. unfold Agent1Monitor._fetch_recent_flares, bind, try_except.
  rewrite datetime_now_eq, H. reflexivity.
Qed.

Lemma fetch_feed_fails cfg w s :
  feed_fails w ->
  Agent1Monitor._fetch_recent_flares cfg w 7 s = (Ok [], tick s).
Proof.
  intros H. unfold Agent1Monitor._fetch_recent_flares, bind, try_except.
  rewrite datetime_now_eq, H. reflexivity.
Qed.

(** The fetch only reads the clock, whatever the feed does. *)
Lemma fetch_cases cfg w s :
  exists out, Agent1Monitor._fetch_recent_flares cfg w 7 s = (out, tick s).
Proof.
  unfold Agent1Monitor._fetch_recent_flares, bind, try_except.
  rewrite datetime_now_eq.
  destruct (donki_get w _ _ _) as [data|e]; cbn; [eauto|].
  destruct (decide (e = RequestException)); cbn; eauto.
Qed.

Lemma detect_new_flares_eq w data s :
  Agent1Monitor._detect_new_flares w data s
  = match Agent1Monitor.detect_loop [] data s with
    | (Ok fl, s1) =>
        (Ok fl, {| seen_flares := seen_flares s1;
                   last_check_time := Some (clock w (ticks s1));
                   execution_log := execution_log s1; ticks := S (ticks s1) |})
    | (Raise e, s1) => (Raise e, s1)
    end.
Proof.
  unfold Agent1Monitor._detect_new_flares, bind.
  destruct (Agent1Monitor.detect_loop [] data s) as [[fl|e] s1]; reflexivity.
Qed.

(** [execute] in three steps: the fetch, the loop, the contexts. *)
Lemma execute_unfold cfg w s :
  exists fetched,
    Agent1Monitor._fetch_recent_flares cfg w 7 s = (fetched, tick s) /\
    match fetched with
    | Raise e => Agent1Monitor.execute cfg w s = (Raise e, tick s)
    | Ok data =>
        match Agent1Monitor.detect_loop [] data (tick s) with
        | (Raise e, s1) => Agent1Monitor.execute cfg w s = (Raise e, s1)
        | (Ok fl, s1) =>
            exists ctxs s3,
              Agent1Monitor.execute cfg w s = (Ok ctxs, s3) /\
              map flare ctxs = fl /\ same_memory (after_detect w s1) s3
        end
    end.
Proof.
  destruct (fetch_cases cfg w s) as [fetched Hf]. exists fetched.
  split; [exact Hf|].
  unfold Agent1Monitor.execute, bind. rewrite Hf.
  destruct fetched as [data|e]; [|reflexivity].
  rewrite detect_new_flares_eq.
  destruct (Agent1Monitor.detect_loop [] data (tick s)) as [[fl|e] s1]; [|reflexivity].
  fold (after_detect w s1).
  destruct fl as [|f fl].
  - exists [], (after_detect w s1). repeat split.
  - destruct (map_M_new_context w (f :: fl) (after_detect w s1))
      as (ctxs & s3 & H & Hmem & Hfl & _).
    exists ctxs, s3. auto.
Qed.

(** What a call of the Monitor can do, whatever the feed holds. *)
Lemma execute_inv cfg w s out s' :
  Agent1Monitor.execute cfg w s = (out, s') ->
  seen_flares s ⊆ seen_flares s' /\
  execution_log s' = execution_log s /\
  (forall I, I ∈ seen_flares s' -> I ∉ seen_flares s ->
     exists data r c,
       Agent1Monitor._fetch_recent_flares cfg w 7 s = (Ok data, tick s) /\
       r ∈ data /\ rec_id r = I /\ rec_class r = PStr c /\ leading_MX c = true) /\
  (forall ctxs, out = Ok ctxs ->
     Forall (fun c => (ctx_id c ∉ seen_flares s) /\ (ctx_id c ∈ seen_flares s') /\
                      leading_MX (class_type (flare c)) = true) ctxs).
Proof.
  destruct (execute_unfold cfg w s) as ([data|e] & Hf & H).
  2: { rewrite H. intros [= <- <-]. repeat split; auto; [tauto|]. intros ctxs [=]. }
  destruct (Agent1Monitor.detect_loop [] data (tick s)) as [[fl|e] s1] eqn:Hloop;
    apply detect_loop_inv in Hloop as (Hsub & _ & Hlog & _ & Hnew & Hout).
  - destruct H as (ctxs & s3 & -> & Hfl & (Hs3 & _ & Hlog3)).
    intros [= <- <-]. cbn in Hs3, Hlog3, Hsub, Hlog, Hnew, Hout.
    rewrite Hs3, Hlog3. repeat split; auto.
    + intros I HI HnI. destruct (Hnew I HI) as [? | (r & c & ? & ? & ? & ?)]; [tauto|].
      exists data, r, c. auto.
    + intros ? [= <-]. destruct (Hout fl eq_refl) as (new & Hnew' & Hall).
      cbn [app] in Hnew'. subst new. subst fl.
      apply Forall_fmap in Hall. exact Hall.
  - rewrite H. intros [= <- <-]. cbn in Hsub, Hlog, Hnew. repeat split; auto.
    + intros I HI HnI. destruct (Hnew I HI) as [? | (r & c & ? & ? & ? & ?)]; [tauto|].
      exists data, r, c. auto.
    + intros ctxs [=].
Qed.

(** On a readable feed with distinct identifiers the call is a filter. *)
Lemma execute_exact cfg w s data :
  feed_returns w data -> Forall readable data -> NoDup (map rec_id data) ->
  exists ctxs s',
    Agent1Monitor.execute cfg w s = (Ok ctxs, s') /\
    map flare ctxs = map flare_of (filter (emits (seen_flares s)) data) /\
    seen_flares s'
      = list_to_set (map rec_id (filter (emits (seen_flares s)) data)) ∪ seen_flares s /\
    execution_log s' = execution_log s /\
    last_check_time s' = Some (clock w (S (ticks s))).
Proof.
  intros Hfeed Hread Hnd.
  destruct (execute_unfold cfg w s) as (fetched & Hf & H).
  rewrite (fetch_feed_returns cfg w data s Hfeed) in Hf. injection Hf as <-.
  rewrite (detect_loop_exact data [] (tick s) Hread Hnd) in H.
  destruct H as (ctxs & s3 & -> & Hfl & (Hs3 & Hl3 & Hlog3)).
  exists ctxs, s3. split; [reflexivity|]. cbn in Hfl, Hs3, Hl3, Hlog3. auto.
Qed.

Lemma NoDup_map_inj {A B} (f : A -> B) (l : list A) x y :
  NoDup (map f l) -> x ∈ l -> y ∈ l -> f x = f y -> x = y.
Proof.
  induction l as [|a l IH]; intros Hnd Hx Hy Hxy; [inversion Hx|].
  cbn [map] in Hnd. apply NoDup_cons in Hnd as [Ha Hnd].
  apply elem_of_cons in Hx as [->|Hx]; apply elem_of_cons in Hy as [->|Hy]; auto.
  - exfalso. apply Ha. rewrite Hxy. apply list_elem_of_fmap_2. exact Hy.
  - exfalso. apply Ha. rewrite <- Hxy. apply list_elem_of_fmap_2. exact Hx.
Qed.

(** On a feed of readable records with distinct identifiers, the
    Monitor emits a context for a record whose identifier it has not seen
    if and only if the leading letter of the record's classification code
    is [M] or [X]; every context it emits carries such a code, so a code
    that starts with [A], [B], [C] or anything else is never emitted. *)
Theorem monitor_emits_iff_leading_M_or_X cfg w s data r c :
  feed_returns w data -> Forall readable data -> NoDup (map rec_id data) ->
  r ∈ data -> rec_class r = PStr c -> rec_id r ∉ seen_flares s ->
  exists ctxs s',
    Agent1Monitor.execute cfg w s = (Ok ctxs, s') /\
    ((exists ctx, ctx ∈ ctxs /\ ctx_id ctx = rec_id r) <-> leading_MX c = true) /\
    (leading_MX c = true -> exists ctx, ctx ∈ ctxs /\ flare ctx = flare_of r) /\
    Forall (fun ctx => leading_MX (class_type (flare ctx)) = true) ctxs.
Proof.
  intros Hfeed Hread Hnd Hr Hc Hunseen.
  destruct (execute_exact cfg w s data Hfeed Hread Hnd)
    as (ctxs & s' & Hexec & Hfl & _).
  exists ctxs, s'. split; [exact Hexec|].
  assert (Hemit : leading_MX c = true -> exists ctx, ctx ∈ ctxs /\ flare ctx = flare_of r).
  { intros HMX.
    assert (Hin : flare_of r ∈ map flare ctxs).
    { rewrite Hfl. apply list_elem_of_fmap_2. apply list_elem_of_filter.
      split; [|exact Hr]. apply (emits_iff _ _ _ Hc). auto. }
    apply list_elem_of_fmap in Hin as (ctx & Heq & Hin). eauto. }
  split; [split|split]; [| |exact Hemit|].
  - intros (ctx & Hin & Hid).
    assert (Hin' : flare ctx ∈ map flare_of (filter (emits (seen_flares s)) data)).
    { rewrite <- Hfl. apply list_elem_of_fmap_2. exact Hin. }
    apply list_elem_of_fmap in Hin' as (r' & Heq & Hr').
    apply list_elem_of_filter in Hr' as [Hemits Hr'].
    assert (r' = r) as ->.
    { apply (NoDup_map_inj rec_id data); auto.
      unfold ctx_id in Hid. rewrite Heq in Hid. exact Hid. }
    apply (emits_iff _ _ _ Hc) in Hemits. tauto.
  - intros HMX. destruct (Hemit HMX) as (ctx & Hin & Heq).
    exists ctx. split; [exact Hin|]. unfold ctx_id. rewrite Heq. reflexivity.
  - apply execute_inv in Hexec as (_ & _ & _ & Hall).
    eapply Forall_impl; [exact (Hall ctxs eq_refl)|]. cbn. tauto.
Qed.

(** C9.  When the fetch fails with a transport error, the Monitor returns
    the empty sequence and raises nothing, and it still sets the last-check
    time, to the reading of the clock it makes at the end of the call; the
    seen-set and the execution log are untouched. *)
Theorem monitor_fails_soft cfg w s :
  feed_fails w ->
  exists s',
    Agent1Monitor.execute cfg w s = (Ok [], s') /\
    last_check_time s' = Some (clock w (S (ticks s))) /\
    seen_flares s' = seen_flares s /\
    execution_log s' = execution_log s.
Proof.
  intros Hfail. unfold Agent1Monitor.execute, bind.
  rewrite (fetch_feed_fails cfg w s Hfail), detect_new_flares_eq. cbn.
  eexists. split; [reflexivity|]. repeat split.
Qed.

(** Along a sequence of calls the seen-set grows, and a call emits only
    identifiers that were not seen before it. *)
Lemma detect_calls_inv cfg ws : forall s j out sj,
  detect_calls cfg ws s !! j = Some (out, sj) ->
  seen_flares s ⊆ seen_flares sj /\
  (forall I, I ∈ emitted_ids out -> (I ∉ seen_flares s) /\ I ∈ seen_flares sj).
Proof.
  induction ws as [|w ws IH]; intros s j out sj Hj; [discriminate|].
  cbn [detect_calls] in Hj.
  destruct (Agent1Monitor.execute cfg w s) as [out0 s0] eqn:Hexec.
  apply execute_inv in Hexec as (Hsub & _ & _ & Hout).
  destruct j as [|j]; cbn in Hj.
  - injection Hj as <- <-. split; [exact Hsub|].
    intros I HI. destruct out0 as [ctxs|e]; cbn in HI; [|inversion HI].
    apply list_elem_of_fmap in HI as (ctx & -> & Hin).
    specialize (Hout ctxs eq_refl). rewrite Forall_forall in Hout.
    destruct (Hout ctx Hin) as (? & ? & _). auto.
  - apply IH in Hj as [Hsub' Hem]. split; [etrans; eassumption|].
    intros I HI. destruct (Hem I HI) as [Hn Hy]. split; [|exact Hy].
    intros HIs. apply Hn. apply Hsub. exact HIs.
Qed.

(** Along a sequence of calls, an identifier that entered the seen-set is
    that of a significant record fetched by one of the calls. *)
Lemma detect_calls_provenance cfg ws : forall s j out sj,
  detect_calls cfg ws s !! j = Some (out, sj) ->
  forall I, I ∈ seen_flares sj -> I ∉ seen_flares s ->
    exists w s0 data r c,
      w ∈ ws /\
      Agent1Monitor._fetch_recent_flares cfg w 7 s0 = (Ok data, tick s0) /\
      r ∈ data /\ rec_id r = I /\ rec_class r = PStr c /\ leading_MX c = true.
Proof.
  induction ws as [|w ws IH]; intros s j out sj Hj I HI HnI; [discriminate|].
  cbn [detect_calls] in Hj.
  destruct (Agent1Monitor.execute cfg w s) as [out0 s0] eqn:Hexec.
  apply execute_inv in Hexec as (_ & _ & Hnew & _).
  assert (Hfirst : I ∈ seen_flares s0 ->
            exists w' s' data r c,
              w' ∈ w :: ws /\
              Agent1Monitor._fetch_recent_flares cfg w' 7 s' = (Ok data, tick s') /\
              r ∈ data /\ rec_id r = I /\ rec_class r = PStr c /\ leading_MX c = true).
  { intros HI0. destruct (Hnew I HI0 HnI) as (data & r & c & ? & ? & ? & ? & ?).
    exists w, s, data, r, c. repeat split; auto. left. }
  destruct j as [|j]; cbn in Hj.
  - injection Hj as <- <-. auto.
  - destruct (decide (I ∈ seen_flares s0)) as [HI0|HnI0]; [auto|].
    destruct (IH s0 j out sj Hj I HI HnI0) as (w' & s' & data & r & c & Hw & ? & ? & ? & ? & ?).
    exists w', s', data, r, c. repeat split; auto. right. exact Hw.
Qed.

(** C10.  Along every sequence of calls of the Monitor, every identifier
    that entered the seen-set is the identifier of a fetched record whose
    classification code starts with [M] or [X].  So an identifier that only
    records failing the significance filter carry is never added to the
    seen-set, and is never emitted: each call finds it unseen and drops it
    again. *)
Theorem seen_set_holds_significant_only cfg ws s j out sj :
  detect_calls cfg ws s !! j = Some (out, sj) ->
  (forall I, I ∈ seen_flares sj -> I ∉ seen_flares s ->
     exists w s0 data r c,
       w ∈ ws /\
       Agent1Monitor._fetch_recent_flares cfg w 7 s0 = (Ok data, tick s0) /\
       r ∈ data /\ rec_id r = I /\ rec_class r = PStr c /\ leading_MX c = true) /\
  (forall I,
     I ∉ seen_flares s ->
     (forall w s0 data r c,
        w ∈ ws ->
        Agent1Monitor._fetch_recent_flares cfg w 7 s0 = (Ok data, tick s0) ->
        r ∈ data -> rec_id r = I -> rec_class r = PStr c -> leading_MX c = false) ->
     (I ∉ seen_flares sj) /\ I ∉ emitted_ids out).
Proof.
  intros Hj. split; [exact (detect_calls_provenance cfg ws s j out sj Hj)|].
  intros I HnI Hfilter.
  assert (Hnot : I ∉ seen_flares sj).
  { intros HI.
    destruct (detect_calls_provenance cfg ws s j out sj Hj I HI HnI)
      as (w & s0 & data & r & c & Hw & Hf & Hr & Hid & Hc & HMX).
    rewrite (Hfilter w s0 data r c Hw Hf Hr Hid Hc) in HMX. discriminate. }
  split; [exact Hnot|].
  intros Hem. apply (detect_calls_inv cfg ws s j out sj Hj) in Hem as [_ Hin].
  contradiction.
Qed.

(** C4.  Along every sequence of calls of the Monitor, whatever the feeds
    hold, the seen-set only grows, and an identifier that one call emitted
    is in the seen-set from then on and is emitted by no later call; nor is
    an identifier that was in the seen-set at the start. *)
Theorem monitor_never_emits_twice cfg ws s i j oi si oj sj :
  (i < j)%nat ->
  detect_calls cfg ws s !! i = Some (oi, si) ->
  detect_calls cfg ws s !! j = Some (oj, sj) ->
  seen_flares s ⊆ seen_flares si /\ seen_flares si ⊆ seen_flares sj /\
  (forall I, I ∈ emitted_ids oi -> (I ∈ seen_flares si) /\ I ∉ emitted_ids oj) /\
  (forall I, I ∈ seen_flares s -> (I ∉ emitted_ids oi) /\ I ∉ emitted_ids oj).
Proof.
  revert s i j. induction ws as [|w ws IH]; intros s i j Hij Hi Hj; [discriminate|].
  destruct j as [|j]; [lia|].
  assert (Hs_i := detect_calls_inv cfg (w :: ws) s i oi si Hi).
  assert (Hs_j := detect_calls_inv cfg (w :: ws) s (S j) oj sj Hj).
  cbn [detect_calls] in Hi, Hj. cbn in Hj.
  destruct i as [|i]; cbn in Hi.
  - injection Hi as Hexec.
    assert (Hcall : (Agent1Monitor.execute cfg w s).2 = si) by (rewrite Hexec; reflexivity).
    rewrite Hcall in Hj.
    destruct (detect_calls_inv cfg ws si j oj sj Hj) as [Hsub Hem].
    destruct Hs_i as [Hsi Hemi]. destruct Hs_j as [_ Hemj].
    repeat split; auto.
    + apply Hemi. assumption.
    + intros HIj. apply Hem in HIj as [Hn _]. apply Hn. apply Hemi. assumption.
    + intros HIi. apply Hemi in HIi as [Hn _]. contradiction.
    + intros HIj. apply Hemj in HIj as [Hn _]. contradiction.
  - destruct (IH (Agent1Monitor.execute cfg w s).2 i j ltac:(lia) Hi Hj)
      as (_ & Hsub & Hem & _).
    destruct Hs_i as [Hsi Hemi]. destruct Hs_j as [_ Hemj].
    repeat split; auto.
    + apply Hem. assumption.
    + apply Hem. assumption.
    + intros HIi. apply Hemi in HIi as [Hn _]. contradiction.
    + intros HIj. apply Hemj in HIj as [Hn _]. contradiction.
Qed.

(* ---------------------------------------------------------------------- *)
(** *** The orchestrator *)

Lemma stages_return_str cfg w c :
  stages_return cfg w c -> exists p, peak_time (flare c) = PStr p.
Proof. intros H. apply (process_ok_iff cfg w c init_state). apply H. Qed.

Lemma stage_raises_not_str cfg w c :
  stage_raises cfg w c -> forall p, peak_time (flare c) <> PStr p.
Proof.
  intros H p Hp. destruct (H init_state) as (e & s' & He).
  assert (Hok : exists s', process cfg w c init_state = (Ok tt, s'))
    by (apply process_ok_iff; eauto).
  destruct Hok as [s'' Hok]. congruence.
Qed.

Lemma run_cycle_unfold cfg w s :
  run_cycle cfg w s =
  match Agent1Monitor.execute cfg w (tick s) with
  | (Raise _, s1) => (Ok O, s1)
  | (Ok [], s1) => (Ok O, s1)
  | (Ok ctxs, s1) =>
      match for_each ctxs (process cfg w) s1 with
      | (Ok _, s2) => (Ok (length ctxs), tick s2)
      | (Raise _, s2) => (Ok O, s2)
      end
  end.
Proof.
  unfold run_cycle, bind, try_except. rewrite datetime_now_eq.
  destruct (Agent1Monitor.execute cfg w (tick s)) as [[[|c ctxs]|e] s1]; try reflexivity.
  destruct (for_each (c :: ctxs) (process cfg w) s1) as [[[]|e] s2]; reflexivity.
Qed.

Lemma for_each_log cfg w ctxs : forall s out s',
  for_each ctxs (process cfg w) s = (out, s') ->
  exists new, execution_log s' = execution_log s ++ new.
Proof.
  induction ctxs as [|c ctxs IH]; intros s out s'.
  - intros [= <- <-]. exists []. rewrite app_nil_r. reflexivity.
  - cbn [for_each]. unfold bind.
    destruct (process_cases cfg w c s) as [(e & s1 & -> & _ & _ & Hlog & _) | [-> _]].
    + intros H. apply IH in H as [new ->]. exists (e :: new).
      rewrite Hlog, <- app_assoc. reflexivity.
    + intros [= <- <-]. exists []. rewrite app_nil_r. reflexivity.
Qed.

(** [run_cycle] never raises, and only appends to the log. *)
Lemma run_cycle_never_raises cfg w s :
  exists n s' new,
    run_cycle cfg w s = (Ok n, s') /\ execution_log s' = execution_log s ++ new.
Proof.
  rewrite run_cycle_unfold.
  destruct (Agent1Monitor.execute cfg w (tick s)) as [out s1] eqn:Hexec.
  apply execute_inv in Hexec as (_ & Hlog & _). cbn in Hlog.
  destruct out as [[|c ctxs]|e].
  1,3: exists O, s1, []; rewrite app_nil_r; auto.
  destruct (for_each (c :: ctxs) (process cfg w) s1) as [[[]|e] s2] eqn:Hloop;
    apply for_each_log in Hloop as [new Hnew]; rewrite Hlog in Hnew; eauto.
Qed.

(** C1, amended.  [run_cycle] never raises.  When the Monitor raises, the
    execution log is unchanged.  Otherwise the contexts are processed in
    order up to the first one for which a stage raises: the contexts before
    it each get one summary in the execution log, in order, and the failing
    context and those after it get none.  When no stage raises, every
    context is summarised and the count returned is the number of
    contexts. *)
Theorem run_cycle_stops_at_first_fault cfg w s out s1 :
  Agent1Monitor.execute cfg w (tick s) = (out, s1) ->
  exists n s',
    run_cycle cfg w s = (Ok n, s') /\
    match out with
    | Raise _ => execution_log s' = execution_log s
    | Ok ctxs =>
        forall pre rest,
          ctxs = pre ++ rest ->
          Forall (stages_return cfg w) pre ->
          rest = [] \/ (exists bad post, rest = bad :: post /\ stage_raises cfg w bad) ->
          exists new,
            execution_log s' = execution_log s ++ new /\
            Forall2 summarises new pre /\
            (rest = [] -> n = length ctxs)
    end.
Proof.
  intros Hexec. rewrite run_cycle_unfold, Hexec.
  apply execute_inv in Hexec as (_ & Hlog & _). cbn in Hlog.
  destruct out as [ctxs|e]; [|eauto].
  destruct ctxs as [|c ctxs].
  { exists O, s1. split; [reflexivity|]. intros pre rest Hsplit _ _.
    symmetry in Hsplit. apply app_eq_nil in Hsplit as [-> ->].
    exists []. rewrite app_nil_r. repeat split; auto. }
  destruct (for_each (c :: ctxs) (process cfg w) s1) as [[[]|e] s2] eqn:Hloop.
  - exists (length (c :: ctxs)), (tick s2). split; [reflexivity|].
    intros pre rest Hsplit Hpre Hrest.
    assert (Hpre' : Forall (fun c => exists p, peak_time (flare c) = PStr p) pre).
    { eapply Forall_impl; [exact Hpre|]. apply stages_return_str. }
    destruct Hrest as [-> | (bad & post & -> & Hbad)].
    + rewrite app_nil_r in Hsplit. subst pre.
      destruct (for_each_process_ok cfg w (c :: ctxs) s1 Hpre')
        as (new & s2' & Hrun & _ & _ & Hnew & Hall).
      rewrite Hloop in Hrun. injection Hrun as <-.
      exists new. cbn [execution_log tick]. rewrite Hnew, Hlog. auto.
    + exfalso. rewrite Hsplit in Hloop.
      destruct (for_each_process_stop cfg w pre post bad s1 Hpre'
                  (stage_raises_not_str cfg w bad Hbad)) as (? & ? & Hrun & _).
      congruence.
  - exists O, s2. split; [reflexivity|].
    intros pre rest Hsplit Hpre Hrest.
    assert (Hpre' : Forall (fun c => exists p, peak_time (flare c) = PStr p) pre).
    { eapply Forall_impl; [exact Hpre|]. apply stages_return_str. }
    destruct Hrest as [-> | (bad & post & -> & Hbad)].
    + exfalso. rewrite app_nil_r in Hsplit. subst pre.
      destruct (for_each_process_ok cfg w (c :: ctxs) s1 Hpre') as (? & ? & Hrun & _).
      congruence.
    + rewrite Hsplit in Hloop.
      destruct (for_each_process_stop cfg w pre post bad s1 Hpre'
                  (stage_raises_not_str cfg w bad Hbad))
        as (new & s2' & Hrun & _ & _ & Hnew & Hall).
      rewrite Hloop in Hrun. injection Hrun as _ <-.
      exists new. rewrite Hnew, Hlog. repeat split; auto. discriminate.
Qed.

(** A fault in a stage makes the cycle return 0, whatever was processed. *)
Lemma run_cycle_fault_returns_0 cfg w s pre bad post s1 :
  Agent1Monitor.execute cfg w (tick s) = (Ok (pre ++ bad :: post), s1) ->
  Forall (stages_return cfg w) pre -> stage_raises cfg w bad ->
  exists s', run_cycle cfg w s = (Ok O, s').
Proof.
  intros Hexec Hpre Hbad. rewrite run_cycle_unfold, Hexec.
  assert (Hpre' : Forall (fun c => exists p, peak_time (flare c) = PStr p) pre).
  { eapply Forall_impl; [exact Hpre|]. apply stages_return_str. }
  destruct (for_each_process_stop cfg w pre post bad s1 Hpre'
              (stage_raises_not_str cfg w bad Hbad)) as (new & s2 & Hrun & _).
  rewrite Hrun. destruct (pre ++ bad :: post); eauto.
Qed.

(* ---------------------------------------------------------------------- *)
(** *** A cycle on well-typed records *)

Lemma NoDup_map_filter {A B} (f : A -> B) (P : A -> Prop)
    `{!forall x, Decision (P x)} (l : list A) :
  NoDup (map f l) -> NoDup (map f (filter P l)).
Proof.
  induction l as [|x l IH]; intros Hnd; [constructor|].
  cbn [map] in Hnd. apply NoDup_cons in Hnd as [Hx Hnd].
  rewrite filter_cons. destruct (decide (P x)); [|auto].
  cbn [map]. apply NoDup_cons. split; [|auto].
  intros Hin. apply Hx. apply list_elem_of_fmap in Hin as (y & -> & Hy).
  apply list_elem_of_filter in Hy as [_ Hy]. apply list_elem_of_fmap_2. exact Hy.
Qed.

Lemma filter_partition_all {A} (P Q : A -> Prop) `{!forall x, Decision (P x)}
    `{!forall x, Decision (Q x)} (l : list A) :
  (forall x, P x -> Q x -> False) ->
  (length (filter P l) + length (filter Q l) <= length l)%nat /\
  ((length (filter P l) + length (filter Q l))%nat = length l ->
   Forall (fun x => P x \/ Q x) l).
Proof.
  intros Hdisj. induction l as [|x l [IHle IHall]].
  - cbn. split; [lia | constructor].
  - rewrite !filter_cons. cbn [length].
    destruct (decide (P x)) as [HP|HP], (decide (Q x)) as [HQ|HQ]; cbn [length].
    + exfalso. eauto.
    + split; [lia|]. intros Hsum. constructor; [auto | apply IHall; lia].
    + split; [lia|]. intros Hsum. constructor; [auto | apply IHall; lia].
    + split; [lia|]. intros Hsum. lia.
Qed.

Lemma startswith_M_not_C c : startswith c "M" = true -> startswith c "C" = true -> False.
Proof. rewrite !startswith_char. destruct (first_char c) as [x|]; [|discriminate].
  rewrite !Ascii.eqb_eq. intros <-. discriminate. Qed.

Lemma startswith_C_not_MX c : startswith c "C" = true -> leading_MX c = false.
Proof.
  rewrite leading_MX_startswith, !startswith_char.
  destruct (first_char c) as [x|]; [|discriminate].
  rewrite Ascii.eqb_eq. intros <-. reflexivity.
Qed.

Lemma class_is_M_not_C r : class_is "M" r = true -> class_is "C" r = true -> False.
Proof. unfold class_is. destruct (rec_class r); try discriminate. apply startswith_M_not_C. Qed.

Lemma summaries_of_records (new : list LogEntry) (ctxs : list AgentContext) :
  forall em : list FlareData,
  Forall2 summarises new ctxs -> map flare ctxs = map flare_of em ->
  Forall2 (fun e r => log_flare_id e = rec_id r /\ log_class e = py_str (rec_class r))
    new em.
Proof.
  intros em Hall. revert em.
  induction Hall as [|e c new ctxs (_ & Hid & Hcl) _ IH]; intros em Hfl.
  - destruct em; [constructor | discriminate].
  - destruct em as [|r em]; [discriminate|]. cbn [map] in Hfl.
    injection Hfl as Hc Hfl. constructor; [|apply IH, Hfl].
    rewrite Hid, Hcl, Hc. split; reflexivity.
Qed.

(** A whole cycle on well-typed records with distinct identifiers. *)
Lemma run_cycle_well_typed cfg w s data :
  feed_returns w data -> Forall well_typed data -> NoDup (map rec_id data) ->
  exists s' new,
    run_cycle cfg w s = (Ok (length (filter (emits (seen_flares s)) data)), s') /\
    execution_log s' = execution_log s ++ new /\
    Forall2 (fun e r => log_flare_id e = rec_id r /\ log_class e = py_str (rec_class r))
      new (filter (emits (seen_flares s)) data) /\
    seen_flares s'
      = list_to_set (map rec_id (filter (emits (seen_flares s)) data)) ∪ seen_flares s.
Proof.
  intros Hfeed Htyped Hnd.
  assert (Hread : Forall readable data).
  { eapply Forall_impl; [exact Htyped|]. intros r [H _]. exact H. }
  destruct (execute_exact cfg w (tick s) data Hfeed Hread Hnd)
    as (ctxs & s1 & Hexec & Hfl & Hseen & Hlog & _).
  cbn [seen_flares execution_log tick] in Hfl, Hseen, Hlog.
  set (em := filter (emits (seen_flares s)) data) in *.
  assert (Hok : Forall (fun c => exists p, peak_time (flare c) = PStr p) ctxs).
  { apply Forall_forall. intros c Hc.
    assert (Hin : flare c ∈ map flare_of em) by (rewrite <- Hfl; apply list_elem_of_fmap_2, Hc).
    apply list_elem_of_fmap in Hin as (r & -> & Hr).
    apply list_elem_of_filter in Hr as [_ Hr].
    rewrite Forall_forall in Htyped. destruct (Htyped r Hr) as [_ [p Hp]].
    exists p. exact Hp. }
  destruct (for_each_process_ok cfg w ctxs s1 Hok) as (new & s2 & Hrun & Hs2 & _ & Hnew & Hall).
  assert (Hlen : length ctxs = length em).
  { rewrite <- (length_map flare ctxs), Hfl, length_map. reflexivity. }
  assert (Hsum := summaries_of_records new ctxs em Hall Hfl).
  rewrite run_cycle_unfold, Hexec.
  destruct ctxs as [|c ctxs].
  - exists s1, []. destruct em; [|discriminate]. cbn [length].
    rewrite app_nil_r. cbn in Hrun. injection Hrun as <-. inversion Hall; subst.
    repeat split; auto.
  - rewrite Hrun. exists (tick s2), new. rewrite Hlen. cbn [tick execution_log seen_flares].
    rewrite Hnew, Hs2, Hlog, Hseen. repeat split; auto.
Qed.

(** C2, amended.  When the feed returns two M-class records and one C-class
    record, well typed, with distinct identifiers none of which was seen,
    [run_cycle] returns 2, the execution log gains exactly two entries, both
    for M-class codes and neither for the C-class record, and the seen-set
    grows by exactly 2 identifiers: the identifier of the C-class record is
    not added. *)
Theorem cycle_two_M_one_C cfg w s data :
  feed_returns w data -> Forall well_typed data -> NoDup (map rec_id data) ->
  Forall (fun r => rec_id r ∉ seen_flares s) data ->
  length data = 3%nat -> count_class "M" data = 2%nat -> count_class "C" data = 1%nat ->
  exists s' e1 e2,
    run_cycle cfg w s = (Ok 2%nat, s') /\
    execution_log s' = execution_log s ++ [e1; e2] /\
    startswith (log_class e1) "M" = true /\ startswith (log_class e2) "M" = true /\
    size (seen_flares s') = (size (seen_flares s) + 2)%nat /\
    (forall r, r ∈ data -> class_is "C" r = true ->
       (rec_id r ∉ seen_flares s') /\
       log_flare_id e1 <> rec_id r /\ log_flare_id e2 <> rec_id r).
Proof.
  intros Hfeed Htyped Hnd Hunseen Hlen HM HC.
  destruct (run_cycle_well_typed cfg w s data Hfeed Htyped Hnd)
    as (s' & new & Hrun & Hlog & Hsum & Hseen).
  assert (Hall : Forall (fun r => class_is "M" r = true \/ class_is "C" r = true) data).
  { apply (filter_partition_all (fun r => class_is "M" r = true)
             (fun r => class_is "C" r = true) data class_is_M_not_C).
    unfold count_class in HM, HC. lia. }
  assert (Hem : filter (emits (seen_flares s)) data
                = filter (fun r => class_is "M" r = true) data).
  { apply filter_ext_elem. intros r Hr. unfold emits.
    rewrite Forall_forall in Hunseen, Hall. specialize (Hunseen r Hr).
    destruct (Hall r Hr) as [Hm | Hc].
    - rewrite Hm. cbn. tauto.
    - assert (HnM : class_is "M" r = false).
      { destruct (class_is "M" r) eqn:E; [|reflexivity].
        exfalso. exact (class_is_M_not_C r E Hc). }
      assert (HnX : class_is "X" r = false).
      { unfold class_is in *. destruct (rec_class r) as [| |c]; try reflexivity.
        apply startswith_C_not_MX in Hc. rewrite leading_MX_startswith in Hc.
        apply orb_false_iff in Hc. tauto. }
      rewrite HnM, HnX. cbn. split; [intros [? _] | intros ?]; discriminate. }
  rewrite Hem in Hrun, Hsum, Hseen. clear Hem.
  set (em := filter (fun r => class_is "M" r = true) data) in *.
  assert (Hem_len : length em = 2%nat) by exact HM.
  destruct em as [|r1 [|r2 [|? ?]]] eqn:Eem; try discriminate.
  inversion Hsum as [|e1 ? new1 ? (Hid1 & Hcl1) Hsum1]; subst.
  inversion Hsum1 as [|e2 ? new2 ? (Hid2 & Hcl2) Hsum2]; subst.
  inversion Hsum2; subst.
  assert (Hin1 : r1 ∈ data /\ class_is "M" r1 = true).
  { assert (H : r1 ∈ filter (fun r => class_is "M" r = true) data)
      by (fold em; rewrite Eem; left).
    apply list_elem_of_filter in H. tauto. }
  assert (Hin2 : r2 ∈ data /\ class_is "M" r2 = true).
  { assert (H : r2 ∈ filter (fun r => class_is "M" r = true) data)
      by (fold em; rewrite Eem; right; left).
    apply list_elem_of_filter in H. tauto. }
  destruct Hin1 as [Hin1 HM1]. destruct Hin2 as [Hin2 HM2].
  assert (Hnd2 : NoDup (map rec_id [r1; r2])).
  { rewrite <- Eem. apply NoDup_map_filter. exact Hnd. }
  cbn [map] in Hnd2. apply NoDup_cons in Hnd2 as [Hne _].
  assert (Hne12 : rec_id r1 <> rec_id r2) by set_solver.
  rewrite Forall_forall in Hunseen.
  assert (Hu1 := Hunseen r1 Hin1). assert (Hu2 := Hunseen r2 Hin2).
  exists s', e1, e2. split; [exact Hrun|]. split; [exact Hlog|].
  assert (Hcls : forall r, class_is "M" r = true -> startswith (py_str (rec_class r)) "M" = true).
  { intros r. unfold class_is. destruct (rec_class r); try discriminate. auto. }
  split; [rewrite Hcl1; auto|]. split; [rewrite Hcl2; auto|].
  split.
  - rewrite Hseen. cbn [map list_to_set].
    rewrite size_union by set_solver.
    rewrite size_union by set_solver.
    rewrite size_union by set_solver.
    rewrite !size_singleton, size_empty. lia.
  - intros r Hr HrC.
    assert (r <> r1) by (intros ->; exact (class_is_M_not_C r1 HM1 HrC)).
    assert (r <> r2) by (intros ->; exact (class_is_M_not_C r2 HM2 HrC)).
    assert (rec_id r <> rec_id r1).
    { intros E. apply (NoDup_map_inj rec_id data) in E; auto. }
    assert (rec_id r <> rec_id r2).
    { intros E. apply (NoDup_map_inj rec_id data) in E; auto. }
    specialize (Hunseen r Hr).
    rewrite Hseen, Hid1, Hid2. cbn [map list_to_set]. repeat split; auto. set_solver.
Qed.

(* ---------------------------------------------------------------------- *)
(** *** The fallbacks of the Analyst and of the Report Writer *)

Lemma fallback_analysis_nonempty f : Agent2Analyst._fallback_analysis f <> "".
Proof. discriminate. Qed.

Lemma assess_severity_nonempty f :
  level (Agent2Analyst._assess_severity f) <> "" /\
  icon (Agent2Analyst._assess_severity f) <> "" /\
  description (Agent2Analyst._assess_severity f) <> "".
Proof.
  unfold Agent2Analyst._assess_severity.
  destruct (severity_level f =? 3); [repeat split; discriminate|].
  destruct (severity_level f =? 2); [repeat split; discriminate|].
  destruct (severity_level f =? 1); repeat split; discriminate.
Qed.

Lemma determine_impacts_nonempty f :
  Agent2Analyst._determine_impacts f <> [] /\
  Forall (fun x => x <> "") (Agent2Analyst._determine_impacts f).
Proof.
  unfold Agent2Analyst._determine_impacts.
  destruct (Ascii.eqb _ "X"); [split; [discriminate | repeat constructor; discriminate]|].
  destruct (Ascii.eqb _ "M"); split; try discriminate; repeat constructor; discriminate.
Qed.

Lemma determine_regions_nonempty f :
  Agent2Analyst._determine_regions f <> [] /\
  Forall (fun x => x <> "") (Agent2Analyst._determine_regions f).
Proof.
  unfold Agent2Analyst._determine_regions.
  destruct (_ || _); split; try discriminate; repeat constructor; discriminate.
Qed.

(** C6.  Without a Gemini key and without a Serper key, for every valid
    event record the Analysis stage returns the same context with an
    analysis in which the severity assessment, the impact list, the region
    list and the narrative text are all present and not empty (the
    narrative being the fallback sentence, the search result the fallback
    one), and the Report stage then stores a report text that is not empty;
    neither stage raises. *)
Theorem fallback_analysis_and_report cfg w ctx s :
  key_set (gemini_api_key cfg) = false ->
  key_set (serper_api_key cfg) = false ->
  valid_event_record (flare ctx) ->
  exists a r,
    Agent2Analyst.execute cfg w ctx s = (Ok (set_analysis_data ctx a), tick s) /\
    (exists query, search_results a = SearchFallback query) /\
    level (severity_assessment a) <> "" /\
    description (severity_assessment a) <> "" /\
    potential_impacts a <> [] /\ Forall (fun x => x <> "") (potential_impacts a) /\
    affected_regions a <> [] /\ Forall (fun x => x <> "") (affected_regions a) /\
    gemini_analysis a = Agent2Analyst._fallback_analysis (flare ctx) /\
    gemini_analysis a <> "" /\
    Agent3ReportWriter.execute cfg w (set_analysis_data ctx a) (tick s)
      = (Ok (set_report (set_analysis_data ctx a) r), tick (tick s)) /\
    r <> "".
Proof.
  intros Hgem Hserper (_ & _ & _ & [p Hp] & _).
  destruct (analyst_execute_ok cfg w ctx s p Hp)
    as (a & Hexec & Hg & Hsev & Himp & Hreg & Hsearch).
  destruct (writer_execute_ok cfg w (set_analysis_data ctx a) (tick s)) as (r & Hw & Hr).
  exists a, r. split; [exact Hexec|]. split; [eexists; exact (Hsearch Hserper)|].
  assert (Hga : gemini_analysis a = Agent2Analyst._fallback_analysis (flare ctx)).
  { rewrite Hg. unfold Agent2Analyst._analyze_with_gemini. rewrite Hgem. reflexivity. }
  rewrite Hsev, Himp, Hreg, Hga.
  destruct (assess_severity_nonempty (flare ctx)) as (? & _ & ?).
  destruct (determine_impacts_nonempty (flare ctx)).
  destruct (determine_regions_nonempty (flare ctx)).
  repeat split; auto using fallback_analysis_nonempty.
Qed.

(* ---------------------------------------------------------------------- *)
(** *** The channels of the Notifier *)

(** C7.  For a context with a report and with e-mail configured, when one
    channel always fails and the other two always succeed, the Distribution
    stage returns the context with an outcome map that has an entry for
    each of the three channels, [false] for the failing one and [true] for
    the other two: exactly one [false] entry. *)
Theorem notifier_isolates_channels cfg w ctx s r ec failing :
  report ctx = Some r -> r <> "" ->
  email_config cfg = Some ec -> ec <> ∅ ->
  channel_always w ec failing false ->
  (forall ch, ch <> failing -> channel_always w ec ch true) ->
  exists m s',
    Agent4Notifier.execute cfg w ctx s = (Ok (set_notification_results ctx m), s') /\
    dom m = {[ "console"; "file"; "email" ]} /\
    (forall ch, m !! channel_key ch = Some (bool_decide (ch <> failing))) /\
    count_false m = 1%nat.
Proof.
  intros Hr Hne Hec Hnempty Hfail Hothers.
  rewrite (notifier_execute_three cfg w ctx s r ec Hr Hne Hec Hnempty).
  eexists _, _. split; [reflexivity|].
  assert (Hch : forall ch, channel_always w ec ch (bool_decide (ch <> failing))).
  { intros ch. destruct (decide (ch = failing)) as [->|Hd].
    - rewrite bool_decide_eq_false_2 by tauto. exact Hfail.
    - rewrite bool_decide_eq_true_2 by exact Hd. apply Hothers, Hd. }
  assert (Hc := Hch Console r). assert (He := Hch Email r (flare ctx)).
  assert (Hf := Hch File r (flare ctx) s). cbn [channel_always] in Hc, He, Hf.
  rewrite save_to_file_eq in Hf. cbn [fst] in Hf. injection Hf as Hf.
  rewrite Hc, He, Hf. clear.
  split; [|split].
  - rewrite !dom_insert_L, dom_empty_L. set_solver.
  - intros []; reflexivity.
  - rewrite count_false_three. destruct failing; reflexivity.
Qed.

(* ---------------------------------------------------------------------- *)
(** *** The magnitude and the affected regions *)

(** Whatever the code, the global regions are returned exactly when the
    code starts with [X] or the magnitude is at least 5.0. *)
Lemma determine_regions_global (f : SolarFlare) :
  Agent2Analyst._determine_regions f = Agent2Analyst.global_regions
  <-> startswith (class_type f) "X" || ge_5 (Agent2Analyst.class_magnitude f) = true.
Proof.
  unfold Agent2Analyst._determine_regions.
  destruct (_ || _); split; intros H; try reflexivity; discriminate H.
Qed.

(** C8.  For an event record whose classification code has nothing that
    [float] reads after its first letter, the determination of the regions
    returns (it is a total function): the magnitude is 1.0, which is below
    5.0, and the global regions are returned if and only if the code starts
    with [X] or the magnitude is at least 5.0, that is if and only if the
    leading letter is [X]; otherwise the sunlit-hemisphere regions are. *)
Theorem determine_regions_without_magnitude (f : SolarFlare) :
  float (tail_from_1 (class_type f)) = None ->
  Agent2Analyst.class_magnitude f = FDec 1 0 /\
  ge_5 (Agent2Analyst.class_magnitude f) = false /\
  (Agent2Analyst._determine_regions f = Agent2Analyst.global_regions
   <-> startswith (class_type f) "X" = true
       \/ ge_5 (Agent2Analyst.class_magnitude f) = true) /\
  (Agent2Analyst._determine_regions f = Agent2Analyst.global_regions
   <-> first_char (class_type f) = Some "X"%char) /\
  (first_char (class_type f) <> Some "X"%char ->
   Agent2Analyst._determine_regions f = Agent2Analyst.sunlit_regions).
Proof.
  intros Hfloat.
  assert (Hmag : Agent2Analyst.class_magnitude f = FDec 1 0).
  { unfold Agent2Analyst.class_magnitude. rewrite Hfloat. reflexivity. }
  unfold Agent2Analyst._determine_regions. rewrite Hmag.
  change (ge_5 (FDec 1 0)) with false. rewrite orb_false_r.
  assert (HX := startswith_char (class_type f) "X").
  split; [reflexivity|]. split; [reflexivity|].
  destruct (startswith (class_type f) "X") eqn:E.
  - assert (Hfc : first_char (class_type f) = Some "X"%char).
    { destruct (first_char (class_type f)) as [x|]; [|discriminate].
      symmetry in HX. apply Ascii.eqb_eq in HX. congruence. }
    repeat split; auto; try discriminate. intros; congruence.
  - assert (Hfc : first_char (class_type f) <> Some "X"%char).
    { intros Hfc. rewrite Hfc in HX. discriminate. }
    repeat split; try discriminate; try tauto.
    intros [?|?]; discriminate.
Qed.

(* ====================================================================== *)
(** ** The code on concrete inputs *)
(* ====================================================================== *)

Example float_reads :
  float "5.0" = Some (FDec 50 (-1)) /\ float " 1_0.5e-2 " = Some (FDec 105 (-3)) /\
  float "-Infinity" = Some (FInf true) /\ float "nan" = Some FNan /\
  float "" = None /\ float "." = None /\ float "1_" = None /\ float "5,0" = None.
Proof. repeat split; reflexivity. Qed.

(** A decimal just below 5 that rounds to the double [5.0], and one that
    does not. *)
Example ge_5_rounds :
  option_map ge_5 (float "4.9999999999999996") = Some true /\
  option_map ge_5 (float "4.9999999999999995") = Some false /\
  option_map ge_5 (float "5") = Some true /\
  option_map ge_5 (float "4.9") = Some false /\
  option_map ge_5 (float "nan") = Some false.
Proof. repeat split; reflexivity. Qed.

Example regions_by_code :
  Agent2Analyst._determine_regions (with_class example_flare "X")
  = Agent2Analyst.global_regions /\
  Agent2Analyst._determine_regions (with_class example_flare "M")
  = Agent2Analyst.sunlit_regions /\
  Agent2Analyst._determine_regions (with_class example_flare "M5.0")
  = Agent2Analyst.global_regions /\
  Agent2Analyst._determine_regions (with_class example_flare "M4.9")
  = Agent2Analyst.sunlit_regions /\
  Agent2Analyst._determine_regions (with_class example_flare "Mx.y")
  = Agent2Analyst.sunlit_regions.
Proof. repeat split; reflexivity. Qed.

(** A null peak time cannot be sliced: the Analysis stage raises. *)
Example analysis_raises_on_null_peak_time :
  Agent2Analyst.execute plain_config example_world
    {| flare := flare_of (donki_record "FLR-002" "M2.4" PNone);
       analysis_data := None; report := None; notification_results := None;
       timestamp := "2024-05-10T12:00:00" |} init_state
  = (Raise TypeError, init_state).
Proof. reflexivity. Qed.

(** A fault of the fetch that is not a transport error is not caught by the
    Monitor; [run_cycle] catches it. *)
Example monitor_propagates_other_faults :
  Agent1Monitor.execute plain_config
    (world_of (FetchRaises OtherException) true true true) init_state
  = (Raise OtherException, tick init_state) /\
  run_cycle plain_config
    (world_of (FetchRaises OtherException) true true true) init_state
  = (Ok O, tick (tick init_state)).
Proof. split; reflexivity. Qed.

Example fault_cycle_code :
  (run_cycle plain_config fault_world init_state).1 = Ok O /\
  map log_flare_id (execution_log (run_cycle plain_config fault_world init_state).2)
  = [PStr "FLR-001"].
Proof. vm_compute. split; reflexivity. Qed.

Example fault_cycle_specified :
  (run_cycle_as_specified plain_config fault_world init_state).1 = Ok 2%nat /\
  map log_flare_id
    (execution_log (run_cycle_as_specified plain_config fault_world init_state).2)
  = [PStr "FLR-001"; PStr "FLR-003"].
Proof. vm_compute. split; reflexivity. Qed.

(** C1, counterexample.  On a feed of three significant records of which
    the second has a null peak time, the Analysis stage raises for the
    second context: the cycle returns 0 and logs the first event only, where
    the specified cycle returns 2 and logs the first and the third. *)
Lemma run_cycle_does_not_isolate_faults :
  ~ isolates_faults plain_config fault_world init_state.
Proof. intros [H _]. vm_compute in H. discriminate H. Qed.

Example example_cycle_code :
  (run_cycle plain_config example_world init_state).1 = Ok 2%nat /\
  map log_flare_id (execution_log (run_cycle plain_config example_world init_state).2)
  = [PStr "FLR-001"; PStr "FLR-003"] /\
  size (seen_flares (run_cycle plain_config example_world init_state).2) = 2%nat /\
  bool_decide
    (PStr "FLR-002" ∈ seen_flares (run_cycle plain_config example_world init_state).2)
  = false.
Proof. vm_compute. repeat split; reflexivity. Qed.

(** C2, counterexample.  On a feed of two M-class records around a C-class
    one, none seen, the cycle returns 2 and logs 2 entries, but the seen-set
    gains 2 identifiers, not 3, and the identifier of the C-class record is
    not among them. *)
Lemma cycle_example_seen_set_gains_two :
  ~ cycle_example_as_specified plain_config example_world init_state (PStr "FLR-002").
Proof. intros (_ & _ & H & _). vm_compute in H. discriminate H. Qed.

(** C3.  The claim fails at a significant record whose linked events are
    null.  [null_links_record] has the code [M1.0] and an identifier the
    Monitor has not seen, so the claim has it emitted; the code reads
    [linkedEvents] with a default that covers a missing key only, iterates
    over [None] and raises [TypeError]: the Monitor emits nothing and marks
    nothing as seen, [run_cycle] returns 0 and logs nothing, and the next
    cycle on the same feed does the same. *)
Theorem monitor_raises_on_null_linked_events :
  rec_class null_links_record = PStr "M1.0" /\ leading_MX "M1.0" = true /\
  (rec_id null_links_record ∉ seen_flares init_state) /\
  (exists s',
     Agent1Monitor.execute plain_config null_links_world init_state
       = (Raise TypeError, s') /\
     seen_flares s' = seen_flares init_state /\
     last_check_time s' = last_check_time init_state) /\
  emitted_ids (Agent1Monitor.execute plain_config null_links_world init_state).1 = [] /\
  (exists s',
     run_cycle plain_config null_links_world init_state = (Ok O, s') /\
     execution_log s' = [] /\ seen_flares s' = seen_flares init_state /\
     exists s'',
       run_cycle plain_config null_links_world s' = (Ok O, s'') /\
       execution_log s'' = [] /\ seen_flares s'' = seen_flares init_state).
Proof.
  split; [reflexivity|]. split; [reflexivity|].
  split; [apply not_elem_of_empty|].
  split; [eexists; split; [vm_compute; reflexivity | split; reflexivity]|].
  split; [vm_compute; reflexivity|].
  eexists. split; [vm_compute; reflexivity|]. split; [reflexivity|]. split; [reflexivity|].
  eexists. split; [vm_compute; reflexivity|]. split; reflexivity.
Qed.

(* ====================================================================== *)
(** ** The theorems at concrete inputs *)
(* ====================================================================== *)

(** C2, amended, on [example_feed] from the initial state. *)
Lemma cycle_two_M_one_C_witness :
  exists s' e1 e2,
    run_cycle plain_config example_world init_state = (Ok 2%nat, s') /\
    execution_log s' = execution_log init_state ++ [e1; e2] /\
    startswith (log_class e1) "M" = true /\ startswith (log_class e2) "M" = true /\
    size (seen_flares s') = (size (seen_flares init_state) + 2)%nat /\
    (forall r, r ∈ example_feed -> class_is "C" r = true ->
       (rec_id r ∉ seen_flares s') /\
       log_flare_id e1 <> rec_id r /\ log_flare_id e2 <> rec_id r).
Proof.
  apply (cycle_two_M_one_C plain_config example_world init_state example_feed).
  - intros ? ? ?. reflexivity.
  - repeat constructor; try (eexists; reflexivity); right; eexists; reflexivity.
  - apply (bool_decide_unpack _). vm_compute. exact I.
  - repeat constructor; apply not_elem_of_empty.
  - reflexivity.
  - vm_compute. reflexivity.
  - vm_compute. reflexivity.
Defined.

(** The Monitor on [example_feed], at its C-class record. *)
Lemma monitor_emits_witness :
  exists ctxs s',
    Agent1Monitor.execute plain_config example_world init_state = (Ok ctxs, s') /\
    ((exists ctx, ctx ∈ ctxs /\
        ctx_id ctx = rec_id (donki_record "FLR-002" "C3.2" (PStr "2024-05-10T09:12Z")))
     <-> leading_MX "C3.2" = true) /\
    (leading_MX "C3.2" = true ->
     exists ctx, ctx ∈ ctxs /\
       flare ctx = flare_of (donki_record "FLR-002" "C3.2" (PStr "2024-05-10T09:12Z"))) /\
    Forall (fun ctx => leading_MX (class_type (flare ctx)) = true) ctxs.
Proof.
  apply (monitor_emits_iff_leading_M_or_X plain_config example_world init_state
           example_feed).
  - intros ? ? ?. reflexivity.
  - repeat constructor; try (eexists; reflexivity); right; eexists; reflexivity.
  - apply (bool_decide_unpack _). vm_compute. exact I.
  - right. left.
  - reflexivity.
  - apply not_elem_of_empty.
Defined.

(** C1, amended, on [fault_world] from the initial state. *)
Lemma run_cycle_stops_witness :
  exists n s',
    run_cycle plain_config fault_world init_state = (Ok n, s') /\
    match fault_monitor_call.1 with
    | Raise _ => execution_log s' = execution_log init_state
    | Ok ctxs =>
        forall pre rest,
          ctxs = pre ++ rest ->
          Forall (stages_return plain_config fault_world) pre ->
          rest = [] \/
          (exists bad post, rest = bad :: post /\ stage_raises plain_config fault_world bad) ->
          exists new,
            execution_log s' = execution_log init_state ++ new /\
            Forall2 summarises new pre /\
            (rest = [] -> n = length ctxs)
    end.
Proof.
  apply (run_cycle_stops_at_first_fault plain_config fault_world init_state
           fault_monitor_call.1 fault_monitor_call.2).
  apply surjective_pairing.
Defined.

(** C4 on two successive calls with the same feed. *)
Lemma monitor_never_emits_twice_witness :
  seen_flares init_state ⊆ seen_flares first_call.2 /\
  seen_flares first_call.2 ⊆ seen_flares second_call.2 /\
  (forall I, I ∈ emitted_ids first_call.1 ->
     (I ∈ seen_flares first_call.2) /\ I ∉ emitted_ids second_call.1) /\
  (forall I, I ∈ seen_flares init_state ->
     (I ∉ emitted_ids first_call.1) /\ I ∉ emitted_ids second_call.1).
Proof.
  apply (monitor_never_emits_twice plain_config [example_world; example_world]
           init_state 0 1 first_call.1 first_call.2 second_call.1 second_call.2).
  - lia.
  - vm_compute. reflexivity.
  - vm_compute. reflexivity.
Defined.

(** C6 on [example_context], with no key configured. *)
Lemma fallback_analysis_and_report_witness :
  exists a r,
    Agent2Analyst.execute plain_config example_world example_context init_state
      = (Ok (set_analysis_data example_context a), tick init_state) /\
    (exists query, search_results a = SearchFallback query) /\
    level (severity_assessment a) <> "" /\
    description (severity_assessment a) <> "" /\
    potential_impacts a <> [] /\ Forall (fun x => x <> "") (potential_impacts a) /\
    affected_regions a <> [] /\ Forall (fun x => x <> "") (affected_regions a) /\
    gemini_analysis a = Agent2Analyst._fallback_analysis (flare example_context) /\
    gemini_analysis a <> "" /\
    Agent3ReportWriter.execute plain_config example_world
      (set_analysis_data example_context a) (tick init_state)
      = (Ok (set_report (set_analysis_data example_context a) r), tick (tick init_state)) /\
    r <> "".
Proof.
  apply (fallback_analysis_and_report plain_config example_world example_context
           init_state).
  - reflexivity.
  - reflexivity.
  - unfold valid_event_record, is_str. cbn.
    repeat split; eauto.
Defined.

(** C7 when the file channel fails and the console and e-mail succeed. *)
Lemma notifier_isolates_channels_witness :
  exists m s',
    Agent4Notifier.execute mail_config
      (world_of (Fetched []) true false true) example_context init_state
      = (Ok (set_notification_results example_context m), s') /\
    dom m = {[ "console"; "file"; "email" ]} /\
    (forall ch, m !! channel_key ch = Some (bool_decide (ch <> File))) /\
    count_false m = 1%nat.
Proof.
  apply (notifier_isolates_channels mail_config
           (world_of (Fetched []) true false true) example_context init_state
           "ALERT" mail_settings File).
  - reflexivity.
  - discriminate.
  - reflexivity.
  - apply (bool_decide_unpack _). vm_compute. exact I.
  - intros ? ? ?. reflexivity.
  - intros [] Hch; [intros ?; reflexivity | contradiction | intros ? ?; reflexivity].
Defined.

(** C8 on the code ["X"], which has no magnitude. *)
Lemma determine_regions_witness :
  Agent2Analyst.class_magnitude example_flare = FDec 1 0 /\
  ge_5 (Agent2Analyst.class_magnitude example_flare) = false /\
  (Agent2Analyst._determine_regions example_flare = Agent2Analyst.global_regions
   <-> startswith (class_type example_flare) "X" = true
       \/ ge_5 (Agent2Analyst.class_magnitude example_flare) = true) /\
  (Agent2Analyst._determine_regions example_flare = Agent2Analyst.global_regions
   <-> first_char (class_type example_flare) = Some "X"%char) /\
  (first_char (class_type example_flare) <> Some "X"%char ->
   Agent2Analyst._determine_regions example_flare = Agent2Analyst.sunlit_regions).
Proof.
  apply (determine_regions_without_magnitude example_flare). reflexivity.
Defined.

(** C9 on [offline_world], whose feed is unreachable. *)
Lemma monitor_fails_soft_witness :
  exists s',
    Agent1Monitor.execute plain_config offline_world init_state = (Ok [], s') /\
    last_check_time s' = Some (clock offline_world (S (ticks init_state))) /\
    seen_flares s' = seen_flares init_state /\
    execution_log s' = execution_log init_state.
Proof.
  apply (monitor_fails_soft plain_config offline_world init_state).
  intros ? ? ?. reflexivity.
Defined.

(** C10 on two successive calls on [example_feed]. *)
Lemma seen_set_witness :
  (forall I, I ∈ seen_flares second_call.2 -> I ∉ seen_flares init_state ->
     exists w s0 data r c,
       w ∈ [example_world; example_world] /\
       Agent1Monitor._fetch_recent_flares plain_config w 7 s0 = (Ok data, tick s0) /\
       r ∈ data /\ rec_id r = I /\ rec_class r = PStr c /\ leading_MX c = true) /\
  (forall I,
     I ∉ seen_flares init_state ->
     (forall w s0 data r c,
        w ∈ [example_world; example_world] ->
        Agent1Monitor._fetch_recent_flares plain_config w 7 s0 = (Ok data, tick s0) ->
        r ∈ data -> rec_id r = I -> rec_class r = PStr c -> leading_MX c = false) ->
     (I ∉ seen_flares second_call.2) /\ I ∉ emitted_ids second_call.1).
Proof.
  apply (seen_set_holds_significant_only plain_config [example_world; example_world]
           init_state 1 second_call.1 second_call.2).
  vm_compute. reflexivity.
Defined.

(* ====================================================================== *)
(** ** Further properties *)
(* ====================================================================== *)

(** *** The Monitor *)

Lemma execute_readable cfg w s data :
  feed_returns w data -> Forall readable data -> NoDup (map rec_id data) ->
  exists ctxs s',
    Agent1Monitor.execute cfg w s = (Ok ctxs, s') /\
    map flare ctxs = map flare_of (filter (emits (seen_flares s)) data) /\
    Forall blank ctxs /\
    seen_flares s'
      = list_to_set (map rec_id (filter (emits (seen_flares s)) data)) ∪ seen_flares s.
Proof.
  intros Hfeed Hread Hnd.
  unfold Agent1Monitor.execute, bind.
  rewrite (fetch_feed_returns cfg w data s Hfeed), detect_new_flares_eq.
  rewrite (detect_loop_exact data [] (tick s) Hread Hnd). cbn [app seen_flares tick].
  set (em := filter (emits (seen_flares s)) data).
  fold (after_detect w (with_seen (tick s) (list_to_set (map rec_id em) ∪ seen_flares s))).
  set (s2 := after_detect w _).
  destruct (map_M_new_context w (map flare_of em) s2) as (ctxs & s3 & Hm & (Hs3 & _) & Hfl & Hblank).
  destruct (map flare_of em) as [|f fl] eqn:E.
  - exists [], s2. repeat split; auto.
  - rewrite Hm. exists ctxs, s3. repeat split; auto.
Qed.

Lemma map_flare_of_id (l : list FlareData) :
  map flare_id (map flare_of l) = map rec_id l.
Proof. induction l as [|r l IH]; [reflexivity|]. cbn [map]. rewrite IH. reflexivity. Qed.

Lemma map_ctx_id (ctxs : list AgentContext) :
  map ctx_id ctxs = map flare_id (map flare ctxs).
Proof. induction ctxs as [|c l IH]; [reflexivity|]. cbn [map]. rewrite IH. reflexivity. Qed.

(** X1.  On a readable feed with distinct identifiers the Monitor returns
    one context per significant record that was not seen, in the order of
    the feed; each context carries the event built from its record and
    nothing else yet, and the seen-set gains exactly the identifiers
    returned. *)
Theorem monitor_keeps_feed_order cfg w s data :
  feed_returns w data -> Forall readable data -> NoDup (map rec_id data) ->
  exists ctxs s',
    Agent1Monitor.execute cfg w s = (Ok ctxs, s') /\
    map flare ctxs = map flare_of (filter (emits (seen_flares s)) data) /\
    map ctx_id ctxs `sublist_of` map rec_id data /\
    Forall blank ctxs /\
    seen_flares s' = list_to_set (map ctx_id ctxs) ∪ seen_flares s.
Proof.
  intros Hfeed Hread Hnd.
  destruct (execute_readable cfg w s data Hfeed Hread Hnd)
    as (ctxs & s' & Hexec & Hfl & Hblank & Hseen).
  exists ctxs, s'. split; [exact Hexec|]. split; [exact Hfl|].
  assert (Hids : map ctx_id ctxs = map rec_id (filter (emits (seen_flares s)) data)).
  { rewrite map_ctx_id, Hfl. apply map_flare_of_id. }
  rewrite Hids. repeat split; auto.
  apply fmap_sublist, sublist_filter.
Qed.

(** Identifiers emitted in one call are distinct, whatever the feed. *)
Lemma detect_loop_distinct data : forall acc s fl s',
  Agent1Monitor.detect_loop acc data s = (Ok fl, s') ->
  NoDup (map flare_id acc) ->
  Forall (fun f => flare_id f ∈ seen_flares s) acc ->
  NoDup (map flare_id fl) /\ Forall (fun f => flare_id f ∈ seen_flares s') fl.
Proof.
  induction data as [|r data IH]; intros acc s fl s'.
  - intros [= <- <-]. auto.
  - cbn [Agent1Monitor.detect_loop]. unfold bind.
    destruct (Agent1Monitor.detect_one acc r s) as [[acc1|e] s1] eqn:H1; [|discriminate].
    intros Hloop Hnd Hseen.
    apply detect_one_inv in H1 as (Hsub & _ & _ & _ & _ & Hout).
    assert (Hseen1 : Forall (fun f => flare_id f ∈ seen_flares s1) acc).
    { eapply Forall_impl; [exact Hseen|]. cbn. intros f Hf. apply Hsub, Hf. }
    destruct (Hout acc1 eq_refl) as [-> | (f & -> & Hf1 & Hf2 & _)].
    + exact (IH acc s1 fl s' Hloop Hnd Hseen1).
    + apply (IH (acc ++ [f]) s1 fl s' Hloop).
      * rewrite map_app. cbn [map]. apply NoDup_app. split; [exact Hnd|].
        split; [|apply NoDup_singleton].
        intros x Hx Hx'. apply list_elem_of_singleton in Hx'. subst x.
        apply list_elem_of_fmap in Hx as (g & Hg & Hgin).
        rewrite Forall_forall in Hseen. apply Hf1. rewrite Hg. apply Hseen, Hgin.
      * apply Forall_app. split; [exact Hseen1|]. constructor; [exact Hf2 | constructor].
Qed.

Lemma execute_distinct cfg w s out s' :
  Agent1Monitor.execute cfg w s = (out, s') ->
  NoDup (emitted_ids out) /\
  forall ctxs, out = Ok ctxs -> NoDup (map flare_id (map flare ctxs)).
Proof.
  intros Hexec.
  destruct (execute_unfold cfg w s) as (fetched & _ & H).
  destruct fetched as [data|e].
  2: { rewrite H in Hexec. injection Hexec as <- <-. split; [constructor|discriminate]. }
  destruct (Agent1Monitor.detect_loop [] data (tick s)) as [[fl|e] s1] eqn:Hloop.
  - destruct H as (ctxs & s3 & H & Hfl & _). rewrite H in Hexec.
    injection Hexec as <- <-.
    apply detect_loop_distinct in Hloop as [Hnd _]; [|constructor|constructor].
    cbn [emitted_ids]. rewrite map_ctx_id, Hfl. split; [exact Hnd|].
    intros ? [= <-]. rewrite Hfl. exact Hnd.
  - rewrite H in Hexec. injection Hexec as <- <-. split; [constructor|discriminate].
Qed.

(** X2.  Whatever the feed holds (repeated identifiers, records without
    an identifier), one call of the Monitor never returns the same
    identifier twice; of the records that have no identifier at most one
    event is returned. *)
Theorem monitor_emits_distinct_ids cfg w s out s' :
  Agent1Monitor.execute cfg w s = (out, s') ->
  NoDup (emitted_ids out) /\
  forall c1 c2 ctxs,
    out = Ok ctxs -> c1 ∈ ctxs -> c2 ∈ ctxs ->
    ctx_id c1 = PNone -> ctx_id c2 = PNone -> flare c1 = flare c2.
Proof.
  intros Hexec.
  destruct (execute_distinct cfg w s out s' Hexec) as [Hnd Hfl]. split; [exact Hnd|].
  intros c1 c2 ctxs -> H1 H2 Hid1 Hid2.
  apply (NoDup_map_inj flare_id (map flare ctxs)); auto.
  - apply list_elem_of_fmap_2. exact H1.
  - apply list_elem_of_fmap_2. exact H2.
  - unfold ctx_id in Hid1, Hid2. congruence.
Qed.

Lemma map_M_new_context_ticks w (fls : list SolarFlare) : forall s,
  ticks (map_M (new_context w) fls s).2 = (ticks s + length fls)%nat.
Proof.
  induction fls as [|f fls IH]; intros s; [cbn; lia|].
  cbn [map_M]. unfold bind at 1. unfold new_context at 1. unfold bind at 1.
  rewrite datetime_now_eq. cbn [ret]. specialize (IH (tick s)).
  unfold bind. destruct (map_M (new_context w) fls (tick s)) as [[ctxs|e] s1];
    cbn in IH |- *; lia.
Qed.

(** X3.  The Monitor sets [last_check_time] exactly when it returns, to a
    reading of the clock made during that call; when it raises,
    [last_check_time] is as it was. *)
Theorem monitor_sets_last_check_iff_it_returns cfg w s out s' :
  Agent1Monitor.execute cfg w s = (out, s') ->
  match out with
  | Ok _ =>
      exists k, (ticks s <= k < ticks s')%nat /\
                last_check_time s' = Some (clock w k)
  | Raise _ => last_check_time s' = last_check_time s
  end.
Proof.
  unfold Agent1Monitor.execute, bind.
  destruct (fetch_cases cfg w s) as [fetched Hf]. rewrite Hf.
  destruct fetched as [data|e]; [|intros [= <- <-]; reflexivity].
  rewrite detect_new_flares_eq.
  destruct (Agent1Monitor.detect_loop [] data (tick s)) as [[fl|e] s1] eqn:Hloop;
    apply detect_loop_inv in Hloop as (_ & Hl & _ & Ht & _).
  - fold (after_detect w s1). cbn [tick ticks] in Ht.
    destruct fl as [|f fl].
    + intros [= <- <-]. exists (ticks s1). cbn. split; [lia | reflexivity].
    + intros Hexec.
      assert (Hticks := map_M_new_context_ticks w (f :: fl) (after_detect w s1)).
      destruct (map_M_new_context w (f :: fl) (after_detect w s1))
        as (ctxs & s3 & H & (_ & Hl3 & _) & _).
      rewrite H in Hexec, Hticks. injection Hexec as <- <-.
      exists (ticks s1). rewrite Hl3. cbn in Hticks |- *. split; [lia | reflexivity].
  - intros [= <- <-]. exact Hl.
Qed.

(** *** The cycle *)

(** The loop of [run_cycle] in general: it summarises a prefix of the
    contexts, all of them exactly when it returns. *)
Lemma for_each_summaries cfg w ctxs : forall s out s',
  for_each ctxs (process cfg w) s = (out, s') ->
  exists new,
    execution_log s' = execution_log s ++ new /\
    Forall2 summarises new (take (length new) ctxs) /\
    seen_flares s' = seen_flares s /\ last_check_time s' = last_check_time s /\
    match out with
    | Ok _ => length new = length ctxs
    | Raise _ => (length new < length ctxs)%nat
    end.
Proof.
  induction ctxs as [|c ctxs IH]; intros s out s'.
  - intros [= <- <-]. exists []. rewrite app_nil_r. repeat split. constructor.
  - cbn [for_each]. unfold bind.
    destruct (process_cases cfg w c s) as [(e & s1 & -> & Hs & Hl & Hlog & Hsum) | [-> _]].
    + intros H. apply IH in H as (new & Hnew & Hall & Hs' & Hl' & Hout).
      exists (e :: new). rewrite Hnew, Hlog, <- app_assoc, Hs', Hl', Hs, Hl.
      repeat split; auto.
      * cbn. constructor; assumption.
      * destruct out; cbn; lia.
    + intros [= <- <-]. exists []. rewrite app_nil_r. repeat split; cbn; [constructor | lia].
Qed.

(** The whole cycle in general. *)
Lemma run_cycle_shape cfg w s :
  exists n s' out s1 new,
    run_cycle cfg w s = (Ok n, s') /\
    Agent1Monitor.execute cfg w (tick s) = (out, s1) /\
    seen_flares s' = seen_flares s1 /\ last_check_time s' = last_check_time s1 /\
    execution_log s' = execution_log s ++ new /\
    match out with
    | Raise _ => new = [] /\ n = O
    | Ok ctxs =>
        Forall2 summarises new (take (length new) ctxs) /\
        ((length new = length ctxs /\ n = length ctxs)
         \/ ((length new < length ctxs)%nat /\ n = O))
    end.
Proof.
  rewrite run_cycle_unfold.
  destruct (Agent1Monitor.execute cfg w (tick s)) as [out s1] eqn:Hexec.
  assert (Hlog : execution_log s1 = execution_log s).
  { apply execute_inv in Hexec as (_ & H & _). exact H. }
  destruct out as [[|c ctxs]|e].
  - exists O, s1, (Ok []), s1, []. rewrite app_nil_r. repeat split; auto; try constructor.
  - destruct (for_each (c :: ctxs) (process cfg w) s1) as [out2 s2] eqn:Hloop.
    apply for_each_summaries in Hloop as (new & Hnew & Hall & Hs & Hl & Hout).
    rewrite Hlog in Hnew.
    destruct out2 as [[]|e].
    + exists (length (c :: ctxs)), (tick s2), (Ok (c :: ctxs)), s1, new. repeat split; auto.
    + exists O, s2, (Ok (c :: ctxs)), s1, new. repeat split; auto.
  - exists O, s1, (Raise e), s1, []. rewrite app_nil_r. repeat split; auto.
Qed.

(** X4.  A cycle always returns a number, never an exception; it only
    appends to the log and only adds to the seen-set; the number is the
    number of entries appended, or 0 when the cycle stopped early, in
    which case entries may have been appended all the same. *)
Theorem run_cycle_count_and_log cfg w s :
  exists n s' new,
    run_cycle cfg w s = (Ok n, s') /\
    execution_log s' = execution_log s ++ new /\
    seen_flares s ⊆ seen_flares s' /\
    (n = length new \/ n = O) /\
    (n <= length new)%nat.
Proof.
  destruct (run_cycle_shape cfg w s)
    as (n & s' & out & s1 & new & Hrun & Hexec & Hs & _ & Hlog & Hout).
  exists n, s', new. split; [exact Hrun|]. split; [exact Hlog|].
  apply execute_inv in Hexec as (Hsub & _). cbn in Hsub. rewrite Hs.
  split; [exact Hsub|].
  destruct out as [ctxs|e].
  - destruct Hout as [_ [[H1 H2] | [H1 H2]]]; split; auto; lia.
  - destruct Hout as [-> ->]. cbn. auto.
Qed.

Lemma Forall2_take_ids (new : list LogEntry) (ctxs : list AgentContext) :
  Forall2 summarises new (take (length new) ctxs) ->
  map log_flare_id new = take (length new) (map ctx_id ctxs) /\
  map log_class new = take (length new) (map (fun c => class_type (flare c)) ctxs).
Proof.
  revert ctxs. induction new as [|e new IH]; intros ctxs H; [split; reflexivity|].
  destruct ctxs as [|c ctxs]; cbn in H; [inversion H|].
  inversion H as [|? ? ? ? (_ & Hid & Hcl) Hrest]; subst.
  destruct (IH ctxs Hrest) as [IH1 IH2].
  cbn. rewrite IH1, IH2, Hid, Hcl. split; reflexivity.
Qed.

(** What a cycle logs, whatever the feed: events that were not seen before
    it and are seen after it, with significant codes, no identifier
    twice. *)
Lemma run_cycle_logs_fresh cfg w s n s' :
  run_cycle cfg w s = (Ok n, s') ->
  exists new,
    execution_log s' = execution_log s ++ new /\
    seen_flares s ⊆ seen_flares s' /\
    NoDup (map log_flare_id new) /\
    Forall (fun e => (log_flare_id e ∉ seen_flares s) /\
                     (log_flare_id e ∈ seen_flares s') /\
                     leading_MX (log_class e) = true) new.
Proof.
  intros Hrun.
  destruct (run_cycle_shape cfg w s)
    as (n0 & s0 & out & s1 & new & Hrun0 & Hexec & Hs & _ & Hlog & Hout).
  rewrite Hrun in Hrun0. injection Hrun0 as <- <-.
  exists new. split; [exact Hlog|].
  destruct (execute_distinct cfg w (tick s) out s1 Hexec) as [Hnd _].
  apply execute_inv in Hexec as (Hsub & _ & _ & Hctx). cbn in Hsub, Hctx.
  rewrite Hs. split; [exact Hsub|].
  destruct out as [ctxs|e]; [|destruct Hout as [-> _]; split; constructor].
  destruct Hout as [Hall _].
  destruct (Forall2_take_ids new ctxs Hall) as [Hids _].
  split.
  - rewrite Hids. cbn in Hnd. eapply sublist_NoDup; [exact Hnd | apply sublist_take].
  - specialize (Hctx ctxs eq_refl).
    assert (Htake : Forall (fun c => (ctx_id c ∉ seen_flares s) /\
                      (ctx_id c ∈ seen_flares s1) /\
                      leading_MX (class_type (flare c)) = true) (take (length new) ctxs))
      by (apply Forall_take, Hctx).
    clear -Hall Htake. induction Hall as [|e c new l (_ & Hid & Hcl) _ IH]; [constructor|].
    apply Forall_cons in Htake as [Hc Htake]. constructor; [|auto].
    unfold ctx_id in Hc. rewrite Hid, Hcl. exact Hc.
Qed.

(** *** The life of a system *)

Lemma run_cycle_pair cfg w s :
  exists n, run_cycle cfg w s = (Ok n, (run_cycle cfg w s).2).
Proof.
  destruct (run_cycle_never_raises cfg w s) as (n & s' & new & H & _).
  exists n. rewrite H. reflexivity.
Qed.

(** An identifier that is in the seen-set is never logged again. *)
Lemma cycles_seen_not_logged cfg ws : forall s I,
  I ∈ seen_flares s -> I ∈ logged_ids (cycles cfg ws s) -> I ∈ logged_ids s.
Proof.
  induction ws as [|w ws IH]; intros s I Hseen Hlog; [exact Hlog|].
  cbn [cycles] in Hlog.
  destruct (run_cycle_pair cfg w s) as [n Hrun].
  destruct (run_cycle_logs_fresh cfg w s n _ Hrun) as (new & Hnew & Hsub & _ & Hall).
  apply IH in Hlog; [|apply Hsub, Hseen].
  unfold logged_ids in Hlog |- *. rewrite Hnew, map_app in Hlog.
  apply elem_of_app in Hlog as [Hlog | Hlog]; [exact Hlog|].
  apply list_elem_of_fmap in Hlog as (e & -> & He).
  rewrite Forall_forall in Hall. destruct (Hall e He) as [Hnot _]. contradiction.
Qed.

Lemma run_cycle_log_consistent cfg w s :
  log_consistent s -> log_consistent (run_cycle cfg w s).2.
Proof.
  intros [Hnd Hall].
  destruct (run_cycle_pair cfg w s) as [n Hrun].
  destruct (run_cycle_logs_fresh cfg w s n _ Hrun) as (new & Hnew & Hsub & Hndnew & Hnewall).
  unfold log_consistent, logged_ids. rewrite Hnew, map_app. split.
  - apply NoDup_app. split; [exact Hnd|]. split; [|exact Hndnew].
    intros I HI HI'.
    apply list_elem_of_fmap in HI as (e & -> & He).
    apply list_elem_of_fmap in HI' as (e' & Heq & He').
    rewrite Forall_forall in Hall, Hnewall.
    destruct (Hall e He) as [Hin _]. destruct (Hnewall e' He') as [Hnot _].
    rewrite <- Heq in Hnot. contradiction.
  - apply Forall_app. split.
    + eapply Forall_impl; [exact Hall|]. cbn. intros e [H1 H2]. split; [apply Hsub, H1 | exact H2].
    + eapply Forall_impl; [exact Hnewall|]. cbn. intros e (_ & H1 & H2). auto.
Qed.

Lemma cycles_log_consistent cfg ws : forall s,
  log_consistent s -> log_consistent (cycles cfg ws s).
Proof.
  induction ws as [|w ws IH]; intros s Hs; [exact Hs|].
  cbn [cycles]. apply IH, run_cycle_log_consistent, Hs.
Qed.

(** X5.  Over the life of a system, whatever the worlds of its cycles,
    the log never holds the same event identifier twice, and every
    logged event is in the seen-set and has a code that starts with [M]
    or [X]. *)
Theorem execution_log_never_repeats cfg ws :
  let s := cycles cfg ws init_state in
  NoDup (logged_ids s) /\
  Forall (fun e => log_flare_id e ∈ seen_flares s /\ leading_MX (log_class e) = true)
    (execution_log s).
Proof.
  apply cycles_log_consistent. split; constructor.
Qed.

Lemma detect_loop_app l1 : forall l2 acc s,
  Agent1Monitor.detect_loop acc (l1 ++ l2) s =
  match Agent1Monitor.detect_loop acc l1 s with
  | (Ok acc', s1) => Agent1Monitor.detect_loop acc' l2 s1
  | (Raise e, s1) => (Raise e, s1)
  end.
Proof.
  induction l1 as [|r l1 IH]; intros l2 acc s; [reflexivity|].
  cbn [app Agent1Monitor.detect_loop]. unfold bind.
  destruct (Agent1Monitor.detect_one acc r s) as [[acc1|e] s1]; [apply IH | reflexivity].
Qed.

Lemma NoDup_app_last_notin {A} (l : list A) (x : A) :
  NoDup (l ++ [x]) -> x ∉ l.
Proof.
  intros Hnd Hx. apply NoDup_app in Hnd as (_ & Hnd & _). apply (Hnd x Hx). constructor.
Qed.

Lemma filter_ids_subset (P : FlareData -> Prop) `{!forall r, Decision (P r)} l I :
  I ∈ map rec_id (filter P l) -> I ∈ map rec_id l.
Proof.
  intros HI. apply list_elem_of_fmap in HI as (r & -> & Hr).
  apply list_elem_of_filter in Hr as [_ Hr]. apply list_elem_of_fmap_2, Hr.
Qed.

(** X6.  A record the Monitor cannot read (a classification code that
    is not a string, or a significant record whose linked events cannot
    be listed) aborts the scan: the cycle returns 0, logs nothing and
    leaves [last_check_time] alone, but the significant records scanned
    before it stay in the seen-set, so no later cycle ever logs them. *)
Theorem unreadable_record_loses_flares cfg w s pre bad post :
  feed_returns w (pre ++ bad :: post) ->
  Forall readable pre -> NoDup (map rec_id (pre ++ [bad])) ->
  rec_id bad ∉ seen_flares s -> unreadable bad ->
  let lost := map rec_id (filter (emits (seen_flares s)) pre) in
  exists s',
    run_cycle cfg w s = (Ok O, s') /\
    execution_log s' = execution_log s /\
    last_check_time s' = last_check_time s /\
    seen_flares s' = list_to_set lost ∪ seen_flares s /\
    forall cfg' ws I,
      I ∈ lost -> I ∈ logged_ids (cycles cfg' ws s') -> I ∈ logged_ids s.
Proof.
  intros Hfeed Hread Hnd Hbad Hun lost.
  assert (Hexec : exists e s1,
    Agent1Monitor.execute cfg w (tick s) = (Raise e, s1) /\
    execution_log s1 = execution_log s /\ last_check_time s1 = last_check_time s /\
    seen_flares s1 = list_to_set lost ∪ seen_flares s).
  { destruct (execute_unfold cfg w (tick s)) as (fetched & Hf & H).
    rewrite (fetch_feed_returns cfg w _ (tick s) Hfeed) in Hf. injection Hf as <-.
    rewrite detect_loop_app in H.
    assert (Hnd' : NoDup (map rec_id pre)).
    { rewrite map_app in Hnd. apply NoDup_app in Hnd as [Hnd _]. exact Hnd. }
    rewrite (detect_loop_exact pre [] (tick (tick s)) Hread Hnd') in H.
    cbn [tick seen_flares app] in H. fold lost in H.
    cbn [Agent1Monitor.detect_loop] in H. unfold bind in H.
    rewrite detect_one_eq in H. cbn [with_seen seen_flares] in H.
    rewrite bool_decide_eq_false_2 in H.
    2: { intros Hin. apply elem_of_union in Hin as [Hin | Hin]; [|contradiction].
         apply elem_of_list_to_set in Hin. apply filter_ids_subset in Hin.
         rewrite map_app in Hnd. apply NoDup_app_last_notin in Hnd. contradiction. }
    destruct Hun as [Hun | (c & e & Hc & Hmx & He)].
    - destruct (rec_class bad) as [| |c] eqn:Hc; [| |destruct (Hun c eq_refl)];
        (eexists _, _; split; [exact H|]; cbn; auto).
    - rewrite Hc, Hmx, He in H. eexists _, _. split; [exact H|]. cbn; auto. }
  destruct Hexec as (e & s1 & Hexec & Hlog & Hlast & Hseen).
  exists s1. rewrite run_cycle_unfold, Hexec. repeat split; auto.
  intros cfg' ws I HI Hlogged.
  apply cycles_seen_not_logged in Hlogged.
  - unfold logged_ids in Hlogged |- *. rewrite Hlog in Hlogged. exact Hlogged.
  - rewrite Hseen. apply elem_of_union_l, elem_of_list_to_set, HI.
Qed.


Lemma filter_none {A} (P : A -> Prop) `{!forall x, Decision (P x)} (l : list A) :
  Forall (fun x => ~ P x) l -> filter P l = [].
Proof.
  induction 1 as [|x l Hx _ IH]; [reflexivity|].
  rewrite filter_cons_False by exact Hx. exact IH.
Qed.

Lemma filter_emits_after (seen : gset pyval) (data : list FlareData) :
  filter (emits (list_to_set (map rec_id (filter (emits seen) data)) ∪ seen)) data = [].
Proof.
  apply filter_none, Forall_forall. intros r Hr [Hcls Hnot].
  destruct (decide (rec_id r ∈ seen)) as [Hin | Hnin].
  - apply Hnot, elem_of_union_r, Hin.
  - apply Hnot, elem_of_union_l, elem_of_list_to_set, list_elem_of_fmap_2.
    apply list_elem_of_filter. split; [split; assumption | exact Hr].
Qed.

(** X7.  A cycle on a readable feed, followed by a cycle on the same
    feed: the second returns 0 and changes neither the log nor the
    seen-set, whether or not the first one went through. *)
Theorem repeated_feed_yields_nothing cfg w1 w2 s data :
  feed_returns w1 data -> feed_returns w2 data ->
  Forall readable data -> NoDup (map rec_id data) ->
  exists n s1 s2,
    run_cycle cfg w1 s = (Ok n, s1) /\
    run_cycle cfg w2 s1 = (Ok O, s2) /\
    execution_log s2 = execution_log s1 /\ seen_flares s2 = seen_flares s1.
Proof.
  intros Hf1 Hf2 Hread Hnd.
  destruct (run_cycle_shape cfg w1 s)
    as (n & s1 & out & s0 & new & Hrun & Hexec & Hs & _ & _ & _).
  destruct (execute_readable cfg w1 (tick s) data Hf1 Hread Hnd)
    as (ctxs & s0' & Hexec' & _ & _ & Hseen).
  rewrite Hexec in Hexec'. injection Hexec' as -> <-.
  cbn [tick seen_flares] in Hseen.
  destruct (execute_readable cfg w2 (tick s1) data Hf2 Hread Hnd)
    as (ctxs2 & s2 & Hexec2 & Hfl2 & _ & Hseen2).
  cbn [tick seen_flares] in Hfl2, Hseen2.
  rewrite Hs, Hseen, filter_emits_after in Hfl2, Hseen2.
  destruct ctxs2 as [|c ?]; [|discriminate].
  exists n, s1, s2. split; [exact Hrun|].
  rewrite run_cycle_unfold, Hexec2. split; [reflexivity|].
  apply execute_inv in Hexec2 as (_ & Hlog & _). cbn in Hlog.
  split; [exact Hlog|]. rewrite Hseen2, Hs, Hseen. cbn. set_solver.
Qed.

Lemma well_typed_readable r : well_typed r -> readable r.
Proof. intros [H _]. exact H. Qed.

(** X8.  When the feed holds a significant record whose peak time is
    not a string, the cycle returns 0 and logs only the events before it;
    that event and the new events after it are in the seen-set all the
    same, and no later cycle logs them. *)
Theorem unparsable_peak_time_drops_the_rest cfg w s pre bad post :
  feed_returns w (pre ++ bad :: post) ->
  Forall well_typed pre -> readable bad -> emits (seen_flares s) bad ->
  (forall p, dict_get_default (fields bad) "peakTime" (PStr "") <> PStr p) ->
  Forall readable post -> NoDup (map rec_id (pre ++ bad :: post)) ->
  let dropped := map rec_id (filter (emits (seen_flares s)) (bad :: post)) in
  exists s' new,
    run_cycle cfg w s = (Ok O, s') /\
    execution_log s' = execution_log s ++ new /\
    map log_flare_id new = map rec_id (filter (emits (seen_flares s)) pre) /\
    (forall I, I ∈ dropped -> I ∈ seen_flares s') /\
    forall cfg' ws I,
      I ∈ dropped -> I ∉ logged_ids s -> I ∉ logged_ids (cycles cfg' ws s').
Proof.
  intros Hfeed Hpre Hbad Hem Hpeak Hpost Hnd dropped.
  assert (Hread : Forall readable (pre ++ bad :: post)).
  { apply Forall_app. split; [|constructor; assumption].
    eapply Forall_impl; [exact Hpre | exact well_typed_readable]. }
  destruct (execute_readable cfg w (tick s) _ Hfeed Hread Hnd)
    as (ctxs & s1 & Hexec & Hfl & _ & Hseen).
  cbn [tick seen_flares] in Hfl, Hseen.
  rewrite filter_app, fmap_app in Hfl.
  rewrite filter_cons_True in Hfl by exact Hem. cbn [fmap list_fmap] in Hfl.
  apply fmap_app_inv in Hfl as (cpre & crest & Hcpre & Hcrest & ->).
  destruct crest as [|cbad cpost]; [discriminate|].
  cbn [fmap list_fmap] in Hcrest. injection Hcrest as Hcbad Hcpost.
  assert (Hok : Forall (fun c => exists p, peak_time (flare c) = PStr p) cpre).
  { clear -Hcpre Hpre. revert cpre Hcpre.
    induction pre as [|r pre IH]; intros cpre Hcpre.
    - destruct cpre; [constructor | discriminate].
    - apply Forall_cons in Hpre as [Hr Hpre]. specialize (IH Hpre).
      destruct (decide (emits (seen_flares s) r)) as [Hr' | Hr'].
      + rewrite filter_cons_True in Hcpre by exact Hr'.
        destruct cpre as [|c cpre]; [discriminate|]. injection Hcpre as Hc Hcpre.
        constructor; [|apply IH, Hcpre].
        destruct Hr as [_ [p Hp]]. exists p. rewrite <- Hc. exact Hp.
      + rewrite filter_cons_False in Hcpre by exact Hr'. apply IH, Hcpre. }
  assert (Hraise : forall p, peak_time (flare cbad) <> PStr p).
  { intros p. rewrite <- Hcbad. apply Hpeak. }
  destruct (for_each_process_stop cfg w cpre cpost cbad s1 Hok Hraise)
    as (new & s2 & Hloop & Hs2 & _ & Hlog2 & Hsum).
  assert (Hlog1 : execution_log s1 = execution_log s).
  { apply execute_inv in Hexec as (_ & H1 & _). exact H1. }
  assert (Hdrop : forall I, I ∈ dropped -> I ∈ seen_flares s2).
  { intros I HI. rewrite Hs2, Hseen, filter_app, fmap_app.
    apply elem_of_union_l, elem_of_list_to_set, elem_of_app. right. exact HI. }
  exists s2, new. rewrite run_cycle_unfold, Hexec.
  destruct (cpre ++ cbad :: cpost) as [|c0 l0] eqn:Hl; [destruct cpre; discriminate|].
  rewrite Hloop. split; [reflexivity|]. rewrite Hlog2, Hlog1. split; [reflexivity|].
  assert (Hids : map log_flare_id new = map rec_id (filter (emits (seen_flares s)) pre)).
  { rewrite <- map_flare_of_id. change (map flare_of) with (fmap (M:=list) flare_of).
    rewrite Hcpre. clear -Hsum. induction Hsum as [|e c new l (_ & Hid & _) _ IH]; [reflexivity|].
    cbn. rewrite Hid. f_equal. exact IH. }
  split; [exact Hids|]. split; [exact Hdrop|].
  intros cfg' ws I HI Hnot Hlogged.
  apply cycles_seen_not_logged in Hlogged; [|apply Hdrop, HI].
  unfold logged_ids in Hlogged, Hnot. rewrite Hlog2, Hlog1, map_app in Hlogged.
  apply elem_of_app in Hlogged as [Hin | Hin]; [contradiction|].
  rewrite Hids in Hin. apply filter_ids_subset in Hin.
  apply filter_ids_subset in HI.
  rewrite map_app in Hnd. apply NoDup_app in Hnd as (_ & Hdisj & _).
  exact (Hdisj I Hin HI).
Qed.

(** *** The pipeline behind the Monitor *)

(** The Notifier on a context that has a report. *)
Lemma notifier_execute_report cfg w ctx s r :
  report ctx = Some r -> r <> "" ->
  exists m,
    Agent4Notifier.execute cfg w ctx s = (Ok (set_notification_results ctx m), tick s) /\
    dom m = configured_channels cfg /\
    m !! "console" = Some (Agent4Notifier._notify_console w r) /\
    m !! "file" = Some (file_outcome w r (flare ctx) s) /\
    m !! "email"
    = match email_config cfg with
      | Some ec => if dict_set (Some ec)
                   then Some (Agent4Notifier._send_email w ec r (flare ctx)) else None
      | None => None
      end.
Proof.
  intros Hr Hne. unfold Agent4Notifier.execute, configured_channels.
  rewrite Hr. apply String.eqb_neq in Hne. rewrite Hne.
  unfold bind. rewrite save_to_file_eq.
  destruct (email_config cfg) as [ec|]; [destruct (dict_set (Some ec))|];
    eexists; (split; [reflexivity|]); rewrite ?dom_insert_L, ?dom_empty_L;
    (split; [set_solver|]); repeat split; reflexivity.
Qed.

(** The body of the loop, when it returns: the entry it logs carries an
    outcome for every configured channel. *)
Lemma process_outcomes cfg w ctx s s' :
  process cfg w ctx s = (Ok tt, s') ->
  exists e m,
    execution_log s' = execution_log s ++ [e] /\
    log_notifications e = Some m /\ dom m = configured_channels cfg.
Proof.
  unfold process, bind.
  destruct (analyst_execute_cases cfg w ctx s) as [[a ->] | ->]; [|discriminate].
  destruct (writer_execute_ok cfg w (set_analysis_data ctx a) (tick s)) as (r & -> & Hne).
  destruct (notifier_execute_report cfg w (set_report (set_analysis_data ctx a) r)
              (tick (tick s)) r eq_refl Hne) as (m & -> & Hdom & _).
  intros [= <-]. eexists _, m. repeat split; auto.
Qed.

Lemma for_each_outcomes cfg w ctxs : forall s out s',
  for_each ctxs (process cfg w) s = (out, s') ->
  exists new,
    execution_log s' = execution_log s ++ new /\
    Forall (fun e => exists m, log_notifications e = Some m /\
                               dom m = configured_channels cfg) new.
Proof.
  induction ctxs as [|c ctxs IH]; intros s out s'.
  - intros [= <- <-]. exists []. rewrite app_nil_r. split; [reflexivity | constructor].
  - cbn [for_each]. unfold bind.
    destruct (process cfg w c s) as [[[]|e] s1] eqn:Hp.
    + apply process_outcomes in Hp as (e & m & Hlog & Hm & Hdom).
      intros Hloop. apply IH in Hloop as (new & Hnew & Hall).
      exists (e :: new). rewrite Hnew, Hlog, <- app_assoc. split; [reflexivity|].
      constructor; [exists m; auto | exact Hall].
    + intros [= <- <-].
      destruct (process_cases cfg w c s) as [(e' & s2 & Hp' & _) | [Hp' _]];
        rewrite Hp' in Hp; [discriminate|]. injection Hp as <- <-.
      exists []. rewrite app_nil_r. split; [reflexivity | constructor].
Qed.

Lemma run_cycle_log_notified cfg w s :
  log_notified cfg s -> log_notified cfg (run_cycle cfg w s).2.
Proof.
  intros Hs. unfold log_notified. rewrite run_cycle_unfold.
  destruct (Agent1Monitor.execute cfg w (tick s)) as [out s1] eqn:Hexec.
  assert (Hlog : execution_log s1 = execution_log s).
  { apply execute_inv in Hexec as (_ & H1 & _). exact H1. }
  destruct out as [[|c ctxs]|e]; cbn [snd]; try (rewrite Hlog; exact Hs).
  destruct (for_each (c :: ctxs) (process cfg w) s1) as [out2 s2] eqn:Hloop.
  apply for_each_outcomes in Hloop as (new & Hnew & Hall).
  assert (Hgoal : Forall (fun e => exists m, log_notifications e = Some m /\
                             dom m = configured_channels cfg) (execution_log s2)).
  { rewrite Hnew, Hlog. apply Forall_app. split; assumption. }
  destruct out2 as [[]|e]; exact Hgoal.
Qed.

(** X9.  Over the life of a system every logged event carries an
    outcome map, with an outcome for the console and for the file, and
    its keys are exactly the configured channels: inside the pipeline the
    Notifier never takes its no-report exit. *)
Theorem logged_events_carry_every_channel cfg ws :
  Forall (fun e => exists m, log_notifications e = Some m /\
                             dom m = configured_channels cfg /\
                             is_Some (m !! "console") /\ is_Some (m !! "file"))
    (execution_log (cycles cfg ws init_state)).
Proof.
  assert (H : log_notified cfg (cycles cfg ws init_state)).
  { generalize init_state, (Forall_nil_2 (fun e : LogEntry => exists m, log_notifications e = Some m /\
                             dom m = configured_channels cfg)  : log_notified cfg init_state).
    induction ws as [|w ws IH]; intros s Hs; [exact Hs|].
    cbn [cycles]. apply IH, run_cycle_log_notified, Hs. }
  eapply Forall_impl; [exact H|]. cbn. intros e (m & Hm & Hdom).
  exists m. split; [exact Hm|]. split; [exact Hdom|].
  rewrite <- !elem_of_dom, Hdom. unfold configured_channels.
  destruct (dict_set (email_config cfg)); split; set_solver.
Qed.

(** X10.  The channels [_notification_channels] announces are the ones
    the Notifier records: on a context with a report the outcome map has
    an e-mail outcome exactly when the announcement names Email, and
    always the console and the file. *)
Theorem announced_channels_are_notified cfg w ctx s r :
  report ctx = Some r -> r <> "" ->
  exists m s',
    Agent4Notifier.execute cfg w ctx s = (Ok (set_notification_results ctx m), s') /\
    (is_Some (m !! "email")
     <-> Reporting._notification_channels cfg = "Console, File, Email") /\
    (m !! "email" = None
     <-> Reporting._notification_channels cfg = "Console, File") /\
    is_Some (m !! "console") /\ is_Some (m !! "file").
Proof.
  intros Hr Hne.
  destruct (notifier_execute_report cfg w ctx s r Hr Hne)
    as (m & Hexec & _ & Hc & Hf & He).
  exists m, (tick s). split; [exact Hexec|].
  rewrite Hc, Hf, He. unfold Reporting._notification_channels.
  destruct (email_config cfg) as [ec|]; [destruct (dict_set (Some ec))|]; cbn;
    repeat split; eauto; try discriminate; intros H; try (destruct H; discriminate); discriminate.
Qed.

(** X11.  With a Gemini key configured and every call of Gemini failing,
    the Analyst stores the empty string as the analysis, not the fallback
    sentence, and the Report Writer falls back to the template report
    built around it. *)
Theorem gemini_outage_leaves_analysis_empty cfg w ctx s p :
  key_set (gemini_api_key cfg) = true ->
  (forall key prompt temperature, gemini_post w key prompt temperature = None) ->
  peak_time (flare ctx) = PStr p ->
  exists a r,
    Agent2Analyst.execute cfg w ctx s = (Ok (set_analysis_data ctx a), tick s) /\
    gemini_analysis a = "" /\
    gemini_analysis a <> Agent2Analyst._fallback_analysis (flare ctx) /\
    Agent3ReportWriter.execute cfg w (set_analysis_data ctx a) (tick s)
      = (Ok (set_report (set_analysis_data ctx a) r), tick (tick s)) /\
    Agent3ReportWriter._generate_template_report w (set_analysis_data ctx a) (tick s)
      = (Ok r, tick (tick s)).
Proof.
  intros Hkey Hdown Hp.
  assert (Hcall : forall prompt t, BaseAgent.call_gemini cfg w prompt t = "").
  { intros prompt t. unfold BaseAgent.call_gemini.
    destruct (gemini_api_key cfg) as [key|]; [|reflexivity].
    rewrite Hdown. destruct (negb (String.eqb key "")); reflexivity. }
  destruct (analyst_execute_ok cfg w ctx s p Hp) as (a & Hexec & Hg & _).
  assert (Ha : gemini_analysis a = "").
  { rewrite Hg. unfold Agent2Analyst._analyze_with_gemini. rewrite Hkey. apply Hcall. }
  destruct (template_report_ok w (set_analysis_data ctx a) (tick s)) as (r & Hr & _).
  exists a, r. split; [exact Hexec|]. split; [exact Ha|].
  split; [rewrite Ha; unfold Agent2Analyst._fallback_analysis; cbn; discriminate|].
  split; [|exact Hr].
  unfold Agent3ReportWriter.execute, bind. cbn [analysis_data set_analysis_data].
  rewrite Hkey. unfold Agent3ReportWriter._generate_gemini_report.
  rewrite Hcall. cbn [negb String.eqb]. cbn [flare set_analysis_data] in Hr |- *.
  rewrite Hr. reflexivity.
Qed.

(** X12.  What the Monitor returns the Analyst never assesses as minor:
    the severity level is 2 or 3, the assessment is SEVERE for an X code
    and MODERATE otherwise, and the impact list has four entries, never
    the single entry of the other classes. *)
Theorem emitted_flares_are_moderate_or_severe cfg w s ctxs s' :
  Agent1Monitor.execute cfg w s = (Ok ctxs, s') ->
  Forall (fun c =>
    let f := flare c in
    (2 <= severity_level f <= 3) /\
    level (Agent2Analyst._assess_severity f)
    = (if startswith (class_type f) "X" then "SEVERE" else "MODERATE") /\
    length (Agent2Analyst._determine_impacts f) = 4%nat /\
    Agent2Analyst._determine_impacts f <> ["Minimal impact expected"]) ctxs.
Proof.
  intros Hexec. apply execute_inv in Hexec as (_ & _ & _ & Hctx).
  eapply Forall_impl; [exact (Hctx ctxs eq_refl)|]. cbn.
  intros c (_ & _ & Hmx).
  unfold leading_MX in Hmx. unfold Agent2Analyst._assess_severity, severity_level,
    Agent2Analyst._determine_impacts.
  rewrite !startswith_char.
  destruct (first_char (class_type (flare c))) as [l|]; [|discriminate]. cbn [from_option id].
  rewrite (Ascii.eqb_sym "X" l), (Ascii.eqb_sym "M" l), (Ascii.eqb_sym "C" l).
  destruct (Ascii.eqb l "X") eqn:EX.
  - cbn. repeat split; try lia; try reflexivity; discriminate.
  - rewrite orb_false_r in Hmx. rewrite Hmx. cbn. repeat split; try lia; try reflexivity; discriminate.
Qed.

(** *** The magnitude of a classification code *)

Lemma digit_digit_char d : (d < 10)%nat -> digit (digit_char d) = Some (Z.of_nat d).
Proof.
  intros Hd. do 10 (destruct d as [|d]; [vm_compute; reflexivity|]). exfalso. lia.
Qed.

Lemma is_space_digit_char d : (d < 10)%nat -> is_space (digit_char d) = false.
Proof.
  intros Hd. do 10 (destruct d as [|d]; [vm_compute; reflexivity|]). exfalso. lia.
Qed.

Lemma lower_digit_char d : (d < 10)%nat -> lower (digit_char d) = digit_char d.
Proof.
  intros Hd. do 10 (destruct d as [|d]; [vm_compute; reflexivity|]). exfalso. lia.
Qed.

Lemma digit_char_not (c : ascii) d :
  (d < 10)%nat -> digit c = None -> Ascii.eqb (digit_char d) c = false.
Proof.
  intros Hd Hc. apply Ascii.eqb_neq. intros Heq. subst c.
  rewrite digit_digit_char in Hc by exact Hd. discriminate.
Qed.

(** The digits of a digit part are read up to a character that is neither
    a digit nor an underscore. *)
Lemma more_digits_text ds : forall acc n rest,
  are_digits ds ->
  match rest with
  | [] => True
  | c :: _ => digit c = None /\ Ascii.eqb c "_" = false
  end ->
  more_digits acc n (digits_text ds ++ rest)
  = (digits_value acc ds, (n + length ds)%nat, rest).
Proof.
  induction ds as [|d ds IH]; intros acc n rest Hds Hrest.
  - cbn [digits_text map app digits_value fold_left length]. rewrite Nat.add_0_r.
    destruct rest as [|c rest]; [reflexivity|]. destruct Hrest as [Hc Hu].
    cbn [more_digits]. rewrite Hc, Hu. reflexivity.
  - apply Forall_cons in Hds as [Hd Hds].
    cbn [digits_text map app more_digits]. rewrite (digit_digit_char d Hd).
    fold (digits_text ds). rewrite (IH _ _ rest Hds Hrest).
    cbn [digits_value fold_left length]. f_equal. f_equal. lia.
Qed.

Lemma digitpart_text d ds acc rest :
  are_digits (d :: ds) ->
  match rest with
  | [] => True
  | c :: _ => digit c = None /\ Ascii.eqb c "_" = false
  end ->
  digitpart acc (digits_text (d :: ds) ++ rest)
  = Some (digits_value acc (d :: ds), S (length ds), rest).
Proof.
  intros Hds Hrest. assert (Hd : (d < 10)%nat) by (apply Forall_cons in Hds as [H _]; exact H).
  cbn [digits_text map app digitpart]. rewrite (digit_digit_char d Hd).
  fold (digits_text ds). apply Forall_cons in Hds as [_ Hds].
  rewrite (more_digits_text ds _ 1 rest Hds Hrest). reflexivity.
Qed.

Lemma digits_value_bounds ds : forall acc,
  are_digits ds -> 0 <= acc ->
  acc * 10 ^ Z.of_nat (length ds) <= digits_value acc ds
  < (acc + 1) * 10 ^ Z.of_nat (length ds).
Proof.
  induction ds as [|d ds IH]; intros acc Hds Hacc.
  - cbn. lia.
  - apply Forall_cons in Hds as [Hd Hds].
    cbn [digits_value fold_left length].
    specialize (IH (10 * acc + Z.of_nat d) Hds ltac:(lia)).
    unfold digits_value in IH.
    rewrite Nat2Z.inj_succ, Z.pow_succ_r by lia.
    assert (0 < 10 ^ Z.of_nat (length ds)) by (apply Z.pow_pos_nonneg; lia).
    nia.
Qed.

Lemma digits_value_app a b acc :
  digits_value acc (a ++ b) = digits_value (digits_value acc a) b.
Proof. unfold digits_value. apply fold_left_app. Qed.

Lemma lstrip_head c s : is_space c = false -> lstrip (c :: s) = c :: s.
Proof. intros H. cbn. rewrite H. reflexivity. Qed.

Lemma strip_ends c s d :
  is_space c = false -> is_space d = false ->
  strip (c :: s ++ [d]) = c :: s ++ [d].
Proof.
  intros Hc Hd. unfold strip. rewrite lstrip_head by exact Hc.
  change (c :: s ++ [d]) with ((c :: s) ++ [d]).
  rewrite rev_app_distr. cbn [rev app]. rewrite lstrip_head by exact Hd.
  change (d :: rev s ++ [c]) with ([d] ++ rev (c :: s)).
  rewrite rev_app_distr, rev_involutive. reflexivity.
Qed.

Lemma strip_single c : is_space c = false -> strip [c] = [c].
Proof. intros Hc. unfold strip. cbn. rewrite Hc. cbn. rewrite Hc. reflexivity. Qed.

Lemma strip_decimal d a b :
  are_digits (d :: a) -> are_digits b ->
  strip (digits_text (d :: a) ++ "."%char :: digits_text b)
  = digits_text (d :: a) ++ "."%char :: digits_text b.
Proof.
  intros Ha Hb. unfold are_digits in Ha, Hb. apply Forall_cons in Ha as [Hd Ha].
  cbn [digits_text map app].
  destruct (List.exists_last (l := digits_text a ++ "."%char :: digits_text b))
    as (s & x & Hs); [destruct (digits_text a); discriminate|].
  fold (digits_text a) (digits_text b). rewrite Hs.
  apply strip_ends; [apply is_space_digit_char, Hd|].
  assert (Hx : x ∈ digits_text a ++ "."%char :: digits_text b).
  { rewrite Hs. apply elem_of_app. right. constructor. }
  apply elem_of_app in Hx as [Hx | Hx].
  - apply list_elem_of_fmap in Hx as (y & -> & Hy).
    rewrite Forall_forall in Ha. apply is_space_digit_char, Ha, Hy.
  - apply elem_of_cons in Hx as [-> | Hx]; [reflexivity|].
    apply list_elem_of_fmap in Hx as (y & -> & Hy).
    rewrite Forall_forall in Hb. apply is_space_digit_char, Hb, Hy.
Qed.

(** [float] of [a.b] is the decimal it reads. *)
Lemma float_decimal a b :
  a <> [] -> are_digits a -> are_digits b ->
  float (String.string_of_list_ascii (digits_text a ++ "."%char :: digits_text b))
  = Some (FDec (digits_value 0 (a ++ b)) (- Z.of_nat (length b))).
Proof.
  intros Hne Ha Hb. destruct a as [|d a]; [contradiction|].
  assert (Hd : (d < 10)%nat) by (apply Forall_cons in Ha as [H _]; exact H).
  unfold float. rewrite String.list_ascii_of_string_of_list_ascii.
  rewrite (strip_decimal d a b Ha Hb).
  assert (Hsign : sign (digits_text (d :: a) ++ "."%char :: digits_text b)
                  = (false, digits_text (d :: a) ++ "."%char :: digits_text b)).
  { cbn [digits_text map app sign].
    rewrite !(digit_char_not _ d Hd) by reflexivity. reflexivity. }
  rewrite Hsign.
  assert (Hword : forall word,
            first_char word <> Some (digit_char d) ->
            String.eqb (String.string_of_list_ascii
              (map lower (digits_text (d :: a) ++ "."%char :: digits_text b))) word = false).
  { intros word Hw. apply String.eqb_neq. intros Heq. apply Hw. rewrite <- Heq.
    cbn. rewrite (lower_digit_char d Hd). reflexivity. }
  assert (Hnot : forall c, digit c = None -> Some c <> Some (digit_char d)).
  { intros c Hc [= ->]. rewrite digit_digit_char in Hc by exact Hd. discriminate. }
  rewrite !Hword by (apply Hnot; reflexivity). cbn [orb].
  unfold number.
  rewrite (digitpart_text d a 0 ("."%char :: digits_text b) Ha) by (split; reflexivity).
  cbn [Ascii.eqb Bool.eqb].
  destruct b as [|e b].
  - cbn [digits_text map digitpart exponent length]. rewrite app_nil_r.
    reflexivity.
  - rewrite <- (app_nil_r (digits_text (e :: b))).
    rewrite (digitpart_text e b _ [] Hb I). cbn [exponent length].
    rewrite digits_value_app. reflexivity.
Qed.

Lemma ge_5_decimal a b :
  are_digits a -> are_digits b -> (length b <= 15)%nat ->
  ge_5 (FDec (digits_value 0 (a ++ b)) (- Z.of_nat (length b)))
  = (5 <=? digits_value 0 a).
Proof.
  intros Ha Hb Hlen. rewrite digits_value_app.
  assert (Hva : 0 <= digits_value 0 a).
  { destruct (digits_value_bounds a 0 Ha ltac:(lia)) as [H _]. lia. }
  destruct (digits_value_bounds b (digits_value 0 a) Hb Hva) as [Hlo Hhi].
  set (va := digits_value 0 a) in *. set (m := digits_value va b) in *.
  set (k := Z.of_nat (length b)) in *.
  assert (Hk : 0 <= k <= 15) by lia.
  assert (Hpow : 1 <= 10 ^ k <= 10 ^ 15).
  { split; [|apply Z.pow_le_mono_r; lia].
    assert (0 < 10 ^ k) by (apply Z.pow_pos_nonneg; lia). lia. }
  set (P := 10 ^ k) in *.
  assert (H15 : 10 ^ 15 < 2 ^ 51) by (vm_compute; reflexivity).
  set (T := 2 ^ 51) in *.
  assert (HT : 10 ^ 15 < T) by exact H15. clearbody T.
  change (10 ^ 15) with 1000000000000000 in *.
  unfold ge_5.
  destruct (Z.leb_spec 0 (- k)) as [Hz | Hnz].
  - assert (k = 0) by lia. assert (HP : P = 1) by (unfold P; rewrite H; reflexivity).
    replace (- k) with 0 by lia. rewrite Z.pow_0_r.
    destruct (Z.leb_spec 5 va); [apply Z.leb_le | apply Z.leb_gt]; nia.
  - rewrite Z.opp_involutive. fold P.
    destruct (Z.leb_spec 5 va); [apply Z.leb_le | apply Z.leb_gt]; nia.
Qed.

(** X13.  For a code made of a letter, an integer part and a fraction of
    at most fifteen digits, as [M5.3], the magnitude read is that decimal
    and the regions are the global ones exactly when the letter is [X] or
    the integer part is at least 5. *)
Theorem determine_regions_by_magnitude (f : SolarFlare) l a b :
  class_type f = decimal_class l a b ->
  a <> [] -> are_digits a -> are_digits b -> (length b <= 15)%nat ->
  Agent2Analyst.class_magnitude f
    = FDec (digits_value 0 (a ++ b)) (- Z.of_nat (length b)) /\
  (Agent2Analyst._determine_regions f = Agent2Analyst.global_regions
   <-> l = "X"%char \/ 5 <= digits_value 0 a) /\
  (Agent2Analyst._determine_regions f = Agent2Analyst.sunlit_regions
   <-> l <> "X"%char /\ digits_value 0 a < 5).
Proof.
  intros Hc Hne Ha Hb Hlen.
  assert (Hmag : Agent2Analyst.class_magnitude f
                 = FDec (digits_value 0 (a ++ b)) (- Z.of_nat (length b))).
  { unfold Agent2Analyst.class_magnitude. rewrite Hc. cbn [decimal_class tail_from_1].
    rewrite (float_decimal a b Hne Ha Hb). reflexivity. }
  split; [exact Hmag|].
  unfold Agent2Analyst._determine_regions. rewrite Hmag, (ge_5_decimal a b Ha Hb Hlen).
  rewrite Hc, startswith_char. cbn [decimal_class first_char].
  destruct (Ascii.eqb_spec "X" l) as [<- | Hl]; cbn [orb].
  - split.
    + split; [intros _; left; reflexivity | reflexivity].
    + split; [intros H; discriminate H | intros [H _]; contradiction].
  - assert (Hl' : l <> "X"%char) by congruence.
    destruct (Z.leb_spec 5 (digits_value 0 a)) as [H5 | H5];
      split; (split; [intros H | intros H]).
    + right; exact H5.
    + reflexivity.
    + discriminate H.
    + lia.
    + discriminate H.
    + destruct H as [-> | H]; [contradiction | lia].
    + split; assumption.
    + reflexivity.
Qed.

(** *** The summary *)

Lemma count_classes_lookup log : forall by_class c,
  default O (Reporting.count_classes log by_class !! c)
  = (default O (by_class !! c) + class_count c log)%nat.
Proof.
  induction log as [|e log IH]; intros by_class c.
  - cbn. lia.
  - cbn [Reporting.count_classes]. rewrite IH. unfold class_count.
    destruct (decide (log_class e = c)) as [Heq | Hne].
    + rewrite filter_cons_True by exact Heq. subst c. rewrite lookup_insert_eq. cbn. lia.
    + rewrite filter_cons_False by exact Hne. rewrite lookup_insert_ne by exact Hne. reflexivity.
Qed.

Lemma count_classes_dom log : forall by_class,
  dom (Reporting.count_classes log by_class)
  = dom by_class ∪ list_to_set (map log_class log).
Proof.
  induction log as [|e log IH]; intros by_class.
  - cbn. set_solver.
  - cbn [Reporting.count_classes]. rewrite IH, dom_insert_L. cbn. set_solver.
Qed.

Lemma class_count_cons c e log :
  class_count c (e :: log)
  = ((if decide (log_class e = c) then 1 else 0) + class_count c log)%nat.
Proof.
  unfold class_count. destruct (decide (log_class e = c)) as [Heq | Hne].
  - rewrite filter_cons_True by exact Heq. reflexivity.
  - rewrite filter_cons_False by exact Hne. reflexivity.
Qed.

Lemma sum_indicator (c : string) (cs : list string) :
  NoDup cs ->
  sum_list (map (fun x => if decide (c = x) then 1 else 0)%nat cs)
  = (if decide (c ∈ cs) then 1 else 0)%nat.
Proof.
  induction 1 as [|x cs Hx Hnd IH]; [reflexivity|].
  cbn [map sum_list]. rewrite IH.
  destruct (decide (c = x)) as [-> | Hne].
  - rewrite decide_False by exact Hx. rewrite decide_True by constructor. reflexivity.
  - destruct (decide (c ∈ cs)) as [Hin | Hnin].
    + rewrite decide_True by (constructor; exact Hin). reflexivity.
    + rewrite decide_False; [reflexivity|]. intros Hc. apply elem_of_cons in Hc as [?|?]; contradiction.
Qed.

Lemma sum_class_counts (cs : list string) : forall log,
  NoDup cs -> Forall (fun e => log_class e ∈ cs) log ->
  sum_list (map (fun c => class_count c log) cs) = length log.
Proof.
  intros log Hnd. induction 1 as [|e log He _ IH].
  - induction cs as [|c cs IHc]; [reflexivity|]. cbn.
    apply NoDup_cons in Hnd as [_ Hnd]. exact (IHc Hnd).
  - cbn [length]. rewrite <- IH.
    transitivity (sum_list (map (fun x => if decide (log_class e = x) then 1 else 0)%nat cs)
                  + sum_list (map (fun c => class_count c log) cs))%nat.
    + clear. induction cs as [|c cs IHc]; [reflexivity|].
      cbn [map sum_list]. rewrite IHc, class_count_cons.
      destruct (decide (log_class e = c)); unfold id; lia.
    + rewrite (sum_indicator _ cs Hnd), decide_True by exact He. reflexivity.
Qed.

(** X14.  [_print_summary] prints the length of the log, and when the
    log is not empty one line per classification code of the log, each
    with the number of entries of that code, in descending order of the
    codes and without repetition; the numbers add up to the length of
    the log. *)
Theorem print_summary_counts (s : State) :
  let log := execution_log s in
  exists classes,
    StronglySorted (fun a b => String.le b a) classes /\ NoDup classes /\
    (forall c, c ∈ classes <-> exists e, e ∈ log /\ log_class e = c) /\
    Forall (fun c => (0 < class_count c log)%nat) classes /\
    sum_list (map (fun c => class_count c log) classes) = length log /\
    Reporting._print_summary s
    = [ nl +:+ rule_eq; "EXECUTION SUMMARY"; rule_eq;
        "Total flares processed: " +:+ str_of_nat (length log) ]
      ++ match log with
         | [] => []
         | _ => (nl +:+ "Flares by classification:")
                :: map (fun c => "  " +:+ c +:+ ": " +:+ str_of_nat (class_count c log)) classes
         end
      ++ [ rule_eq +:+ nl ].
Proof.
  intros log.
  set (by_class := Reporting.count_classes log ∅).
  exists (Reporting.sorted_classes by_class).
  assert (Hperm : Reporting.sorted_classes by_class ≡ₚ elements (dom by_class))
    by apply merge_sort_Permutation.
  assert (Hmem : forall c, c ∈ Reporting.sorted_classes by_class
                           <-> exists e, e ∈ log /\ log_class e = c).
  { intros c. rewrite Hperm, elem_of_elements. unfold by_class.
    rewrite count_classes_dom, dom_empty_L, elem_of_union, elem_of_list_to_set.
    rewrite list_elem_of_fmap. split.
    - intros [Hc | (e & -> & He)]; [set_solver | eauto].
    - intros (e & He & <-). right. eauto. }
  assert (Hnd : NoDup (Reporting.sorted_classes by_class)).
  { rewrite Hperm. apply NoDup_elements. }
  split; [apply (StronglySorted_merge_sort Reporting.str_ge)|].
  split; [exact Hnd|]. split; [exact Hmem|].
  split.
  { apply Forall_forall. intros c Hc. apply Hmem in Hc as (e & He & Hcls).
    unfold class_count. 
    assert (Hin : e ∈ filter (fun e => log_class e = c) log)
      by (apply list_elem_of_filter; auto).
    destruct (filter (fun e => log_class e = c) log); [inversion Hin | cbn; lia]. }
  split.
  { apply sum_class_counts; [exact Hnd|]. apply Forall_forall. intros e He.
    apply Hmem. eauto. }
  unfold Reporting._print_summary. fold log. f_equal. f_equal.
  destruct log as [|e0 log0] eqn:Hlog; [reflexivity|]. fold by_class. f_equal.
  apply map_ext. intros c. unfold Reporting.class_line, by_class.
  rewrite count_classes_lookup, lookup_empty. reflexivity.
Qed.

(** *** The configuration and the Cloud Run handler *)

Lemma strip_digits ds :
  are_digits ds -> strip (digits_text ds) = digits_text ds.
Proof.
  intros Hds. unfold are_digits in Hds.
  destruct ds as [|d ds]; [reflexivity|].
  apply Forall_cons in Hds as [Hd Hds].
  destruct ds as [|d' ds].
  - apply strip_single, is_space_digit_char, Hd.
  - destruct (List.exists_last (l := digits_text (d' :: ds))) as (s & x & Hs); [discriminate|].
    change (digits_text (d :: d' :: ds)) with (digit_char d :: digits_text (d' :: ds)).
    rewrite Hs.
    apply strip_ends; [apply is_space_digit_char, Hd|].
    assert (Hx : x ∈ digits_text (d' :: ds)) by (rewrite Hs; apply elem_of_app; right; constructor).
    apply list_elem_of_fmap in Hx as (y & -> & Hy).
    rewrite Forall_forall in Hds. apply is_space_digit_char, Hds, Hy.
Qed.

(** [int] of a number written in digits. *)
Lemma py_int_digits limit ds :
  ds <> [] -> are_digits ds ->
  py_int limit (String.string_of_list_ascii (digits_text ds))
  = if ((0 <? limit) && (limit <? length ds))%nat then None
    else Some (digits_value 0 ds).
Proof.
  intros Hne Hds. unfold py_int.
  rewrite String.list_ascii_of_string_of_list_ascii, (strip_digits ds Hds).
  destruct ds as [|d ds]; [contradiction|].
  assert (Hd : (d < 10)%nat) by (apply Forall_cons in Hds as [H _]; exact H).
  assert (Hsign : sign (digits_text (d :: ds)) = (false, digits_text (d :: ds))).
  { cbn [digits_text map sign]. rewrite !(digit_char_not _ d Hd) by reflexivity. reflexivity. }
  rewrite Hsign, <- (app_nil_r (digits_text (d :: ds))).
  rewrite (digitpart_text d ds 0 [] Hds I). reflexivity.
Qed.

Lemma py_int_587 limit :
  (limit = 0 \/ 3 <= limit)%nat -> py_int limit "587" = Some 587.
Proof.
  intros Hl. change "587" with (String.string_of_list_ascii (digits_text [5; 8; 7]%nat)).
  rewrite py_int_digits; [|discriminate|repeat constructor; lia].
  cbn [length].
  destruct (Nat.ltb_spec 0 limit), (Nat.ltb_spec limit 3); cbn; try reflexivity; lia.
Qed.

Lemma email_from_environment_dom env ec :
  DeploymentConfig.email_from_environment env = Ok ec ->
  dom ec = {[ "sender"; "password"; "recipient"; "smtp_server"; "smtp_port" ]} /\
  ec !! "sender" = Some (DeploymentConfig.getenv env "EMAIL_SENDER").
Proof.
  unfold DeploymentConfig.email_from_environment.
  destruct (py_int _ _) as [port|]; [|discriminate].
  intros [= <-]. rewrite !dom_insert_L, dom_empty_L. split; [set_solver|reflexivity].
Qed.

(** X15.  A configuration loaded from the environment has e-mail
    settings exactly when [EMAIL_SENDER] is set and not empty; the
    settings then have the five keys [_send_email] reads, with an integer
    port, so that [_send_email] is the SMTP session and never the
    missing-key failure. *)
Theorem environment_email_is_complete env cfg :
  DeploymentConfig.from_environment env = Ok cfg ->
  configured_channels cfg
  = (if truthy (DeploymentConfig.getenv env "EMAIL_SENDER")
     then {[ "console"; "file"; "email" ]} else {[ "console"; "file" ]}) /\
  (email_config cfg = None <-> truthy (DeploymentConfig.getenv env "EMAIL_SENDER") = false) /\
  forall ec, email_config cfg = Some ec ->
    dom ec = {[ "sender"; "password"; "recipient"; "smtp_server"; "smtp_port" ]} /\
    (exists port, ec !! "smtp_port" = Some (PInt port)) /\
    forall w report fl,
      Agent4Notifier._send_email w ec report fl
      = smtp_send w ec ("🌞 SOLAR FLARE ALERT - " +:+ class_type fl +:+ " Class Event") report.
Proof.
  unfold DeploymentConfig.from_environment.
  destruct (truthy (DeploymentConfig.getenv env "EMAIL_SENDER")) eqn:Hs.
  - destruct (DeploymentConfig.email_from_environment env) as [ec|e] eqn:Hec; [|discriminate].
    intros [= <-]. cbn [email_config].
    destruct (email_from_environment_dom env ec Hec) as [Hdom Hsender].
    assert (Hne : ec <> ∅).
    { intros ->. rewrite dom_empty_L in Hdom. set_solver. }
    unfold configured_channels, dict_set. cbn [email_config].
    rewrite bool_decide_eq_false_2 by exact Hne. cbn [negb].
    split; [reflexivity|]. split; [split; discriminate|].
    intros ? [= <-]. split; [exact Hdom|].
    unfold DeploymentConfig.email_from_environment in Hec.
    destruct (py_int _ _) as [port|]; [|discriminate]. injection Hec as <-.
    split; [exists port; reflexivity|]. intros w report fl. reflexivity.
  - intros [= <-]. cbn. split; [reflexivity|]. split; [split; reflexivity|]. discriminate.
Qed.

Lemma from_environment_raises env e :
  DeploymentConfig.from_environment env = Raise e <->
  e = ValueError /\
  truthy (DeploymentConfig.getenv env "EMAIL_SENDER") = true /\
  py_int (int_max_str_digits env) (default "587" (variables env !! "SMTP_PORT")) = None.
Proof.
  unfold DeploymentConfig.from_environment, DeploymentConfig.email_from_environment.
  destruct (truthy (DeploymentConfig.getenv env "EMAIL_SENDER")).
  - destruct (py_int _ _) as [port|].
    + split; [discriminate | intros (_ & _ & H); discriminate H].
    + split; [intros [= <-]; auto | intros (-> & _); reflexivity].
  - split; [discriminate | intros (_ & H & _); discriminate H].
Qed.

(** X16.  Loading the configuration raises only a [ValueError], and
    only when [EMAIL_SENDER] is set and the port cannot be read as an
    integer; with the interpreter's default limit on digits this is a
    fault of the value of [SMTP_PORT], never of the default port. *)
Theorem environment_fails_on_port_only env :
  (forall e, DeploymentConfig.from_environment env = Raise e <->
     e = ValueError /\
     truthy (DeploymentConfig.getenv env "EMAIL_SENDER") = true /\
     py_int (int_max_str_digits env) (default "587" (variables env !! "SMTP_PORT")) = None) /\
  ((int_max_str_digits env = 0 \/ 3 <= int_max_str_digits env)%nat ->
   forall e, DeploymentConfig.from_environment env = Raise e ->
     exists port, variables env !! "SMTP_PORT" = Some port /\
                  py_int (int_max_str_digits env) port = None).
Proof.
  assert (HA := from_environment_raises env).
  split; [exact HA|].
  intros Hlimit e He. apply HA in He as (_ & _ & Hint).
  destruct (variables env !! "SMTP_PORT") as [port|]; cbn [from_option id] in Hint.
  - exists port. auto.
  - rewrite py_int_587 in Hint by exact Hlimit. discriminate.
Qed.

(** X17.  With [EMAIL_SENDER] set, a port written in decimal digits is
    stored as the integer it denotes, and a missing [SMTP_PORT] gives
    587. *)
Theorem smtp_port_is_read_in_decimal env :
  truthy (DeploymentConfig.getenv env "EMAIL_SENDER") = true ->
  (forall ds,
     variables env !! "SMTP_PORT" = Some (String.string_of_list_ascii (digits_text ds)) ->
     ds <> [] -> are_digits ds ->
     (int_max_str_digits env = 0 \/ length ds <= int_max_str_digits env)%nat ->
     exists cfg ec,
       DeploymentConfig.from_environment env = Ok cfg /\ email_config cfg = Some ec /\
       ec !! "smtp_port" = Some (PInt (digits_value 0 ds))) /\
  (variables env !! "SMTP_PORT" = None ->
   (int_max_str_digits env = 0 \/ 3 <= int_max_str_digits env)%nat ->
   exists cfg ec,
     DeploymentConfig.from_environment env = Ok cfg /\ email_config cfg = Some ec /\
     ec !! "smtp_port" = Some (PInt 587)).
Proof.
  intros Hs.
  unfold DeploymentConfig.from_environment, DeploymentConfig.email_from_environment.
  rewrite Hs. split.
  - intros ds Hport Hne Hds Hlimit. rewrite Hport. cbn [from_option id].
    rewrite (py_int_digits _ ds Hne Hds).
    replace ((0 <? int_max_str_digits env) && (int_max_str_digits env <? length ds))%nat
      with false.
    + eexists _, _. repeat split.
    + symmetry. apply andb_false_iff.
      destruct Hlimit as [-> | Hl]; [left; reflexivity | right; apply Nat.ltb_ge, Hl].
  - intros Hport Hlimit. rewrite Hport. cbn [from_option id].
    rewrite (py_int_587 _ Hlimit). eexists _, _. repeat split.
Qed.

Lemma cloud_run_handler_ok env cfg w s :
  DeploymentConfig.from_environment env = Ok cfg ->
  exists n s1,
    run_cycle cfg w (DeploymentConfig.fresh_system s) = (Ok n, s1) /\
    DeploymentConfig.cloud_run_handler env w s
    = (Ok {| DeploymentConfig.status := "success";
             DeploymentConfig.flares_processed := n;
             DeploymentConfig.reply_timestamp := isoformat w (clock w (ticks s1)) |},
       tick s1).
Proof.
  intros Hcfg. unfold DeploymentConfig.cloud_run_handler, DeploymentConfig.create_system.
  rewrite Hcfg.
  destruct (run_cycle_never_raises cfg w (DeploymentConfig.fresh_system s))
    as (n & s1 & new & Hrun & _).
  exists n, s1. split; [exact Hrun|]. unfold bind. rewrite Hrun. reflexivity.
Qed.

(** X18.  [cloud_run_handler] raises exactly when the configuration
    cannot be loaded; otherwise it answers with the status [success],
    also when the feed was unreachable, in which case it reports no
    event. *)
Theorem cloud_run_handler_reports_success env w s :
  match DeploymentConfig.from_environment env with
  | Raise e =>
      DeploymentConfig.cloud_run_handler env w s = (Raise e, s) /\ e = ValueError
  | Ok cfg =>
      exists r s',
        DeploymentConfig.cloud_run_handler env w s = (Ok r, s') /\
        DeploymentConfig.status r = "success" /\
        (feed_fails w -> DeploymentConfig.flares_processed r = O /\ execution_log s' = [])
  end.
Proof.
  destruct (DeploymentConfig.from_environment env) as [cfg|e] eqn:Hcfg.
  - destruct (cloud_run_handler_ok env cfg w s Hcfg) as (n & s1 & Hrun & Hh).
    eexists _, _. split; [exact Hh|]. split; [reflexivity|].
    intros Hfail. cbn [DeploymentConfig.flares_processed tick execution_log].
    rewrite run_cycle_unfold in Hrun.
    destruct (execute_unfold cfg w (tick (DeploymentConfig.fresh_system s))) as (fetched & Hf & H).
    rewrite (fetch_feed_fails cfg w _ Hfail) in Hf. injection Hf as <-.
    cbn [Agent1Monitor.detect_loop] in H. unfold ret in H.
    destruct H as (ctxs & s3 & Hexec & Hfl & (_ & _ & Hlog)).
    destruct ctxs; [|discriminate]. rewrite Hexec in Hrun. injection Hrun as <- <-.
    split; [reflexivity|]. rewrite Hlog. reflexivity.
  - split.
    + unfold DeploymentConfig.cloud_run_handler, DeploymentConfig.create_system.
      rewrite Hcfg. reflexivity.
    + apply from_environment_raises in Hcfg as [-> _]. reflexivity.
Qed.

(** X19.  [cloud_run_handler] builds a new system at each call: two
    calls on the same feed report the same number of events and log the
    same identifiers again. *)
Theorem cloud_run_handler_has_no_memory env cfg w1 w2 s data :
  DeploymentConfig.from_environment env = Ok cfg ->
  feed_returns w1 data -> feed_returns w2 data ->
  Forall well_typed data -> NoDup (map rec_id data) ->
  exists r1 s1 r2 s2,
    DeploymentConfig.cloud_run_handler env w1 s = (Ok r1, s1) /\
    DeploymentConfig.cloud_run_handler env w2 s1 = (Ok r2, s2) /\
    DeploymentConfig.flares_processed r1 = length (filter (emits ∅) data) /\
    DeploymentConfig.flares_processed r2 = length (filter (emits ∅) data) /\
    map log_flare_id (execution_log s2) = map log_flare_id (execution_log s1).
Proof.
  intros Hcfg Hf1 Hf2 Hwt Hnd.
  destruct (cloud_run_handler_ok env cfg w1 s Hcfg) as (n1 & t1 & Hrun1 & Hh1).
  destruct (cloud_run_handler_ok env cfg w2 (tick t1) Hcfg) as (n2 & t2 & Hrun2 & Hh2).
  destruct (run_cycle_well_typed cfg w1 (DeploymentConfig.fresh_system s) data Hf1 Hwt Hnd)
    as (t1' & new1 & Hr1 & Hlog1 & Hall1 & _).
  destruct (run_cycle_well_typed cfg w2 (DeploymentConfig.fresh_system (tick t1)) data Hf2 Hwt Hnd)
    as (t2' & new2 & Hr2 & Hlog2 & Hall2 & _).
  rewrite Hrun1 in Hr1. injection Hr1 as -> <-.
  rewrite Hrun2 in Hr2. injection Hr2 as -> <-.
  cbn [DeploymentConfig.fresh_system seen_flares execution_log app] in *.
  eexists _, _, _, _. split; [exact Hh1|]. split; [exact Hh2|].
  split; [reflexivity|]. split; [reflexivity|].
  cbn [tick execution_log]. rewrite Hlog1, Hlog2.
  clear -Hall1 Hall2. revert new2 Hall2.
  induction Hall1 as [|e r new1 l [Hid _] _ IH]; intros new2 Hall2.
  - inversion Hall2. reflexivity.
  - inversion Hall2 as [|e2 r2 new2' l2 [Hid2 _] Hrest]; subst.
    cbn. rewrite Hid, Hid2. f_equal. apply (IH new2' Hrest).
Qed.

(** *** The dashboard server *)

Lemma removelast_length {A} (l : list A) : length (removelast l) = pred (length l).
Proof.
  induction l as [|x l IH]; [reflexivity|].
  destruct l as [|y l]; [reflexivity|].
  change (removelast (x :: y :: l)) with (x :: removelast (y :: l)).
  cbn [length] in *. rewrite IH. reflexivity.
Qed.

Lemma push_capped_length {A} cap (x : A) l :
  (length l <= cap)%nat ->
  length (App.push_capped cap x l) = Nat.min cap (S (length l)).
Proof.
  intros Hl. unfold App.push_capped.
  destruct (Nat.ltb_spec cap (length (x :: l))) as [Hlt | Hge].
  - rewrite removelast_length. cbn [length] in *. lia.
  - cbn [length] in *. lia.
Qed.

Lemma removelast_subset {A} (l : list A) x : x ∈ removelast l -> x ∈ l.
Proof.
  induction l as [|y l IH]; [intros H; inversion H|].
  destruct l as [|z l]; [intros H; inversion H|].
  change (removelast (y :: z :: l)) with (y :: removelast (z :: l)).
  intros H. apply elem_of_cons in H as [-> | H]; [left | right; apply IH, H].
Qed.

Lemma push_capped_Forall {A} (P : A -> Prop) cap x l :
  P x -> Forall P l -> Forall P (App.push_capped cap x l).
Proof.
  intros Hx Hl. unfold App.push_capped.
  assert (Hall : Forall P (x :: l)) by (constructor; assumption).
  destruct (cap <? length (x :: l))%nat; [|exact Hall].
  apply Forall_forall. intros y Hy. apply removelast_subset in Hy.
  rewrite Forall_forall in Hall. apply Hall, Hy.
Qed.

Lemma push_capped_hd {A} cap (x : A) l :
  (0 < cap)%nat -> head (App.push_capped cap x l) = Some x.
Proof.
  intros Hcap. unfold App.push_capped.
  destruct (Nat.ltb_spec cap (length (x :: l))) as [Hlt | Hge]; [|reflexivity].
  destruct l as [|y l]; [cbn in Hlt; lia | reflexivity].
Qed.

Lemma log_message_invariant w m l a :
  server_invariant a -> server_invariant (App.log_message w m l a).
Proof.
  intros [H1 H2 H3 H4 H5]. split; cbn; auto.
  rewrite push_capped_length by exact H1. lia.
Qed.

Lemma set_status_invariant v a :
  server_invariant a -> server_invariant (App.set_status v a).
Proof. intros [H1 H2 H3 H4 H5]. split; cbn; auto. Qed.

Lemma with_system_invariant a s :
  server_invariant a -> server_invariant (App.with_system a s).
Proof. intros [H1 H2 H3 H4 H5]. split; cbn; auto. Qed.

Lemma random_choice_classes rt a :
  App.random_choice rt a ∈ App.classes /\
  (if startswith (App.random_choice rt a) "X" then "critical" else "warning")
  = (if decide (App.random_choice rt a = "X1.2") then "critical" else "warning").
Proof.
  unfold App.random_choice. cbn [App.classes length].
  assert (Hk : (App.randbelow rt (App.random_calls a) 4 mod 4 < 4)%nat)
    by (apply Nat.mod_upper_bound; lia).
  destruct (App.randbelow rt (App.random_calls a) 4 mod 4)%nat as [|[|[|[|k]]]]; [| | | |lia];
    cbn; (split; [set_solver | reflexivity]).
Qed.

Lemma add_alert_spec w rt i a :
  (length (App.recent_alerts a) <= 50)%nat -> Forall simulated (App.recent_alerts a) ->
  let a' := App.add_alert w rt i a in
  length (App.recent_alerts a') = Nat.min 50 (S (length (App.recent_alerts a))) /\
  Forall simulated (App.recent_alerts a') /\
  App.system_stats a' = App.system_stats a /\
  App.system_logs a' = App.system_logs a /\
  App.monitoring_system a' = App.monitoring_system a /\
  same_memory (App.system a) (App.system a').
Proof.
  intros Hlen Hsim. cbn zeta. unfold App.add_alert. cbn [App.recent_alerts App.system_stats
    App.system_logs App.monitoring_system App.system].
  split; [apply push_capped_length, Hlen|].
  split; [|repeat split].
  apply push_capped_Forall; [|exact Hsim].
  destruct (random_choice_classes rt a) as [Hin Hsev].
  unfold simulated. cbn [App.alert_class App.alert_severity App.alert_channels
    App.alert_status App.alert_id].
  repeat split; auto; lia.
Qed.

Lemma add_alerts_spec w rt n : forall i a,
  (length (App.recent_alerts a) <= 50)%nat -> Forall simulated (App.recent_alerts a) ->
  let a' := App.add_alerts w rt i n a in
  length (App.recent_alerts a') = Nat.min 50 (length (App.recent_alerts a) + n) /\
  Forall simulated (App.recent_alerts a') /\
  App.system_stats a' = App.system_stats a /\
  App.system_logs a' = App.system_logs a /\
  App.monitoring_system a' = App.monitoring_system a /\
  same_memory (App.system a) (App.system a').
Proof.
  induction n as [|n IH]; intros i a Hlen Hsim; cbn zeta.
  - cbn [App.add_alerts]. repeat split; auto. lia.
  - cbn [App.add_alerts].
    destruct (add_alert_spec w rt (i + 1) a Hlen Hsim) as (Hl & Hs & Hst & Hlg & Hms & Hmem).
    destruct (IH (S i) (App.add_alert w rt (i + 1) a) ltac:(lia) Hs)
      as (Hl' & Hs' & Hst' & Hlg' & Hms' & Hmem').
    rewrite Hl', Hst', Hlg', Hms', Hl, Hst, Hlg, Hms.
    repeat split; auto; try lia.
    + destruct Hmem as (? & ? & ?), Hmem' as (? & ? & ?). congruence.
    + destruct Hmem as (? & ? & ?), Hmem' as (? & ? & ?). congruence.
    + destruct Hmem as (? & ? & ?), Hmem' as (? & ? & ?). congruence.
Qed.

Lemma route_run_cycle_none w rt a :
  App.monitoring_system a = None ->
  App.run_cycle w rt a
  = (App.ErrorBody "System not initialized" 500,
     App.log_message w "System not initialized" "error" a).
Proof. intros H. unfold App.run_cycle. rewrite H. reflexivity. Qed.

Lemma route_run_cycle_some w rt a cfg :
  App.monitoring_system a = Some cfg -> server_invariant a ->
  exists n s1 a',
    run_cycle cfg w (tick (App.system a)) = (Ok n, s1) /\
    App.run_cycle w rt a = (App.RunCycleBody n (App.system_stats a'), a') /\
    server_invariant a' /\
    App.monitoring_system a' = Some cfg /\
    App.status (App.system_stats a') = "active" /\
    App.total_flares (App.system_stats a') = (App.total_flares (App.system_stats a) + n)%nat /\
    App.agent1_calls (App.system_stats a') = (App.agent1_calls (App.system_stats a) + 1)%nat /\
    is_Some (App.last_check (App.system_stats a')) /\
    same_memory s1 (App.system a') /\
    (n = O -> App.recent_alerts a' = App.recent_alerts a).
Proof.
  intros Hms [H1 H2 H3 H4 H5].
  destruct (run_cycle_never_raises cfg w (tick (App.system a))) as (n & s1 & new & Hrun & _).
  unfold flare_counters in H3.
  repeat (apply Forall_cons in H3 as [? H3]).
  assert (Hlogs1 : forall x, (length (App.push_capped 100 x (App.system_logs a)) <= 100)%nat)
    by (intros x; rewrite push_capped_length by exact H1; lia).
  unfold App.run_cycle. rewrite Hms. cbv zeta.
  set (a0 := App.set_status "running" (App.log_message w _ _ a)).
  change (App.system a0) with (tick (App.system a)). rewrite Hrun.
  destruct (Nat.ltb_spec 0 n) as [Hn | Hn].
  - set (a1 := App.count_flares n _).
    destruct (add_alerts_spec w rt n 0 a1) as (Hl & Hs & Hst & Hlg & Hm & Hmem).
    { cbn. lia. } { exact H4. }
    set (a2 := App.add_alerts w rt 0 n a1) in *.
    eexists n, s1, _. split; [reflexivity|]. split; [reflexivity|].
    assert (Hlg2 : (length (App.system_logs a2) <= 100)%nat) by (rewrite Hlg; apply Hlogs1).
    assert (Hal2 : length (App.recent_alerts a2)
                   = Nat.min 50 (App.total_flares (App.system_stats a) + n))
      by (rewrite Hl; change (App.recent_alerts a1) with (App.recent_alerts a); lia).
    assert (Hmem2 : same_memory s1 (App.system a2)) by exact Hmem.
    clearbody a2. subst a1 a0. cbn in Hst, Hm.
    cbn [App.log_message App.set_status App.with_stats App.system App.system_stats
         App.monitoring_system App.recent_alerts App.system_logs App.random_calls
         App.status App.total_flares App.agent1_calls App.last_check].
    rewrite Hst, Hm.
    cbn [App.status App.total_flares App.agent1_calls App.last_check].
    split; [|repeat split; eauto; try apply Hmem2; lia].
    split.
    + cbn. rewrite push_capped_length by exact Hlg2. lia.
    + cbn -[Nat.min]. rewrite Hst. cbn -[Nat.min]. rewrite Hal2. reflexivity.
    + unfold flare_counters. cbn. rewrite Hst. cbn. repeat constructor; lia.
    + exact Hs.
    + cbn. rewrite Hm, Hms. discriminate.
  - assert (n = O) by lia. subst n.
    eexists O, s1, _. split; [reflexivity|]. split; [reflexivity|].
    subst a0.
    split; [|cbn; repeat split; eauto; lia].
    split.
    + cbn. rewrite push_capped_length by apply Hlogs1. lia.
    + cbn -[Nat.min]. exact H2.
    + unfold flare_counters. cbn. repeat constructor; lia.
    + exact H4.
    + cbn. rewrite Hms. discriminate.
Qed.

Lemma fetch_data_eq w rt a :
  App.fetch_data w rt a
  = (App.ErrorBody (App.str_exn rt AttributeError) 500,
     App.log_message w ("Error fetching data: " +:+ App.str_exn rt AttributeError) "error"
       (App.log_message w "Fetching recent data from NASA DONKI" "info" a)).
Proof. reflexivity. Qed.

Lemma log_message_frame w m l a :
  App.monitoring_system (App.log_message w m l a) = App.monitoring_system a /\
  App.system_stats (App.log_message w m l a) = App.system_stats a /\
  App.recent_alerts (App.log_message w m l a) = App.recent_alerts a /\
  same_memory (App.system a) (App.system (App.log_message w m l a)).
Proof. repeat split. Qed.

(** One request: what every route keeps. *)
Lemma handle_keeps w rt req a :
  server_invariant a ->
  App.status (App.system_stats a) ∈ ["initialized"; "active"; "error"] ->
  let a' := (App.handle w rt req a).2 in
  server_invariant a' /\
  App.status (App.system_stats a') ∈ ["initialized"; "active"; "error"] /\
  App.monitoring_system a' = App.monitoring_system a /\
  seen_flares (App.system a) ⊆ seen_flares (App.system a').
Proof.
  intros Hinv Hst. cbn zeta. destruct req; cbn [App.handle].
  - unfold App.get_status. cbn [snd]. split; [apply with_system_invariant, Hinv|]. auto.
  - cbn. auto.
  - cbn. auto.
  - destruct (App.monitoring_system a) as [cfg|] eqn:Hms.
    + destruct (route_run_cycle_some w rt a cfg Hms Hinv)
        as (n & s1 & a' & Hrun & -> & Hinv' & Hms' & Hact & _ & _ & _ & Hmem & _).
      cbn [snd]. split; [exact Hinv'|]. rewrite Hact. split; [set_solver|].
      split; [exact Hms'|].
      destruct Hmem as (-> & _).
      destruct (run_cycle_shape cfg w (tick (App.system a)))
        as (n0 & s0 & out & s2 & new & Hrun0 & Hexec & Hs & _).
      rewrite Hrun in Hrun0. injection Hrun0 as <- <-. rewrite Hs.
      apply execute_inv in Hexec as (Hsub & _). exact Hsub.
    + rewrite (route_run_cycle_none w rt a Hms). cbn [snd].
      split; [apply log_message_invariant, Hinv|]. auto.
  - rewrite fetch_data_eq. cbn [snd].
    split; [apply log_message_invariant, log_message_invariant, Hinv|]. auto.
Qed.

Lemma serve_keeps rt reqs : forall a,
  server_invariant a ->
  App.status (App.system_stats a) ∈ ["initialized"; "active"; "error"] ->
  let a' := App.serve rt reqs a in
  server_invariant a' /\
  App.status (App.system_stats a') ∈ ["initialized"; "active"; "error"] /\
  App.monitoring_system a' = App.monitoring_system a /\
  seen_flares (App.system a) ⊆ seen_flares (App.system a').
Proof.
  induction reqs as [|[w req] reqs IH]; intros a Hinv Hst; cbn zeta.
  - cbn. auto.
  - cbn [App.serve].
    destruct (handle_keeps w rt req a Hinv Hst) as (Hinv1 & Hst1 & Hms1 & Hsub1).
    destruct (IH _ Hinv1 Hst1) as (Hinv2 & Hst2 & Hms2 & Hsub2).
    split; [exact Hinv2|]. split; [exact Hst2|]. split; [congruence|].
    etrans; eassumption.
Qed.

Lemma boot_keeps rt main :
  server_invariant (boot rt main) /\
  App.status (App.system_stats (boot rt main)) ∈ ["initialized"; "active"; "error"] /\
  App.monitoring_system (boot rt main)
  = match main with
    | Some _ => match DeploymentConfig.create_system (App.environ rt) with
                | Ok cfg => Some cfg
                | Raise _ => None
                end
    | None => None
    end /\
  seen_flares (App.system (boot rt main)) = ∅.
Proof.
  assert (Hinit : server_invariant App.init_server).
  { split; cbn; auto; try lia. unfold flare_counters. cbn. repeat constructor. }
  destruct main as [w0|]; cbn [boot].
  - unfold App.init_system.
    destruct (DeploymentConfig.create_system (App.environ rt)) as [cfg|e]; cbn [snd].
    + split; [|cbn; split; [set_solver|auto]].
      apply set_status_invariant, log_message_invariant.
      destruct Hinit as [H1 H2 H3 H4 H5]. split; cbn; auto; discriminate.
    + split; [|cbn; split; [set_solver|auto]].
      apply set_status_invariant, log_message_invariant, Hinit.
  - split; [exact Hinit|]. cbn. split; [set_solver|auto].
Qed.

(** X20.  Whatever requests the dashboard has answered, one at a time, the
    six event counters of [system_stats] are equal, the list of alerts
    holds as many alerts as events were counted, up to 50, the list of log
    lines holds at most 100, and the status is one of [initialized],
    [active] and [error]. *)
Theorem dashboard_counters_agree rt main reqs :
  let a := App.serve rt reqs (boot rt main) in
  let st := App.system_stats a in
  Forall (fun n => n = App.total_flares st) (flare_counters st) /\
  length (App.recent_alerts a) = Nat.min 50 (App.total_flares st) /\
  (length (App.system_logs a) <= 100)%nat /\
  App.status st ∈ ["initialized"; "active"; "error"].
Proof.
  destruct (boot_keeps rt main) as (Hinv & Hst & _).
  destruct (serve_keeps rt reqs _ Hinv Hst) as ([H1 H2 H3 H4 H5] & Hst' & _).
  cbn zeta. auto.
Qed.

(** X21.  Every alert of the dashboard is the one [add_alert] makes up:
    its class is one of four fixed codes, its severity is [critical]
    exactly for [X1.2], it lists the three channels whatever is
    configured, and its number is between 1 and 51. *)
Theorem dashboard_alerts_are_simulated rt main reqs :
  Forall simulated (App.recent_alerts (App.serve rt reqs (boot rt main))).
Proof.
  destruct (boot_keeps rt main) as (Hinv & Hst & _).
  destruct (serve_keeps rt reqs _ Hinv Hst) as ([H1 H2 H3 H4 H5] & _).
  exact H4.
Qed.

(** X22.  The route [fetch_data] always answers 500 with the text of
    the [AttributeError]: [Agent1Monitor] has no [fetch_recent_flares];
    the statistics, the alerts and the system are left as they were, and
    the newest log line is the error. *)
Theorem fetch_data_always_answers_500 w rt a :
  let '(answer, a') := App.handle w rt App.PostFetchData a in
  answer = App.ErrorBody (App.str_exn rt AttributeError) 500 /\
  App.system_stats a' = App.system_stats a /\
  App.recent_alerts a' = App.recent_alerts a /\
  App.monitoring_system a' = App.monitoring_system a /\
  (exists t, head (App.system_logs a')
             = Some {| App.line_timestamp := t; App.line_level := "error";
                       App.line_message :=
                         "Error fetching data: " +:+ App.str_exn rt AttributeError |}).
Proof.
  cbn [App.handle]. rewrite fetch_data_eq. repeat split.
  eexists. cbn [App.log_message App.system_logs]. apply push_capped_hd. lia.
Qed.

Lemma handle_without_system w rt req a :
  App.monitoring_system a = None ->
  App.monitoring_system (App.handle w rt req a).2 = None /\
  App.system_stats (App.handle w rt req a).2 = App.system_stats a /\
  App.recent_alerts (App.handle w rt req a).2 = App.recent_alerts a /\
  (req = App.PostRunCycle ->
   (App.handle w rt req a).1 = App.ErrorBody "System not initialized" 500).
Proof.
  intros Hms. destruct req; cbn [App.handle].
  1-3: cbn; repeat split; auto; discriminate.
  - rewrite (route_run_cycle_none w rt a Hms). cbn. auto.
  - rewrite fetch_data_eq. cbn. repeat split; auto. discriminate.
Qed.

Lemma serve_without_system rt reqs : forall a,
  App.monitoring_system a = None ->
  App.monitoring_system (App.serve rt reqs a) = None /\
  App.system_stats (App.serve rt reqs a) = App.system_stats a /\
  App.recent_alerts (App.serve rt reqs a) = App.recent_alerts a /\
  forall i w, reqs !! i = Some (w, App.PostRunCycle) ->
    answers rt reqs a !! i = Some (App.ErrorBody "System not initialized" 500).
Proof.
  induction reqs as [|[w req] reqs IH]; intros a Hms.
  - cbn. repeat split; auto. intros i w Hi. rewrite lookup_nil in Hi. discriminate.
  - cbn [App.serve answers].
    destruct (handle_without_system w rt req a Hms) as (Hms1 & Hst1 & Hal1 & Hans).
    destruct (IH _ Hms1) as (Hms2 & Hst2 & Hal2 & Hrest).
    split; [exact Hms2|]. split; [congruence|]. split; [congruence|].
    intros [|i] w' Hi.
    + cbn in Hi |- *. injection Hi as <- ->. rewrite (Hans eq_refl). reflexivity.
    + cbn in Hi |- *. apply (Hrest i w' Hi).
Qed.

(** X23.  When the module is only imported, or when the configuration
    could not be loaded at start, the dashboard never gets a system:
    every request to run a cycle is answered 500, the statistics stay as
    they were at start with all counters 0, and no alert is made. *)
Theorem dashboard_without_system_runs_no_cycle rt main reqs :
  main = None \/ (exists e, DeploymentConfig.create_system (App.environ rt) = Raise e) ->
  let a := App.serve rt reqs (boot rt main) in
  App.monitoring_system a = None /\
  App.system_stats a = App.system_stats (boot rt main) /\
  App.status (App.system_stats a) = match main with Some _ => "error" | None => "initialized" end /\
  Forall (fun n => n = O) (App.agent1_calls (App.system_stats a)
                           :: flare_counters (App.system_stats a)) /\
  App.recent_alerts a = [] /\
  forall i w, reqs !! i = Some (w, App.PostRunCycle) ->
    answers rt reqs (boot rt main) !! i
    = Some (App.ErrorBody "System not initialized" 500).
Proof.
  intros Hmain. cbn zeta.
  assert (Hboot : App.monitoring_system (boot rt main) = None /\
                  App.status (App.system_stats (boot rt main))
                  = match main with Some _ => "error" | None => "initialized" end /\
                  Forall (fun n => n = O)
                    (App.agent1_calls (App.system_stats (boot rt main))
                     :: flare_counters (App.system_stats (boot rt main))) /\
                  App.recent_alerts (boot rt main) = []).
  { destruct main as [w0|]; cbn [boot].
    - destruct Hmain as [Hmain | [e He]]; [discriminate|].
      unfold App.init_system. rewrite He. cbn. repeat split; repeat constructor.
    - cbn. repeat split; repeat constructor. }
  destruct Hboot as (Hms & Hstatus & Hzero & Hal).
  destruct (serve_without_system rt reqs _ Hms) as (Hms' & Hst' & Hal' & Hans).
  rewrite Hst', Hal'. auto 10.
Qed.

Lemma run_cycle_readable cfg w s data :
  feed_returns w data -> Forall readable data -> NoDup (map rec_id data) ->
  exists n s',
    run_cycle cfg w s = (Ok n, s') /\
    seen_flares s'
    = list_to_set (map rec_id (filter (emits (seen_flares s)) data)) ∪ seen_flares s /\
    (filter (emits (seen_flares s)) data = [] -> n = O /\ execution_log s' = execution_log s).
Proof.
  intros Hf Hread Hnd.
  destruct (run_cycle_shape cfg w s)
    as (n & s' & out & s1 & new & Hrun & Hexec & Hs & _ & Hlog & Hout).
  destruct (execute_readable cfg w (tick s) data Hf Hread Hnd)
    as (ctxs & s1' & Hexec' & Hfl & _ & Hseen).
  rewrite Hexec in Hexec'. injection Hexec' as -> <-.
  cbn [tick seen_flares] in Hfl, Hseen.
  exists n, s'. split; [exact Hrun|]. split; [rewrite Hs; exact Hseen|].
  intros Hnil. rewrite Hnil in Hfl. destruct ctxs; [|discriminate].
  destruct Hout as [Hall [[Hlen ->] | [Hlen _]]]; [|cbn in Hlen; lia].
  cbn in Hlen. destruct new; [|discriminate]. rewrite Hlog, app_nil_r. auto.
Qed.

Lemma filter_emits_covered (seen0 seen : gset pyval) (data : list FlareData) :
  list_to_set (map rec_id (filter (emits seen0) data)) ∪ seen0 ⊆ seen ->
  filter (emits seen) data = [].
Proof.
  intros Hsub. apply filter_none, Forall_forall. intros r Hr [Hcls Hnot].
  apply Hnot, Hsub.
  destruct (decide (rec_id r ∈ seen0)) as [Hin | Hnin].
  - apply elem_of_union_r, Hin.
  - apply elem_of_union_l, elem_of_list_to_set, list_elem_of_fmap_2.
    apply list_elem_of_filter. split; [split; assumption | exact Hr].
Qed.

Lemma serve_app rt reqs1 : forall reqs2 a,
  App.serve rt (reqs1 ++ reqs2) a = App.serve rt reqs2 (App.serve rt reqs1 a).
Proof.
  induction reqs1 as [|[w req] reqs1 IH]; intros reqs2 a; [reflexivity|].
  cbn [app App.serve]. apply IH.
Qed.

(** X24.  The dashboard keeps one system: once a cycle was run on a
    readable feed, a later request to run a cycle on the same feed,
    whatever was requested in between, reports 0 events and leaves the
    counters, the alerts and the log of the system as they were. *)
Theorem dashboard_reports_each_flare_once rt cfg w0 w1 w2 before between data :
  DeploymentConfig.create_system (App.environ rt) = Ok cfg ->
  feed_returns w1 data -> feed_returns w2 data ->
  Forall readable data -> NoDup (map rec_id data) ->
  let a1 := App.serve rt (before ++ [(w1, App.PostRunCycle)]) (boot rt (Some w0)) in
  let a2 := App.serve rt between a1 in
  exists a3,
    App.handle w2 rt App.PostRunCycle a2 = (App.RunCycleBody 0 (App.system_stats a3), a3) /\
    flare_counters (App.system_stats a3) = flare_counters (App.system_stats a2) /\
    App.recent_alerts a3 = App.recent_alerts a2 /\
    execution_log (App.system a3) = execution_log (App.system a2).
Proof.
  intros Hcfg Hf1 Hf2 Hread Hnd. cbn zeta.
  destruct (boot_keeps rt (Some w0)) as (Hinv0 & Hst0 & Hms0 & _).
  rewrite Hcfg in Hms0.
  rewrite serve_app. cbn [App.serve App.handle].
  destruct (serve_keeps rt before _ Hinv0 Hst0) as (Hinvb & Hstb & Hmsb & _).
  rewrite Hms0 in Hmsb. cbn zeta in Hinvb, Hstb, Hmsb.
  set (ab := App.serve rt before (boot rt (Some w0))) in *.
  destruct (route_run_cycle_some w1 rt ab cfg Hmsb Hinvb)
    as (n1 & s1 & a1 & Hrun1 & -> & Hinv1 & Hms1 & Hact1 & _ & _ & _ & Hmem1 & _).
  cbn [snd].
  destruct (run_cycle_readable cfg w1 (tick (App.system ab)) data Hf1 Hread Hnd)
    as (n1' & s1' & Hrun1' & Hseen1 & _).
  rewrite Hrun1 in Hrun1'. injection Hrun1' as <- <-.
  assert (Hst1 : App.status (App.system_stats a1) ∈ ["initialized"; "active"; "error"])
    by (rewrite Hact1; set_solver).
  destruct (serve_keeps rt between a1 Hinv1 Hst1) as (Hinv2 & _ & Hms2 & Hsub2).
  cbn zeta in Hinv2, Hms2, Hsub2. rewrite Hms1 in Hms2.
  set (a2 := App.serve rt between a1) in *.
  destruct (route_run_cycle_some w2 rt a2 cfg Hms2 Hinv2)
    as (n2 & s2 & a3 & Hrun2 & Hroute & Hinv3 & _ & _ & Htot & _ & _ & Hmem3 & Hal3).
  destruct (run_cycle_readable cfg w2 (tick (App.system a2)) data Hf2 Hread Hnd)
    as (n2' & s2' & Hrun2' & _ & Hidle).
  rewrite Hrun2 in Hrun2'. injection Hrun2' as <- <-.
  destruct Hidle as [-> Hlog2].
  { apply (filter_emits_covered (seen_flares (tick (App.system ab)))).
    cbn [tick seen_flares]. etrans; [|exact Hsub2].
    destruct Hmem1 as (-> & _). rewrite Hseen1. reflexivity. }
  exists a3. split; [exact Hroute|].
  split; [|split; [auto|destruct Hmem3 as (_ & _ & ->); exact Hlog2]].
  destruct Hinv2 as [_ _ Hc2 _ _], Hinv3 as [_ _ Hc3 _ _].
  rewrite Htot, Nat.add_0_r in Hc3. unfold flare_counters in *.
  repeat (apply Forall_cons in Hc2 as [? Hc2]).
  repeat (apply Forall_cons in Hc3 as [? Hc3]).
  congruence.
Qed.

(* ====================================================================== *)
(** ** The further theorems at concrete inputs *)
(* ====================================================================== *)

(** X1 on [example_feed] from the initial state. *)
Lemma monitor_keeps_feed_order_witness :
  exists ctxs s',
    Agent1Monitor.execute plain_config example_world init_state = (Ok ctxs, s') /\
    map flare ctxs = map flare_of (filter (emits (seen_flares init_state)) example_feed) /\
    map ctx_id ctxs `sublist_of` map rec_id example_feed /\
    Forall blank ctxs /\
    seen_flares s' = list_to_set (map ctx_id ctxs) ∪ seen_flares init_state.
Proof.
  apply (monitor_keeps_feed_order plain_config example_world init_state example_feed).
  - intros ? ? ?. reflexivity.
  - repeat constructor; try (eexists; reflexivity); right; eexists; reflexivity.
  - apply (bool_decide_unpack _). vm_compute. exact I.
Defined.

(** X2 on the first call of the Monitor on [example_world]. *)
Lemma monitor_emits_distinct_ids_witness :
  NoDup (emitted_ids first_call.1) /\
  forall c1 c2 ctxs,
    first_call.1 = Ok ctxs -> c1 ∈ ctxs -> c2 ∈ ctxs ->
    ctx_id c1 = PNone -> ctx_id c2 = PNone -> flare c1 = flare c2.
Proof.
  apply (monitor_emits_distinct_ids plain_config example_world init_state
           first_call.1 first_call.2).
  apply surjective_pairing.
Defined.

(** X3 on the first call of the Monitor on [example_world]. *)
Lemma monitor_sets_last_check_witness :
  match first_call.1 with
  | Ok _ =>
      exists k, (ticks init_state <= k < ticks first_call.2)%nat /\
                last_check_time first_call.2 = Some (clock example_world k)
  | Raise _ => last_check_time first_call.2 = last_check_time init_state
  end.
Proof.
  apply (monitor_sets_last_check_iff_it_returns plain_config example_world init_state
           first_call.1 first_call.2).
  apply surjective_pairing.
Defined.

(** X6 on [unreadable_feed] from the initial state. *)
Lemma unreadable_record_loses_flares_witness :
  exists s',
    run_cycle plain_config unreadable_world init_state = (Ok O, s') /\
    execution_log s' = execution_log init_state /\
    last_check_time s' = last_check_time init_state /\
    seen_flares s'
    = list_to_set
        (map rec_id
           (filter (emits (seen_flares init_state))
              [donki_record "FLR-001" "M1.0" (PStr "2024-05-10T06:54Z")]))
      ∪ seen_flares init_state /\
    forall cfg' ws I,
      I ∈ map rec_id
            (filter (emits (seen_flares init_state))
               [donki_record "FLR-001" "M1.0" (PStr "2024-05-10T06:54Z")]) ->
      I ∈ logged_ids (cycles cfg' ws s') -> I ∈ logged_ids init_state.
Proof.
  apply (unreadable_record_loses_flares plain_config unreadable_world init_state
           [donki_record "FLR-001" "M1.0" (PStr "2024-05-10T06:54Z")]
           null_class_record
           [donki_record "FLR-003" "X1.1" (PStr "2024-05-10T11:40Z")]).
  - intros ? ? ?. reflexivity.
  - repeat constructor; try (eexists; reflexivity); right; eexists; reflexivity.
  - apply (bool_decide_unpack _). vm_compute. exact I.
  - apply not_elem_of_empty.
  - left. intros c. vm_compute. discriminate.
Defined.

(** X7 on two cycles on [example_world]. *)
Lemma repeated_feed_yields_nothing_witness :
  exists n s1 s2,
    run_cycle plain_config example_world init_state = (Ok n, s1) /\
    run_cycle plain_config example_world s1 = (Ok O, s2) /\
    execution_log s2 = execution_log s1 /\ seen_flares s2 = seen_flares s1.
Proof.
  apply (repeated_feed_yields_nothing plain_config example_world example_world init_state
           example_feed).
  - intros ? ? ?. reflexivity.
  - intros ? ? ?. reflexivity.
  - repeat constructor; try (eexists; reflexivity); right; eexists; reflexivity.
  - apply (bool_decide_unpack _). vm_compute. exact I.
Defined.

(** X8 on [fault_feed], whose second record has a null peak time. *)
Lemma unparsable_peak_time_witness :
  exists s' new,
    run_cycle plain_config fault_world init_state = (Ok O, s') /\
    execution_log s' = execution_log init_state ++ new /\
    map log_flare_id new
    = map rec_id
        (filter (emits (seen_flares init_state))
           [donki_record "FLR-001" "M1.0" (PStr "2024-05-10T06:54Z")]) /\
    (forall I,
       I ∈ map rec_id
             (filter (emits (seen_flares init_state))
                [donki_record "FLR-002" "M2.4" PNone;
                 donki_record "FLR-003" "X1.1" (PStr "2024-05-10T11:40Z")]) ->
       I ∈ seen_flares s') /\
    forall cfg' ws I,
      I ∈ map rec_id
            (filter (emits (seen_flares init_state))
               [donki_record "FLR-002" "M2.4" PNone;
                donki_record "FLR-003" "X1.1" (PStr "2024-05-10T11:40Z")]) ->
      I ∉ logged_ids init_state -> I ∉ logged_ids (cycles cfg' ws s').
Proof.
  apply (unparsable_peak_time_drops_the_rest plain_config fault_world init_state
           [donki_record "FLR-001" "M1.0" (PStr "2024-05-10T06:54Z")]
           (donki_record "FLR-002" "M2.4" PNone)
           [donki_record "FLR-003" "X1.1" (PStr "2024-05-10T11:40Z")]).
  - intros ? ? ?. reflexivity.
  - repeat constructor; try (eexists; reflexivity); right; eexists; reflexivity.
  - split; [eexists; reflexivity | right; eexists; reflexivity].
  - split; [reflexivity | apply not_elem_of_empty].
  - intros p. vm_compute. discriminate.
  - repeat constructor; try (eexists; reflexivity); right; eexists; reflexivity.
  - apply (bool_decide_unpack _). vm_compute. exact I.
Defined.

(** X10 on [example_context], with e-mail configured. *)
Lemma announced_channels_witness :
  exists m s',
    Agent4Notifier.execute mail_config example_world example_context init_state
      = (Ok (set_notification_results example_context m), s') /\
    (is_Some (m !! "email")
     <-> Reporting._notification_channels mail_config = "Console, File, Email") /\
    (m !! "email" = None
     <-> Reporting._notification_channels mail_config = "Console, File") /\
    is_Some (m !! "console") /\ is_Some (m !! "file").
Proof.
  apply (announced_channels_are_notified mail_config example_world example_context
           init_state "ALERT").
  - reflexivity.
  - discriminate.
Defined.

(** X11 on [example_context], with a key and Gemini failing. *)
Lemma gemini_outage_witness :
  exists a r,
    Agent2Analyst.execute gemini_config example_world example_context init_state
      = (Ok (set_analysis_data example_context a), tick init_state) /\
    gemini_analysis a = "" /\
    gemini_analysis a <> Agent2Analyst._fallback_analysis (flare example_context) /\
    Agent3ReportWriter.execute gemini_config example_world
      (set_analysis_data example_context a) (tick init_state)
      = (Ok (set_report (set_analysis_data example_context a) r), tick (tick init_state)) /\
    Agent3ReportWriter._generate_template_report example_world
      (set_analysis_data example_context a) (tick init_state)
      = (Ok r, tick (tick init_state)).
Proof.
  apply (gemini_outage_leaves_analysis_empty gemini_config example_world example_context
           init_state "2024-05-10T06:54Z").
  - reflexivity.
  - intros ? ? ?. reflexivity.
  - reflexivity.
Defined.

(** X12 on the first call of the Monitor on [example_world]. *)
Lemma emitted_flares_witness :
  Forall (fun c =>
    let f := flare c in
    (2 <= severity_level f <= 3) /\
    level (Agent2Analyst._assess_severity f)
    = (if startswith (class_type f) "X" then "SEVERE" else "MODERATE") /\
    length (Agent2Analyst._determine_impacts f) = 4%nat /\
    Agent2Analyst._determine_impacts f <> ["Minimal impact expected"])
    (match first_call.1 with Ok ctxs => ctxs | Raise _ => [] end).
Proof.
  apply (emitted_flares_are_moderate_or_severe plain_config example_world init_state
           (match first_call.1 with Ok ctxs => ctxs | Raise _ => [] end) first_call.2).
  vm_compute. reflexivity.
Defined.

(** X13 on the code [M5.3]. *)
Lemma determine_regions_by_magnitude_witness :
  Agent2Analyst.class_magnitude m53_flare
    = FDec (digits_value 0 ([5%nat] ++ [3%nat])) (- Z.of_nat (length [3%nat])) /\
  (Agent2Analyst._determine_regions m53_flare = Agent2Analyst.global_regions
   <-> "M"%char = "X"%char \/ 5 <= digits_value 0 [5%nat]) /\
  (Agent2Analyst._determine_regions m53_flare = Agent2Analyst.sunlit_regions
   <-> "M"%char <> "X"%char /\ digits_value 0 [5%nat] < 5).
Proof.
  apply (determine_regions_by_magnitude m53_flare "M" [5%nat] [3%nat]).
  - reflexivity.
  - discriminate.
  - repeat constructor; lia.
  - repeat constructor; lia.
  - simpl. lia.
Defined.

(** X15 on [mail_environ]. *)
Lemma environment_email_witness :
  configured_channels environ_mail_config
  = (if truthy (DeploymentConfig.getenv mail_environ "EMAIL_SENDER")
     then {[ "console"; "file"; "email" ]} else {[ "console"; "file" ]}) /\
  (email_config environ_mail_config = None
   <-> truthy (DeploymentConfig.getenv mail_environ "EMAIL_SENDER") = false) /\
  forall ec, email_config environ_mail_config = Some ec ->
    dom ec = {[ "sender"; "password"; "recipient"; "smtp_server"; "smtp_port" ]} /\
    (exists port, ec !! "smtp_port" = Some (PInt port)) /\
    forall w report fl,
      Agent4Notifier._send_email w ec report fl
      = smtp_send w ec ("🌞 SOLAR FLARE ALERT - " +:+ class_type fl +:+ " Class Event") report.
Proof.
  apply (environment_email_is_complete mail_environ environ_mail_config).
  vm_compute. reflexivity.
Defined.

(** X17 on [mail_environ]. *)
Lemma smtp_port_witness :
  (forall ds,
     variables mail_environ !! "SMTP_PORT"
       = Some (String.string_of_list_ascii (digits_text ds)) ->
     ds <> [] -> are_digits ds ->
     (int_max_str_digits mail_environ = 0 \/ length ds <= int_max_str_digits mail_environ)%nat ->
     exists cfg ec,
       DeploymentConfig.from_environment mail_environ = Ok cfg /\
       email_config cfg = Some ec /\
       ec !! "smtp_port" = Some (PInt (digits_value 0 ds))) /\
  (variables mail_environ !! "SMTP_PORT" = None ->
   (int_max_str_digits mail_environ = 0 \/ 3 <= int_max_str_digits mail_environ)%nat ->
   exists cfg ec,
     DeploymentConfig.from_environment mail_environ = Ok cfg /\
     email_config cfg = Some ec /\
     ec !! "smtp_port" = Some (PInt 587)).
Proof.
  apply (smtp_port_is_read_in_decimal mail_environ). reflexivity.
Defined.

(** X19 on two calls of the handler on [example_world]. *)
Lemma cloud_run_handler_has_no_memory_witness :
  exists r1 s1 r2 s2,
    DeploymentConfig.cloud_run_handler plain_environ example_world init_state = (Ok r1, s1) /\
    DeploymentConfig.cloud_run_handler plain_environ example_world s1 = (Ok r2, s2) /\
    DeploymentConfig.flares_processed r1 = length (filter (emits ∅) example_feed) /\
    DeploymentConfig.flares_processed r2 = length (filter (emits ∅) example_feed) /\
    map log_flare_id (execution_log s2) = map log_flare_id (execution_log s1).
Proof.
  apply (cloud_run_handler_has_no_memory plain_environ plain_config
           example_world example_world init_state example_feed).
  - reflexivity.
  - intros ? ? ?. reflexivity.
  - intros ? ? ?. reflexivity.
  - repeat constructor; try (eexists; reflexivity); right; eexists; reflexivity.
  - apply (bool_decide_unpack _). vm_compute. exact I.
Defined.

(** X23 on a start with [broken_environ]. *)
Lemma dashboard_without_system_witness :
  App.monitoring_system
    (App.serve (runtime_of broken_environ) [(example_world, App.PostRunCycle)]
       (boot (runtime_of broken_environ) (Some example_world))) = None /\
  App.system_stats
    (App.serve (runtime_of broken_environ) [(example_world, App.PostRunCycle)]
       (boot (runtime_of broken_environ) (Some example_world)))
  = App.system_stats (boot (runtime_of broken_environ) (Some example_world)) /\
  App.status
    (App.system_stats
       (App.serve (runtime_of broken_environ) [(example_world, App.PostRunCycle)]
          (boot (runtime_of broken_environ) (Some example_world)))) = "error" /\
  Forall (fun n => n = O)
    (App.agent1_calls
       (App.system_stats
          (App.serve (runtime_of broken_environ) [(example_world, App.PostRunCycle)]
             (boot (runtime_of broken_environ) (Some example_world))))
     :: flare_counters
          (App.system_stats
             (App.serve (runtime_of broken_environ) [(example_world, App.PostRunCycle)]
                (boot (runtime_of broken_environ) (Some example_world))))) /\
  App.recent_alerts
    (App.serve (runtime_of broken_environ) [(example_world, App.PostRunCycle)]
       (boot (runtime_of broken_environ) (Some example_world))) = [] /\
  forall i w, [(example_world, App.PostRunCycle)] !! i = Some (w, App.PostRunCycle) ->
    answers (runtime_of broken_environ) [(example_world, App.PostRunCycle)]
      (boot (runtime_of broken_environ) (Some example_world)) !! i
    = Some (App.ErrorBody "System not initialized" 500).
Proof.
  apply (dashboard_without_system_runs_no_cycle (runtime_of broken_environ)
           (Some example_world) [(example_world, App.PostRunCycle)]).
  right. exists ValueError. vm_compute. reflexivity.
Defined.

(** X24 on two requests on [example_world], the status asked in between. *)
Lemma dashboard_reports_each_flare_once_witness :
  exists a3,
    App.handle example_world (runtime_of plain_environ) App.PostRunCycle
      (App.serve (runtime_of plain_environ) [(example_world, App.GetStatus)]
         (App.serve (runtime_of plain_environ) ([] ++ [(example_world, App.PostRunCycle)])
            (boot (runtime_of plain_environ) (Some example_world))))
    = (App.RunCycleBody 0 (App.system_stats a3), a3) /\
    flare_counters (App.system_stats a3)
    = flare_counters
        (App.system_stats
           (App.serve (runtime_of plain_environ) [(example_world, App.GetStatus)]
              (App.serve (runtime_of plain_environ) ([] ++ [(example_world, App.PostRunCycle)])
                 (boot (runtime_of plain_environ) (Some example_world))))) /\
    App.recent_alerts a3
    = App.recent_alerts
        (App.serve (runtime_of plain_environ) [(example_world, App.GetStatus)]
           (App.serve (runtime_of plain_environ) ([] ++ [(example_world, App.PostRunCycle)])
              (boot (runtime_of plain_environ) (Some example_world)))) /\
    execution_log (App.system a3)
    = execution_log
        (App.system
           (App.serve (runtime_of plain_environ) [(example_world, App.GetStatus)]
              (App.serve (runtime_of plain_environ) ([] ++ [(example_world, App.PostRunCycle)])
                 (boot (runtime_of plain_environ) (Some example_world))))).
Proof.
  apply (dashboard_reports_each_flare_once (runtime_of plain_environ) plain_config
           example_world example_world example_world
           [] [(example_world, App.GetStatus)] example_feed).
  - reflexivity.
  - intros ? ? ?. reflexivity.
  - intros ? ? ?. reflexivity.
  - repeat constructor; try (eexists; reflexivity); right; eexists; reflexivity.
  - apply (bool_decide_unpack _). vm_compute. exact I.
Defined.
